(** * Text2SQL: the React frontend and the Validation Gauntlet

    A shallow embedding of the Text2SQL repository.

    - [Js]                 the fragment of JavaScript values the frontend
                           touches: property access, optional chaining,
                           truthiness, ToString.
    - [Api]                [services/api.js]: [apiService.submitSchema] and
                           [apiService.generateSQL].
    - [OutputDisplayJsx]   [components/OutputDisplay.jsx], the revision that
                           shows the validation pipeline.
    - [OutputDisplayPlain] the revision before it.
    - [QueryInput]         [components/QueryInput.jsx]: [handleGenerateSQL].
    - [Trc], [Schema], [Sql], [Gauntlet], [Orchestrator]
                           the three-stage validation pipeline of the
                           backend and its SQL-to-TRC translator.
    - [RangeRestriction]   the safety condition on formulas, stated on the
                           tree. *)

From Stdlib Require Import String Ascii List ZArith NArith Bool Arith Lia.
Import ListNotations.
Local Open Scope string_scope.
Local Open Scope list_scope.
Set Warnings "-register-all".

(** String concatenation; [++] stays with lists. *)
Infix "+++" := String.append (right associativity, at level 60).

(* ===================================================================== *)
(** * JavaScript values                                                   *)
(* ===================================================================== *)

Module Js.

(** Values that travel through the frontend: JSON data decoded from a
    response, [undefined], and [Error] objects.  An object literal keeps
    its keys in insertion order.  A number is written as an integer and
    is the Number nearest to it (fractions are not among the values); a
    string is its UTF-8 bytes. *)
Inductive JsValue : Type :=
| JUndefined
| JNull
| JBool (b : bool)
| JNum (n : Z)
| JStr (s : string)
| JArr (xs : list JsValue)
| JObj (fields : list (string * JsValue))
| JError (name : string) (message : string).

(** A computation either completes with a value or throws one. *)
Inductive Result (A : Type) : Type :=
| Ok (a : A)
| Threw (e : JsValue).
Arguments Ok {A} a.
Arguments Threw {A} e.

Definition bind {A B} (m : Result A) (k : A -> Result B) : Result B :=
  match m with
  | Ok a => k a
  | Threw e => Threw e
  end.

Notation "x <- m ;; k" := (bind m (fun x => k))
  (at level 61, m at next level, right associativity).

(** [try { body } catch (error) { handler }] *)
Definition try_catch {A} (body : Result A) (handler : JsValue -> Result A)
  : Result A :=
  match body with
  | Ok a => Ok a
  | Threw error => handler error
  end.

Definition is_nullish (v : JsValue) : bool :=
  match v with
  | JUndefined | JNull => true
  | _ => false
  end.

(** ToBoolean *)
Definition truthy (v : JsValue) : bool :=
  match v with
  | JUndefined | JNull => false
  | JBool b => b
  | JNum n => negb (n =? 0)%Z
  | JStr s => negb (String.eqb s EmptyString)
  | JArr _ | JObj _ | JError _ _ => true
  end.

Fixpoint lookup (k : string) (fields : list (string * JsValue)) : JsValue :=
  match fields with
  | [] => JUndefined
  | (k', v) :: rest => if String.eqb k k' then v else lookup k rest
  end.

(** The name a value is printed with in V8's "Cannot read properties"
    message. *)
Definition nullish_name (v : JsValue) : string :=
  match v with
  | JNull => "null"
  | _ => "undefined"
  end.

Definition cannot_read (v : JsValue) (k : string) : JsValue :=
  JError "TypeError"
    ("Cannot read properties of " +++ nullish_name v
       +++ " (reading '" +++ k +++ "')").

(** [o.k] : reading a property of [undefined] or [null] throws a
    TypeError; a missing property reads as [undefined].  Methods are not
    values here: [xs.map] is modelled where it is called. *)
Definition get (o : JsValue) (k : string) : Result JsValue :=
  match o with
  | JUndefined | JNull => Threw (cannot_read o k)
  | JObj fields => Ok (lookup k fields)
  | JArr xs =>
      if String.eqb k "length" then Ok (JNum (Z.of_nat (List.length xs)))
      else Ok JUndefined
  | JStr s =>
      if String.eqb k "length" then Ok (JNum (Z.of_nat (String.length s)))
      else Ok JUndefined
  | JError name message =>
      if String.eqb k "message" then Ok (JStr message)
      else if String.eqb k "name" then Ok (JStr name)
      else Ok JUndefined
  | JBool _ | JNum _ => Ok JUndefined
  end.

(** [o?.k] *)
Definition get_opt (o : JsValue) (k : string) : Result JsValue :=
  if is_nullish o then Ok JUndefined else get o k.

(** Decimal digits of a non-negative number. *)
Fixpoint digits (fuel : nat) (n : N) (acc : string) : string :=
  match fuel with
  | O => acc
  | S fuel' =>
      let d := String (ascii_of_N (48 + N.modulo n 10)) acc in
      if (n <? 10)%N then d else digits fuel' (N.div n 10) d
  end.

Definition show_Z (n : Z) : string :=
  match n with
  | Z0 => "0"
  | Zpos p => digits (S (N.to_nat (N.log2 (Npos p)))) (Npos p) EmptyString
  | Zneg p => "-" +++ digits (S (N.to_nat (N.log2 (Npos p)))) (Npos p) EmptyString
  end.

(** ** Numbers as text *)

(** [JNum n] is the Number that the integer literal [n] denotes: the
    nearest double, ties to the even significand; [None] is Infinity. *)
Definition nearest_double (n : Z) : option Z :=
  let e := Z.log2 n in
  if (e <? 53)%Z then Some n
  else
    let shift := (e - 52)%Z in
    let q := Z.shiftr n shift in
    let r := (n - Z.shiftl q shift)%Z in
    let half := Z.shiftl 1 (shift - 1) in
    let q' := if ((half <? r) || ((r =? half) && Z.odd q))%Z
              then (q + 1)%Z else q in
    let x := Z.shiftl q' shift in
    if (2 ^ 1024 <=? x)%Z then None else Some x.

Definition decimal_length (x : Z) : Z := Z.of_nat (String.length (show_Z x)).

Definition is_double (x : Z) (v : Z) : bool :=
  match nearest_double v with
  | Some y => (y =? x)%Z
  | None => false
  end.

(** Number::toString, step 5: the decimal [s * 10 ^ j] with the fewest
    digits [s] whose Number value is [x]; among those the closest to
    [x], and the even [s] on a tie.  The search starts with one digit
    ([j] digits dropped) and keeps one digit more each round. *)
Fixpoint shortest (fuel : nat) (x : Z) (j : Z) : Z * Z :=
  match fuel with
  | O => (x, 0%Z)
  | S fuel' =>
      if (j <=? 0)%Z then (x, 0%Z)
      else
        let unit := (10 ^ j)%Z in
        let lo := (x / unit)%Z in
        let below := (lo * unit)%Z in
        let above := (below + unit)%Z in
        match is_double x below, is_double x above with
        | true, false => (lo, j)
        | false, true => ((lo + 1)%Z, j)
        | true, true =>
            if (x - below <? above - x)%Z then (lo, j)
            else if (above - x <? x - below)%Z then ((lo + 1)%Z, j)
            else if Z.even lo then (lo, j) else ((lo + 1)%Z, j)
        | false, false => shortest fuel' x (j - 1)%Z
        end
  end.

(** Trailing zeros of [s] belong to the exponent. *)
Fixpoint normalise (fuel : nat) (s j : Z) : Z * Z :=
  match fuel with
  | O => (s, j)
  | S fuel' =>
      if ((s mod 10 =? 0) && negb (s =? 0))%Z
      then normalise fuel' (s / 10)%Z (j + 1)%Z
      else (s, j)
  end.

Fixpoint zeros (n : nat) : string :=
  match n with
  | O => EmptyString
  | S n' => String "0" (zeros n')
  end.

(** Number::toString of a positive integer-valued Number: the digits in
    full below 2^53, the shortest digits padded with zeros up to 21
    digits, the exponent form beyond. *)
Definition positive_to_string (x : Z) : string :=
  if (Z.log2 x <? 53)%Z then show_Z x
  else
    let len := decimal_length x in
    let (s0, j0) := shortest (Z.to_nat len) x (len - 1)%Z in
    let (s, j) := normalise (Z.to_nat len) s0 j0 in
    let k := decimal_length s in
    let n := (k + j)%Z in
    if (n <=? 21)%Z then show_Z s +++ zeros (Z.to_nat j)
    else
      match show_Z s with
      | String d EmptyString => String d ("e+" +++ show_Z (n - 1))
      | String d rest => String d ("." +++ rest +++ "e+" +++ show_Z (n - 1))
      | EmptyString => EmptyString
      end.

Definition number_to_string (n : Z) : string :=
  match n with
  | Z0 => "0"
  | Zpos _ =>
      match nearest_double n with
      | Some x => positive_to_string x
      | None => "Infinity"
      end
  | Zneg p =>
      match nearest_double (Zpos p) with
      | Some x => "-" +++ positive_to_string x
      | None => "-Infinity"
      end
  end.

(** ToString, as a template literal applies it.  An object is printed
    by [Object.prototype.toString]: data with a key [toString] of its
    own is outside the values modelled. *)
Fixpoint to_string (v : JsValue) : string :=
  match v with
  | JUndefined => "undefined"
  | JNull => "null"
  | JBool true => "true"
  | JBool false => "false"
  | JNum n => number_to_string n
  | JStr s => s
  | JArr xs =>
      (fix join (l : list JsValue) : string :=
         match l with
         | [] => EmptyString
         | [x] => if is_nullish x then EmptyString else to_string x
         | x :: rest =>
             (if is_nullish x then EmptyString else to_string x) +++ "," +++ join rest
         end) xs
  | JObj _ => "[object Object]"
  | JError name message =>
      if String.eqb message EmptyString then name
      else if String.eqb name EmptyString then message
      else name +++ ": " +++ message
  end.

(** ** Text as a number *)

Definition bytes (l : list nat) : string :=
  string_of_list_ascii (map ascii_of_nat l).

(** StrWhiteSpaceChar (WhiteSpace and LineTerminator), in UTF-8. *)
Definition white_space : list string :=
  map bytes
    [[9]; [10]; [11]; [12]; [13]; [32]; [194; 160]; [225; 154; 128];
     [226; 128; 128]; [226; 128; 129]; [226; 128; 130]; [226; 128; 131];
     [226; 128; 132]; [226; 128; 133]; [226; 128; 134]; [226; 128; 135];
     [226; 128; 136]; [226; 128; 137]; [226; 128; 138];
     [226; 128; 168]; [226; 128; 169]; [226; 128; 175]; [226; 129; 159];
     [227; 128; 128]; [239; 187; 191]].

Fixpoint after (p s : string) : option string :=
  match p with
  | EmptyString => Some s
  | String c p' =>
      match s with
      | String d s' => if Ascii.eqb c d then after p' s' else None
      | EmptyString => None
      end
  end.

Fixpoint after_any (ps : list string) (s : string) : option string :=
  match ps with
  | [] => None
  | p :: rest =>
      match after p s with
      | Some r => Some r
      | None => after_any rest s
      end
  end.

Fixpoint skip (fuel : nat) (ps : list string) (s : string) : string :=
  match fuel with
  | O => s
  | S fuel' =>
      match after_any ps s with
      | Some r => skip fuel' ps r
      | None => s
      end
  end.

Definition reverse (s : string) : string :=
  string_of_list_ascii (rev (list_ascii_of_string s)).

Definition trim_white_space (s : string) : string :=
  let t := skip (String.length s) white_space s in
  reverse (skip (String.length t) (map reverse white_space) (reverse t)).

Definition digit_of (base : Z) (c : ascii) : option Z :=
  let n := Z.of_nat (nat_of_ascii c) in
  let d := if ((48 <=? n) && (n <=? 57))%Z then (n - 48)%Z
           else if ((97 <=? n) && (n <=? 102))%Z then (n - 87)%Z
           else if ((65 <=? n) && (n <=? 70))%Z then (n - 55)%Z
           else 16%Z in
  if (d <? base)%Z then Some d else None.

(** The value of a run of digits that reaches the end of the text. *)
Fixpoint digits_value (base : Z) (acc : Z) (s : string) : option Z :=
  match s with
  | EmptyString => Some acc
  | String c rest =>
      match digit_of base c with
      | Some d => digits_value base (acc * base + d)%Z rest
      | None => None
      end
  end.

Definition nonempty (s : string) : bool :=
  match s with
  | EmptyString => false
  | _ => true
  end.

(** NonDecimalIntegerLiteral: 0x, 0o and 0b with digits; no sign. *)
Definition radix_literal (t : string) : option Z :=
  match t with
  | String "0" (String c ds) =>
      let base :=
        if Ascii.eqb c "x" || Ascii.eqb c "X" then Some 16%Z
        else if Ascii.eqb c "o" || Ascii.eqb c "O" then Some 8%Z
        else if Ascii.eqb c "b" || Ascii.eqb c "B" then Some 2%Z
        else None in
      match base with
      | Some b => if nonempty ds then digits_value b 0 ds else None
      | None => None
      end
  | _ => None
  end.

Fixpoint decimal_digits (s : string) : string * string :=
  match s with
  | EmptyString => (EmptyString, EmptyString)
  | String c rest =>
      match digit_of 10 c with
      | Some _ => let (ds, r) := decimal_digits rest in (String c ds, r)
      | None => (EmptyString, s)
      end
  end.

(** ExponentPart, up to the end of the text; none is the exponent 0. *)
Definition exponent_part (s : string) : option Z :=
  match s with
  | EmptyString => Some 0%Z
  | String c rest =>
      if Ascii.eqb c "e" || Ascii.eqb c "E" then
        match rest with
        | String "+" ds => if nonempty ds then digits_value 10 0 ds else None
        | String "-" ds =>
            if nonempty ds then option_map Z.opp (digits_value 10 0 ds) else None
        | ds => if nonempty ds then digits_value 10 0 ds else None
        end
      else None
  end.

(** Whether the Number value of [m * 10 ^ e] is above zero: it is
    unless the value rounds to zero, which it does up to 2 ^ -1075. *)
Definition rounds_above_zero (m e : Z) : bool :=
  if (m <=? 0)%Z then false
  else if (0 <=? e)%Z then true
  else (10 ^ (- e) <? m * 2 ^ 1075)%Z.

(** StrUnsignedDecimalLiteral: Infinity, or digits with an optional
    fraction and exponent. *)
Definition unsigned_decimal_above_zero (u : string) : bool :=
  if String.eqb u "Infinity" then true
  else
    let (int, r1) := decimal_digits u in
    let '(frac, r2) :=
      match r1 with
      | String "." r => decimal_digits r
      | _ => (EmptyString, r1)
      end in
    if nonempty int || nonempty frac then
      match digits_value 10 0 (int +++ frac), exponent_part r2 with
      | Some m, Some e =>
          rounds_above_zero m (e - Z.of_nat (String.length frac))
      | _, _ => false
      end
    else false.

(** [Number(s) > 0]: StringToNumber, where a text that is no
    StringNumericLiteral is NaN and the empty text is 0. *)
Definition string_gt_zero (s : string) : bool :=
  let t := trim_white_space s in
  match radix_literal t with
  | Some n => (0 <? n)%Z
  | None =>
      match t with
      | String "-" _ => false
      | String "+" u => unsigned_decimal_above_zero u
      | _ => unsigned_decimal_above_zero t
      end
  end.

(** [x > 0]: the operand is converted to a primitive (an array or an
    object through its text, as [to_string] gives it) and then to a
    number; NaN compares false. *)
Definition gt_zero (v : JsValue) : bool :=
  match v with
  | JNum n => (0 <? n)%Z
  | JBool b => b
  | JUndefined | JNull => false
  | JStr s => string_gt_zero s
  | JArr _ | JObj _ | JError _ _ => string_gt_zero (to_string v)
  end.

(** [new Error(message)] *)
Definition new_Error (message : string) : JsValue := JError "Error" message.

End Js.

(* ===================================================================== *)
(** * services/api.js                                                     *)
(* ===================================================================== *)

Module Api.
Import Js.

Section ApiService.

(** [api.post(url, data)]: the axios instance.  The promise it returns
    is either fulfilled with a response or rejected with a reason. *)
Variable post : string -> JsValue -> Result JsValue.

(** submitSchema: async (schemaData) => { try { ... } catch (error) { ... } } *)
Definition submitSchema (schemaData : JsValue) : Result JsValue :=
  try_catch
    (response <- post "/submit-schema" schemaData ;;
     get response "data")
    (fun error =>
       message <- get error "message" ;;
       Threw (new_Error ("Failed to submit schema: " +++ to_string message))).

(** generateSQL: async (queryData) => { try { ... } catch (error) { ... } } *)
Definition generateSQL (queryData : JsValue) : Result JsValue :=
  try_catch
    (response <- post "/generate-sql" queryData ;;
     get response "data")
    (fun error =>
       message <- get error "message" ;;
       Threw (new_Error ("Failed to generate SQL: " +++ to_string message))).

End ApiService.

(** What axios settles a request with: a response object on success, an
    error object (an [AxiosError]) on failure; never [null] or [undefined]. *)
Definition axios_settles (r : Result JsValue) : Prop :=
  match r with
  | Ok response => is_nullish response = false
  | Threw reason => is_nullish reason = false
  end.

(** The call fails with [new Error(prefix + detail)]. *)
Definition throws_with_prefix (prefix : string) (r : Result JsValue) : Prop :=
  exists detail, r = Threw (new_Error (prefix +++ detail)).

End Api.

(* ===================================================================== *)
(** * components/OutputDisplay.jsx                                        *)
(* ===================================================================== *)

(** Rendering reads fields of [responseData]; the reads are logged so
    that what a render dereferences is part of its result. *)
Module Traced.
Import Js.

Record Traced (A : Type) : Type := MkTraced
  { reads : list string;        (* fields of responseData read, in order *)
    outcome : Result A }.
Arguments MkTraced {A} reads outcome.
Arguments reads {A} t.
Arguments outcome {A} t.

Definition ret {A} (a : A) : Traced A := MkTraced [] (Ok a).

Definition lift {A} (r : Result A) : Traced A := MkTraced [] r.

Definition bind {A B} (m : Traced A) (k : A -> Traced B) : Traced B :=
  match outcome m with
  | Ok a => MkTraced (reads m ++ reads (k a)) (outcome (k a))
  | Threw e => MkTraced (reads m) (Threw e)
  end.

(** [responseData.k] *)
Definition read (responseData : JsValue) (k : string) : Traced JsValue :=
  MkTraced [k] (get responseData k).

End Traced.

Notation "x <~ m ;; k" := (Traced.bind m (fun x => k))
  (at level 61, m at next level, right associativity).

Module OutputDisplayJsx.
Import Js Traced.

(** [activeTab] only ever holds one of the three literals the buttons
    pass to [setActiveTab]. *)
Inductive Tab : Type := TabSql | TabExplanation | TabValidation.

(** One of the three cards of the validation tab. *)
Record StagePanel : Type := MkStagePanel
  { passed : bool;                   (* green card and check mark *)
    error_items : list JsValue }.    (* the <li> children *)

Inductive TabContent : Type :=
| SqlPane (formattedSql : JsValue)
| ExplanationPane (trc description query sql : JsValue)
| ValidationPane (syntactic semantic logical : StagePanel)
                 (overall_passed : bool).

(** The element tree the component returns, reduced to the slots that
    depend on data. *)
Inductive View : Type :=
| NoResults (query_page_state : JsValue)
| Results (original_query : JsValue) (content : TabContent)
          (new_query_state : JsValue).

(** [xs.map((err, i) => <li key={i}>{err}</li>)], where [callee] is
    the expression [xs] as the source writes it: the engine names it
    when [map] is no function. *)
Definition map_items (callee : string) (xs : JsValue) : Result (list JsValue) :=
  match xs with
  | JArr items => Ok items
  | JUndefined | JNull => Threw (cannot_read xs "map")
  | _ => Threw (JError "TypeError" (callee +++ ".map is not a function"))
  end.

Section Component.

(** [format(query, { language: 'postgresql' })] of sql-formatter. *)
Variable format : JsValue -> Result JsValue.

(** [location.state] and the [activeTab] state. *)
Variable state : JsValue.
Variable activeTab : Tab.

Section Body.
Variable responseData : JsValue.

(** [responseData.validation_status.<stage>?.valid] *)
Definition stage_valid (stage : string) : Traced JsValue :=
  vs <~ read responseData "validation_status" ;;
  st <~ lift (get vs stage) ;;
  lift (get_opt st "valid").

(** [responseData.validation_status.<stage>?.errors?.length] *)
Definition stage_errors_length (stage : string) : Traced JsValue :=
  vs <~ read responseData "validation_status" ;;
  st <~ lift (get vs stage) ;;
  er <~ lift (get_opt st "errors") ;;
  lift (get_opt er "length").

(** [responseData.validation_status.<stage>.errors.map(...)] *)
Definition stage_error_items (stage : string) : Traced (list JsValue) :=
  vs <~ read responseData "validation_status" ;;
  st <~ lift (get vs stage) ;;
  er <~ lift (get st "errors") ;;
  lift (map_items ("responseData.validation_status." +++ stage +++ ".errors") er).

Definition stage_panel (stage : string) : Traced StagePanel :=
  v1 <~ stage_valid stage ;;
  v2 <~ stage_valid stage ;;
  len <~ stage_errors_length stage ;;
  items <~ (if gt_zero len then stage_error_items stage else ret []) ;;
  ret (MkStagePanel (truthy v1 && truthy v2) items).

Definition trc_field (k : string) : Traced JsValue :=
  te <~ read responseData "trc_explanation" ;;
  lift (get te k).

Definition overall_valid : Traced JsValue :=
  vs <~ read responseData "validation_status" ;;
  lift (get vs "overall_valid").

Definition tab_content (formattedSql : JsValue) : Traced TabContent :=
  match activeTab with
  | TabSql => ret (SqlPane formattedSql)
  | TabExplanation =>
      trc <~ trc_field "trc" ;;
      description <~ trc_field "description" ;;
      query <~ trc_field "query" ;;
      sql <~ trc_field "sql" ;;
      ret (ExplanationPane trc description query sql)
  | TabValidation =>
      syntactic <~ stage_panel "syntactic" ;;
      semantic <~ stage_panel "semantic" ;;
      logical <~ stage_panel "logical" ;;
      o1 <~ overall_valid ;;
      o2 <~ overall_valid ;;
      ret (ValidationPane syntactic semantic logical
             (truthy o1 && truthy o2))
  end.

End Body.

Definition OutputDisplay : Traced View :=
  responseData <~ lift (get_opt state "response") ;;
  databaseId <~ lift (get_opt state "database_id") ;;
  if negb (truthy responseData)
  then ret (NoResults (JObj [("database_id", databaseId)]))
  else
    sq <~ read responseData "sql_query" ;;
    formattedSql <~
      (if truthy sq
       then sq' <~ read responseData "sql_query" ;; lift (format sq')
       else ret (JStr EmptyString)) ;;
    original_query <~ read responseData "original_query" ;;
    content <~ tab_content responseData formattedSql ;;
    ret (Results original_query content
           (JObj [("database_id", databaseId)])).

End Component.

End OutputDisplayJsx.

(** The earlier revision of the component (the one without sql-formatter):
    the explanation is shown as a whole and the validation status is
    dumped with [JSON.stringify]. *)
Module OutputDisplayPlain.
Import Js Traced.

Inductive Tab : Type := TabSql | TabExplanation | TabValidation.

Inductive TabContent : Type :=
| SqlPane (sql_query : JsValue)
| ExplanationPane (trc_explanation : JsValue)
| ValidationPane (stringified : JsValue)        (* argument of JSON.stringify(_, null, 2) *)
                 (error_items : list JsValue).

Inductive View : Type :=
| NoResults
| Results (original_query : JsValue) (content : TabContent).

Section Component.

Variable state : JsValue.
Variable activeTab : Tab.

Definition tab_content (responseData : JsValue) : Traced TabContent :=
  match activeTab with
  | TabSql =>
      sql_query <~ read responseData "sql_query" ;;
      ret (SqlPane sql_query)
  | TabExplanation =>
      trc_explanation <~ read responseData "trc_explanation" ;;
      ret (ExplanationPane trc_explanation)
  | TabValidation =>
      validation_status <~ read responseData "validation_status" ;;
      errors <~ read responseData "errors" ;;
      len <~ lift (get_opt errors "length") ;;
      items <~ (if gt_zero len
                then errors' <~ read responseData "errors" ;;
                     lift (OutputDisplayJsx.map_items "responseData.errors" errors')
                else ret []) ;;
      ret (ValidationPane validation_status items)
  end.

Definition OutputDisplay : Traced View :=
  responseData <~ lift (get_opt state "response") ;;
  if negb (truthy responseData)
  then ret NoResults
  else
    original_query <~ read responseData "original_query" ;;
    content <~ tab_content responseData ;;
    ret (Results original_query content).

End Component.

End OutputDisplayPlain.

(* ===================================================================== *)
(** * components/QueryInput.jsx                                           *)
(* ===================================================================== *)

Module QueryInput.
Import Js.

(** The textarea's value, as UTF-16 code units. *)
Definition JsString : Type := list N.

(** WhiteSpace and LineTerminator code points, the ones
    [String.prototype.trim] strips. *)
Definition is_white_space (c : N) : bool :=
  ((c =? 9) || (c =? 10) || (c =? 11) || (c =? 12) || (c =? 13)
   || (c =? 32) || (c =? 160) || (c =? 5760)
   || ((8192 <=? c) && (c <=? 8202))
   || (c =? 8232) || (c =? 8233) || (c =? 8239) || (c =? 8287)
   || (c =? 12288) || (c =? 65279))%N.

Fixpoint trimStart (s : JsString) : JsString :=
  match s with
  | [] => []
  | c :: rest => if is_white_space c then trimStart rest else s
  end.

Definition trimEnd (s : JsString) : JsString := rev (trimStart (rev s)).

Definition trim (s : JsString) : JsString := trimEnd (trimStart s).

(** ToBoolean of a string. *)
Definition truthy_string (s : JsString) : bool :=
  match s with
  | [] => false
  | _ => true
  end.

(** What [response.json()] settles with, and the [ok] flag. *)
Record Response : Type := MkResponse
  { ok : bool;
    json : Result JsValue }.

(** Everything the handler does to the outside. *)
Inductive Event : Type :=
| SetIsGenerating (b : bool)
| Alert (message : string)
| ConsoleLog (databaseId : JsValue) (query : JsString)
| ConsoleError (message : string)
| Fetch (url : string) (method : string)
        (database_id : JsValue) (user_query : JsString)
| Navigate (path : string) (response : JsValue) (database_id : JsValue).

(** How a block ends. *)
Inductive Completion (A : Type) : Type :=
| Normal (a : A)
| Returned
| Thrown (e : JsValue).
Arguments Normal {A} a.
Arguments Returned {A}.
Arguments Thrown {A} e.

(** A block: the events it caused, in order, and how it ended. *)
Definition Eff (A : Type) : Type := (list Event * Completion A)%type.

Definition pure {A} (a : A) : Eff A := ([], Normal a).

Definition emit (ev : Event) : Eff unit := ([ev], Normal tt).

Definition return_ {A} : Eff A := ([], Returned).

Definition seq {A B} (m : Eff A) (k : A -> Eff B) : Eff B :=
  match m with
  | (t, Normal a) => let (t', c) := k a in (t ++ t', c)
  | (t, Returned) => (t, Returned)
  | (t, Thrown e) => (t, Thrown e)
  end.

Notation "x <-- m ;; k" := (seq m (fun x => k))
  (at level 61, m at next level, right associativity).
Notation "m ;;; k" := (seq m (fun _ => k))
  (at level 61, right associativity).

(** [await p] for a settled promise. *)
Definition await {A} (p : Result A) : Eff A :=
  match p with
  | Ok a => ([], Normal a)
  | Threw e => ([], Thrown e)
  end.

(** [try { body } catch (error) { handler } finally { fin }]:
    the handler runs when the body throws; [fin] runs however the rest
    ended, and the statement ends the way the rest did unless [fin]
    itself ends abruptly. *)
Definition try_catch_finally
  (body : Eff unit) (handler : JsValue -> Eff unit) (fin : Eff unit)
  : Eff unit :=
  let '(t1, c1) :=
    match body with
    | (t, Thrown e) => let (t', c) := handler e in (t ++ t', c)
    | other => other
    end in
  match fin with
  | (t2, Normal _) => (t1 ++ t2, c1)
  | (t2, abrupt) => (t1 ++ t2, abrupt)
  end.

Section Handler.

(** Component state captured by the handler. *)
Variable query : JsString.
Variable databaseId : JsValue.

(** [fetch(url, init)]: what the request settles with. *)
Variable fetch : string -> JsValue -> JsString -> Result Response.

Definition generate_sql_url : string :=
  "http://localhost:8000/api/generate-sql".

Definition handleGenerateSQL : Eff unit :=
  if negb (truthy_string (trim query)) then return_
  else
    emit (SetIsGenerating true) ;;;
    try_catch_finally
      ((if negb (truthy databaseId)
        then emit (Alert "No Database ID found. Please upload a schema first.") ;;;
             return_
        else pure tt) ;;;
       emit (ConsoleLog databaseId query) ;;;
       emit (Fetch generate_sql_url "POST" databaseId query) ;;;
       response <-- await (fetch generate_sql_url databaseId query) ;;
       if ok response
       then
         data <-- await (json response) ;;
         emit (Navigate "/results" data databaseId)
       else emit (ConsoleError "Failed to generate SQL"))
      (fun error => emit (ConsoleError "Error generating SQL:"))
      (emit (SetIsGenerating false)).

End Handler.

(** The value of [isGenerating] after the events, from its value before. *)
Fixpoint isGenerating_after (before : bool) (t : list Event) : bool :=
  match t with
  | [] => before
  | SetIsGenerating b :: rest => isGenerating_after b rest
  | _ :: rest => isGenerating_after before rest
  end.

Definition is_request (ev : Event) : bool :=
  match ev with
  | Fetch _ _ _ _ => true
  | _ => false
  end.

Definition is_navigation (ev : Event) : bool :=
  match ev with
  | Navigate _ _ _ => true
  | _ => false
  end.

Definition starts_generating (t : list Event) : bool :=
  existsb (fun ev => match ev with SetIsGenerating true => true | _ => false end) t.

End QueryInput.

(* ===================================================================== *)
(** * Scanning text                                                       *)
(* ===================================================================== *)

Module Text.

Fixpoint strip_prefix (p s : string) : option string :=
  match p with
  | EmptyString => Some s
  | String c p' =>
      match s with
      | String d s' => if Ascii.eqb c d then strip_prefix p' s' else None
      | EmptyString => None
      end
  end.

Definition is_digit (c : ascii) : bool :=
  let n := nat_of_ascii c in ((48 <=? n) && (n <=? 57))%nat.

Definition is_ident_start (c : ascii) : bool :=
  let n := nat_of_ascii c in
  (((65 <=? n) && (n <=? 90)) || ((97 <=? n) && (n <=? 122)) || (n =? 95))%nat.

Definition is_ident_char (c : ascii) : bool :=
  is_ident_start c || is_digit c.

Definition is_number_char (c : ascii) : bool :=
  is_digit c || Ascii.eqb c ".".

Definition is_quote (c : ascii) : bool := Ascii.eqb c "'".

(** The longest prefix whose characters satisfy [p], and what follows. *)
Fixpoint span (p : ascii -> bool) (s : string) : string * string :=
  match s with
  | EmptyString => (EmptyString, EmptyString)
  | String c s' =>
      if p c then let (a, b) := span p s' in (String c a, b)
      else (EmptyString, s)
  end.

Fixpoint all_chars (p : ascii -> bool) (s : string) : bool :=
  match s with
  | EmptyString => true
  | String c s' => p c && all_chars p s'
  end.

Definition is_space (c : ascii) : bool :=
  let n := nat_of_ascii c in
  ((n =? 32) || (n =? 9) || (n =? 10) || (n =? 13))%nat.

Definition upper_char (c : ascii) : ascii :=
  let n := nat_of_ascii c in
  if ((97 <=? n) && (n <=? 122))%nat then ascii_of_nat (n - 32) else c.

Fixpoint upper (s : string) : string :=
  match s with
  | EmptyString => EmptyString
  | String c s' => String (upper_char c) (upper s')
  end.

(** Case-insensitive exact match. *)
Definition eq_ci (a b : string) : bool := String.eqb (upper a) (upper b).

Definition show_nat (n : nat) : string := Js.show_Z (Z.of_nat n).

End Text.

(* ===================================================================== *)
(** * The Validation Gauntlet: TRC formulas                               *)
(* ===================================================================== *)

(** The backend modules ([validation_gauntlet.py], [trc_handler.py]) are
    described by the specification only; every definition from here on is
    written from its sections 3 to 7. *)

Module Trc.
Import Text.

Inductive CmpOp : Type := OpEq | OpLt | OpGt | OpLe | OpGe | OpNe.

Inductive Value : Type :=
| VNumber (text : string)
| VString (s : string)
| VBool (b : bool).

Inductive Operand : Type :=
| OValue (v : Value)
| OAttr (var attr : string).

(** Modelled from the spec: the TRC formula type of [trc_handler.py],
    which is not among the sources; section 3, a closed tagged variant. *)
Inductive Formula : Type :=
| RelationAtom (var tableName : string)
| AttrComparison (var attr : string) (op : CmpOp) (valueOrAttr2 : Operand)
| And (l r : Formula)
| Or (l r : Formula)
| Not (f : Formula)
| Exists (var : string) (body : Formula)
| ForAll (var : string) (body : Formula).

(** Modelled from the spec: the query record of [trc_handler.py], which
    is not among the sources; section 3: a formula with its head, the
    output tuple variable and the projection list read off the row
    variables. *)
Record Query : Type := MkQuery
  { out_var : string;
    projection : list (string * string);     (* (variable, attribute) *)
    body : Formula }.

(** The head as it is written in set-builder notation: the output
    variable alone when every projected attribute is read off it, the
    explicit tuple of attributes when the projections span several
    variables. *)
Inductive Head : Type :=
| HVar (v : string)
| HTuple (attrs : list (string * string)).

Definition head_of (q : Query) : Head :=
  if forallb (fun p => String.eqb (fst p) (out_var q)) (projection q)
  then HVar (out_var q)
  else HTuple (projection q).

Definition head_vars (h : Head) : list string :=
  match h with
  | HVar v => [v]
  | HTuple attrs => map fst attrs
  end.

(** ** TRC to readable *)

Definition op_text (op : CmpOp) : string :=
  match op with
  | OpEq => "="
  | OpLt => "<"
  | OpGt => ">"
  | OpLe => "<="
  | OpGe => ">="
  | OpNe => "<>"
  end.

Definition value_text (v : Value) : string :=
  match v with
  | VNumber text => text
  | VString s => "'" +++ s +++ "'"
  | VBool true => "TRUE"
  | VBool false => "FALSE"
  end.

Definition operand_text (o : Operand) : string :=
  match o with
  | OValue v => value_text v
  | OAttr var attr => var +++ "." +++ attr
  end.

Definition group (s : string) : string := "(" +++ s +++ ")".

Definition is_binary (f : Formula) : bool :=
  match f with
  | And _ _ | Or _ _ => true
  | _ => false
  end.

(** A right operand is bracketed when it is itself a conjunction or a
    disjunction; a left operand only when it is the other connective, so
    that a left-nested chain prints flat. *)
Definition wrap_right (f : Formula) (s : string) : string :=
  if is_binary f then group s else s.

Definition wrap_left_and (f : Formula) (s : string) : string :=
  match f with
  | Or _ _ => group s
  | _ => s
  end.

Definition wrap_left_or (f : Formula) (s : string) : string :=
  match f with
  | And _ _ => group s
  | _ => s
  end.

(** Modelled from the spec: the symbolic rendering of [trc_handler.py],
    which is not among the sources; the canonical symbolic string of
    section 4.4, TRC to readable, part (a).  The universal quantifier,
    which the section does not list, is written with the usual sign. *)
Fixpoint symbolic (f : Formula) : string :=
  match f with
  | RelationAtom var tableName => var +++ "∈" +++ tableName
  | AttrComparison var attr op o =>
      var +++ "." +++ attr +++ " " +++ op_text op +++ " " +++ operand_text o
  | And l r =>
      wrap_left_and l (symbolic l) +++ " ∧ " +++ wrap_right r (symbolic r)
  | Or l r =>
      wrap_left_or l (symbolic l) +++ " ∨ " +++ wrap_right r (symbolic r)
  | Not g => "¬" +++ group (symbolic g)
  | Exists var b => "∃" +++ var +++ " " +++ group (symbolic b)
  | ForAll var b => "∀" +++ var +++ " " +++ group (symbolic b)
  end.

(** Modelled from the spec: the gloss of [trc_handler.py], which is not
    among the sources; the compositional natural-language gloss of
    section 4.4, TRC to readable, part (b). *)
Fixpoint gloss (f : Formula) : string :=
  match f with
  | RelationAtom var tableName => var +++ " is a row of " +++ tableName
  | AttrComparison var attr op o =>
      var +++ "." +++ attr +++ " " +++ op_text op +++ " " +++ operand_text o
  | And l r => gloss l +++ " and " +++ gloss r
  | Or l r => gloss l +++ " or " +++ gloss r
  | Not g => "not " +++ gloss g
  | Exists var b => "there exists a row " +++ var +++ " such that " +++ gloss b
  | ForAll var b => "for every row " +++ var +++ ", " +++ gloss b
  end.

Fixpoint attrs_text (attrs : list (string * string)) : string :=
  match attrs with
  | [] => EmptyString
  | [(v, a)] => v +++ "." +++ a
  | (v, a) :: rest => v +++ "." +++ a +++ ", " +++ attrs_text rest
  end.

Definition head_text (h : Head) : string :=
  match h with
  | HVar v => v
  | HTuple attrs => attrs_text attrs
  end.

Definition query_text (q : Query) : string :=
  "{" +++ head_text (head_of q) +++ " | " +++ symbolic (body q) +++ "}".

Definition query_gloss (q : Query) : string :=
  match projection q with
  | [] => "every row " +++ out_var q
  | attrs => attrs_text attrs +++ " of the rows"
  end +++ " such that " +++ gloss (body q).

(** The [trc] member of the report. *)
Record Readable : Type := MkReadable
  { formula_text : string;
    natural_language : string }.

(** Modelled from the spec: the TRC-to-readable direction of
    [trc_handler.py], which is not among the sources; section 4.4: a
    plain function from formulas to the two renderings. *)
Definition TRC_to_readable (q : Query) : Readable :=
  MkReadable (query_text q) (query_gloss q).

(** ** Reading the symbolic string back *)

Definition read_ident (s : string) : option (string * string) :=
  match s with
  | String c _ => if is_ident_start c then Some (span is_ident_char s) else None
  | EmptyString => None
  end.

Definition read_op (s : string) : option (CmpOp * string) :=
  match strip_prefix "<=" s with
  | Some r => Some (OpLe, r)
  | None =>
  match strip_prefix ">=" s with
  | Some r => Some (OpGe, r)
  | None =>
  match strip_prefix "<>" s with
  | Some r => Some (OpNe, r)
  | None =>
  match strip_prefix "=" s with
  | Some r => Some (OpEq, r)
  | None =>
  match strip_prefix "<" s with
  | Some r => Some (OpLt, r)
  | None =>
  match strip_prefix ">" s with
  | Some r => Some (OpGt, r)
  | None => None
  end end end end end end.

Definition read_operand (s : string) : option (Operand * string) :=
  match s with
  | EmptyString => None
  | String c s' =>
      if is_quote c then
        let (lit, r) := span (fun d => negb (is_quote d)) s' in
        match strip_prefix "'" r with
        | Some r' => Some (OValue (VString lit), r')
        | None => None
        end
      else if is_digit c then
        let (num, r) := span is_number_char s in
        Some (OValue (VNumber num), r)
      else
        match read_ident s with
        | None => None
        | Some (w, r) =>
            match strip_prefix "." r with
            | Some r1 =>
                match read_ident r1 with
                | Some (a, r2) => Some (OAttr w a, r2)
                | None => None
                end
            | None =>
                if String.eqb w "TRUE" then Some (OValue (VBool true), r)
                else if String.eqb w "FALSE" then Some (OValue (VBool false), r)
                else None
            end
        end
  end.

(** [v∈T] or [v.a OP operand] *)
Definition read_atom (s : string) : option (Formula * string) :=
  match read_ident s with
  | None => None
  | Some (v, r) =>
      match strip_prefix "∈" r with
      | Some r1 =>
          match read_ident r1 with
          | Some (t, r2) => Some (RelationAtom v t, r2)
          | None => None
          end
      | None =>
          match strip_prefix "." r with
          | None => None
          | Some r1 =>
              match read_ident r1 with
              | None => None
              | Some (a, r2) =>
                  match strip_prefix " " r2 with
                  | None => None
                  | Some r3 =>
                      match read_op r3 with
                      | None => None
                      | Some (op, r4) =>
                          match strip_prefix " " r4 with
                          | None => None
                          | Some r5 =>
                              match read_operand r5 with
                              | Some (o, r6) =>
                                  Some (AttrComparison v a op o, r6)
                              | None => None
                              end
                          end
                      end
                  end
              end
          end
      end
  end.

(** The connective of the chain being read. *)
Inductive Chain : Type := NoChain | AndChain | OrChain.

Definition root (f : Formula) : Chain :=
  match f with
  | And _ _ => AndChain
  | Or _ _ => OrChain
  | _ => NoChain
  end.

Definition continues_and (c : Chain) : bool :=
  match c with OrChain => false | _ => true end.

Definition continues_or (c : Chain) : bool :=
  match c with AndChain => false | _ => true end.

(** Recursive descent.  [read_term] reads one operand, [read_formula] an
    operand and the chain after it, [read_chain] the rest of a chain
    whose left part is [acc]. *)
Fixpoint read_term (fuel : nat) (s : string) : option (Formula * string) :=
  match fuel with
  | O => None
  | S fuel' =>
      match strip_prefix "(" s with
      | Some s1 =>
          match read_formula fuel' s1 with
          | Some (f, s2) =>
              match strip_prefix ")" s2 with
              | Some s3 => Some (f, s3)
              | None => None
              end
          | None => None
          end
      | None =>
      match strip_prefix "¬(" s with
      | Some s1 =>
          match read_formula fuel' s1 with
          | Some (f, s2) =>
              match strip_prefix ")" s2 with
              | Some s3 => Some (Not f, s3)
              | None => None
              end
          | None => None
          end
      | None =>
      match strip_prefix "∃" s with
      | Some s1 => read_binder fuel' Exists s1
      | None =>
      match strip_prefix "∀" s with
      | Some s1 => read_binder fuel' ForAll s1
      | None => read_atom s
      end end end end
  end

with read_binder (fuel : nat) (mk : string -> Formula -> Formula)
       (s : string) : option (Formula * string) :=
  match fuel with
  | O => None
  | S fuel' =>
      match read_ident s with
      | None => None
      | Some (v, s1) =>
          match strip_prefix " (" s1 with
          | None => None
          | Some s2 =>
              match read_formula fuel' s2 with
              | Some (f, s3) =>
                  match strip_prefix ")" s3 with
                  | Some s4 => Some (mk v f, s4)
                  | None => None
                  end
              | None => None
              end
          end
      end
  end

with read_formula (fuel : nat) (s : string) : option (Formula * string) :=
  match fuel with
  | O => None
  | S fuel' =>
      match read_term fuel' s with
      | Some (x, s1) => read_chain fuel' NoChain x s1
      | None => None
      end
  end

with read_chain (fuel : nat) (c : Chain) (acc : Formula) (s : string)
       : option (Formula * string) :=
  match fuel with
  | O => None
  | S fuel' =>
      match strip_prefix " ∧ " s with
      | Some s1 =>
          if continues_and c then
            match read_term fuel' s1 with
            | Some (y, s2) => read_chain fuel' AndChain (And acc y) s2
            | None => None
            end
          else Some (acc, s)
      | None =>
      match strip_prefix " ∨ " s with
      | Some s1 =>
          if continues_or c then
            match read_term fuel' s1 with
            | Some (y, s2) => read_chain fuel' OrChain (Or acc y) s2
            | None => None
            end
          else Some (acc, s)
      | None => Some (acc, s)
      end end
  end.

(** The whole string must be one formula. *)
Definition parse_symbolic (s : string) : option Formula :=
  match read_formula (2 * String.length s + 2) s with
  | Some (f, EmptyString) => Some f
  | _ => None
  end.

(** The head: one variable, or a list of [v.a] separated by commas. *)
Fixpoint read_attrs (fuel : nat) (s : string)
  : option (list (string * string) * string) :=
  match fuel with
  | O => None
  | S fuel' =>
      match read_ident s with
      | None => None
      | Some (v, s1) =>
          match strip_prefix "." s1 with
          | None => None
          | Some s2 =>
              match read_ident s2 with
              | None => None
              | Some (a, s3) =>
                  match strip_prefix ", " s3 with
                  | None => Some ([(v, a)], s3)
                  | Some s4 =>
                      match read_attrs fuel' s4 with
                      | Some (more, s5) => Some ((v, a) :: more, s5)
                      | None => None
                      end
                  end
              end
          end
      end
  end.

Definition read_head (s : string) : option (Head * string) :=
  match read_ident s with
  | None => None
  | Some (v, s1) =>
      match strip_prefix "." s1 with
      | None => Some (HVar v, s1)
      | Some _ =>
          match read_attrs (String.length s) s with
          | Some (attrs, s2) => Some (HTuple attrs, s2)
          | None => None
          end
      end
  end.

(** The whole of [{head | formula}]. *)
Definition parse_readable (s : string) : option (Head * Formula) :=
  match strip_prefix "{" s with
  | None => None
  | Some s1 =>
      match read_head s1 with
      | None => None
      | Some (h, s2) =>
          match strip_prefix " | " s2 with
          | None => None
          | Some s3 =>
              match read_formula (2 * String.length s3 + 2) s3 with
              | Some (f, "}") => Some (h, f)
              | _ => None
              end
          end
      end
  end.

(** Identifiers and literals that the notation can carry. *)
Definition wf_ident (s : string) : bool :=
  match s with
  | EmptyString => false
  | String c s' => is_ident_start c && all_chars is_ident_char s'
  end.

Definition wf_value (v : Value) : bool :=
  match v with
  | VNumber text =>
      match text with
      | EmptyString => false
      | String c s' => is_digit c && all_chars is_number_char s'
      end
  | VString s => all_chars (fun c => negb (is_quote c)) s
  | VBool _ => true
  end.

Definition wf_operand (o : Operand) : bool :=
  match o with
  | OValue v => wf_value v
  | OAttr var attr => wf_ident var && wf_ident attr
  end.

Fixpoint wf_formula (f : Formula) : bool :=
  match f with
  | RelationAtom var tableName => wf_ident var && wf_ident tableName
  | AttrComparison var attr _ o => wf_ident var && wf_ident attr && wf_operand o
  | And l r | Or l r => wf_formula l && wf_formula r
  | Not g => wf_formula g
  | Exists var b | ForAll var b => wf_ident var && wf_formula b
  end.

Definition wf_query (q : Query) : bool :=
  wf_ident (out_var q)
  && forallb (fun p => wf_ident (fst p) && wf_ident (snd p)) (projection q)
  && wf_formula (body q).

(** ** What the reader needs *)

(** [stops p rest]: a run of [p]-characters ends where [rest] begins. *)
Definition stops (p : ascii -> bool) (rest : string) : Prop :=
  match rest with
  | EmptyString => True
  | String c _ => p c = false
  end.

(** What may follow an identifier or a number without running into it. *)
Definition clean (rest : string) : Prop :=
  match rest with
  | EmptyString => True
  | String c _ => is_ident_char c = false /\ is_number_char c = false
  end.

(** Fuel that is enough to read a formula back. *)
Fixpoint need (f : Formula) : nat :=
  match f with
  | RelationAtom _ _ | AttrComparison _ _ _ _ => 1
  | And l r | Or l r => need l + need r + 4
  | Not g => need g + 2
  | Exists _ b | ForAll _ b => need b + 3
  end.

Definition need_term (f : Formula) : nat :=
  need f + (if is_binary f then 2 else 0).

(** [f], written as an operand, reads back as a term. *)
Definition reads_term (f : Formula) : Prop :=
  forall rest fuel, clean rest -> need_term f <= fuel ->
    read_term fuel (wrap_right f (symbolic f) +++ rest) = Some (f, rest).

(** [f], written bare, reads back as the chain that [f] starts. *)
Definition reads_formula (f : Formula) : Prop :=
  forall rest m res fuel, clean rest ->
    read_chain m (root f) f rest = Some res -> m + need f <= fuel ->
    read_formula fuel (symbolic f +++ rest) = Some res.

End Trc.

(* ===================================================================== *)
(** * The Validation Gauntlet: schema graph and SQL                       *)
(* ===================================================================== *)

(** Modelled from the spec: the result type of the backend stages
    ([validation_gauntlet.py], not among the sources), which return typed
    failures instead of throwing (section 7). *)
Inductive Outcome (A E : Type) : Type :=
| Success (a : A)
| Failure (e : E).
Arguments Success {A E} a.
Arguments Failure {A E} e.

Module Schema.
Import Text.

Inductive ColType : Type := INTEGER | DECIMAL | VARCHAR | DATE | BOOLEAN.

(** Modelled from the spec: the Schema Graph that [kg_store.py], not
    among the sources, hands to the pipeline; section 3.  The primary
    key of a table, a set of column names there, is held as the list of
    its names in the order the store enumerates them. *)
Record Column : Type := MkColumn
  { col_name : string;
    col_type : ColType;
    nullable : bool }.

Record ForeignKey : Type := MkForeignKey
  { fk_column : string;
    referencedTable : string;
    referencedColumn : string }.

Record Table : Type := MkTable
  { table_name : string;
    columns : list Column;
    primaryKey : list string;
    foreignKeys : list ForeignKey }.

Definition SchemaGraph : Type := list Table.

Definition find_table (g : SchemaGraph) (name : string) : option Table :=
  find (fun t => eq_ci (table_name t) name) g.

Definition find_column (t : Table) (name : string) : option Column :=
  find (fun c => eq_ci (col_name c) name) (columns t).

(** The primary key is a set of column names, and a set has no order of
    its own: two records are the same table when they differ in nothing
    but the order, or the repetitions, in which the key is listed. *)
Definition same_table (t t' : Table) : Prop :=
  table_name t = table_name t'
  /\ columns t = columns t'
  /\ (forall c, In c (primaryKey t) <-> In c (primaryKey t'))
  /\ foreignKeys t = foreignKeys t'.

(** Two listings of one snapshot. *)
Definition same_snapshot (g g' : SchemaGraph) : Prop := Forall2 same_table g g'.

(** What is left of a table when its key is not read. *)
Definition without_key (t : Table) : Table :=
  MkTable (table_name t) (columns t) [] (foreignKeys t).

End Schema.

Module Sql.
Import Text Trc.

(** Modelled from the spec: the SQL AST of [validation_gauntlet.py],
    which is not among the sources; section 3.  Positions are byte
    offsets into the statement. *)
Inductive Expr : Type :=
| ColumnRef (table : option string) (column : string) (pos : nat)
| Literal (value : Value) (pos : nat)
| Aggregate (fn : string) (arg : Expr) (pos : nat).

Inductive Predicate : Type :=
| Comparison (left : Expr) (op : CmpOp) (right : Expr)
| PAnd (l r : Predicate)
| POr (l r : Predicate)
| PNot (p : Predicate).

Record TableRef : Type := MkTableRef
  { table : string;
    alias : option string;
    ref_pos : nat }.

Inductive JoinKind : Type := INNER | LEFT | RIGHT | FULL.

Record Join : Type := MkJoin
  { left : TableRef;
    right : TableRef;
    on : Predicate;
    kind : JoinKind }.

Record Select : Type := MkSelect
  { projections : list Expr;
    from : list TableRef;
    joins : list Join;
    where_ : option Predicate;
    unsupported : list (nat * string) }.   (* GROUP BY, ORDER BY, LIMIT, ... *)

(** The kinds section 3 and check 1 of section 4.5 name; a statement
    that opens with any other word is a [Write] too (section 4.1) and
    keeps that word. *)
Inductive WriteKind : Type :=
| INSERT | UPDATE | DELETE | DROP | ALTER | TRUNCATE
| OTHER (keyword : string).

(** A [Write] keeps the table the statement names, for stage 2 to
    resolve. *)
Inductive Statement : Type :=
| SelectStmt (s : Select)
| Write (kind : WriteKind) (tables : list TableRef) (pos : nat).

Inductive SyntaxError : Type :=
| Unexpected (position : nat) (expected found : string)
| Unsupported (position : nat) (construct : string)
| TooComplex.

(** ** Tokens *)

Inductive Token : Type :=
| TWord (w : string)
| TNumber (text : string)
| TString (s : string)
| TSym (sym : string).

Definition Located : Type := (nat * Token)%type.

Definition two_char_symbol (s : string) : option (string * string) :=
  match strip_prefix "<=" s with
  | Some r => Some ("<=", r)
  | None =>
  match strip_prefix ">=" s with
  | Some r => Some (">=", r)
  | None =>
  match strip_prefix "<>" s with
  | Some r => Some ("<>", r)
  | None => None
  end end end.

Definition is_symbol_char (c : ascii) : bool :=
  existsb (Ascii.eqb c) ["," ; "." ; "(" ; ")" ; "*" ; ";" ; "=" ; "<" ; ">"]%char.

(** [symbol] says which characters stand for themselves: the
    punctuation of the SELECT grammar, or any character in a write
    statement, whose clauses are not analysed. *)
Fixpoint lex (symbol : ascii -> bool) (fuel pos : nat) (s : string)
  : Outcome (list Located) SyntaxError :=
  match fuel with
  | O => Success []
  | S fuel' =>
      match s with
      | EmptyString => Success []
      | String c s' =>
          let continue (t : Token) (width : nat) (r : string) :=
            match lex symbol fuel' (pos + width) r with
            | Success ts => Success ((pos, t) :: ts)
            | Failure e => Failure e
            end in
          if is_space c then lex symbol fuel' (S pos) s'
          else if is_ident_start c then
            let (w, r) := span is_ident_char s in
            continue (TWord w) (String.length w) r
          else if is_digit c then
            let (n, r) := span is_number_char s in
            continue (TNumber n) (String.length n) r
          else if is_quote c then
            let (lit, r) := span (fun d => negb (is_quote d)) s' in
            match r with
            | String _ r' => continue (TString lit) (String.length lit + 2) r'
            | EmptyString =>
                Failure (Unexpected (pos + String.length lit + 1)
                           "closing quote" "end of input")
            end
          else
            match two_char_symbol s with
            | Some (sym, r) => continue (TSym sym) 2 r
            | None =>
                if symbol c then continue (TSym (String c EmptyString)) 1 s'
                else Failure (Unexpected pos "a token" (String c EmptyString))
            end
      end
  end.

Definition tokenize (sql : string) : Outcome (list Located) SyntaxError :=
  lex is_symbol_char (S (String.length sql)) 0 sql.

Definition is_kw (kw : string) (ts : list Located) : bool :=
  match ts with
  | (_, TWord w) :: _ => String.eqb (upper w) kw
  | _ => false
  end.

Definition is_sym (sym : string) (ts : list Located) : bool :=
  match ts with
  | (_, TSym s) :: _ => String.eqb s sym
  | _ => false
  end.

Definition token_text (t : Token) : string :=
  match t with
  | TWord w => w
  | TNumber text => text
  | TString s => "'" +++ s +++ "'"
  | TSym sym => sym
  end.

Definition reserved (w : string) : bool :=
  existsb (String.eqb (upper w))
    ["SELECT"; "FROM"; "WHERE"; "JOIN"; "INNER"; "LEFT"; "RIGHT"; "FULL";
     "OUTER"; "ON"; "AND"; "OR"; "NOT"; "AS"; "GROUP"; "HAVING"; "ORDER";
     "LIMIT"; "BY"; "OVER"].

Definition aggregate_fn (w : string) : bool :=
  existsb (String.eqb (upper w)) ["COUNT"; "SUM"; "AVG"; "MIN"; "MAX"].

(** ** The parser *)

Section Parser.

(** Offset of the end of the statement, for errors at end of input. *)
Variable eof : nat.

Definition Parsed (A : Type) : Type :=
  Outcome (A * list Located) SyntaxError.

Definition here (ts : list Located) : nat :=
  match ts with
  | [] => eof
  | (p, _) :: _ => p
  end.

Definition found (ts : list Located) : string :=
  match ts with
  | [] => "end of input"
  | (_, t) :: _ => token_text t
  end.

Definition unexpected {A} (expected : string) (ts : list Located) : Parsed A :=
  Failure (Unexpected (here ts) expected (found ts)).

Definition expect_kw (kw : string) (ts : list Located) : Parsed unit :=
  if is_kw kw ts then Success (tt, tl ts) else unexpected kw ts.

Definition expect_sym (sym : string) (ts : list Located) : Parsed unit :=
  if is_sym sym ts then Success (tt, tl ts) else unexpected sym ts.

(** A column reference or a literal. *)
Definition parse_operand (ts : list Located) : Parsed Expr :=
  match ts with
  | (p, TNumber text) :: r => Success (Literal (VNumber text) p, r)
  | (p, TString s) :: r => Success (Literal (VString s) p, r)
  | (p, TSym "*") :: r => Success (ColumnRef None "*" p, r)
  | (p, TWord w) :: r =>
      if reserved w then unexpected "an expression" ts
      else if String.eqb (upper w) "TRUE" then Success (Literal (VBool true) p, r)
      else if String.eqb (upper w) "FALSE" then Success (Literal (VBool false) p, r)
      else if is_sym "." r then
        match tl r with
        | (_, TWord c) :: r' =>
            if reserved c then unexpected "a column name" (tl r)
            else Success (ColumnRef (Some w) c p, r')
        | (_, TSym "*") :: r' => Success (ColumnRef (Some w) "*" p, r')
        | other => unexpected "a column name" other
        end
      else Success (ColumnRef None w p, r)
  | _ => unexpected "an expression" ts
  end.

(** Skips to the bracket that closes the one just opened. *)
Fixpoint skip_group (depth : nat) (ts : list Located) : list Located :=
  match ts with
  | [] => []
  | (_, TSym "(") :: r => skip_group (S depth) r
  | (_, TSym ")") :: r =>
      match depth with
      | O => r
      | S d => skip_group d r
      end
  | _ :: r => skip_group depth r
  end.

(** An operand, or an aggregate over one. *)
Definition parse_expr (ts : list Located) : Parsed Expr :=
  match ts with
  | (p, TWord w) :: r =>
      if aggregate_fn w && is_sym "(" r then
        match parse_operand (tl r) with
        | Failure e => Failure e
        | Success (arg, r1) =>
            match expect_sym ")" r1 with
            | Failure e => Failure e
            | Success (_, r2) =>
                if is_kw "OVER" r2
                then Failure (Unsupported (here r2) "window function")
                else Success (Aggregate (upper w) arg p, r2)
            end
        end
      else parse_operand ts
  | _ => parse_operand ts
  end.

Fixpoint parse_projections (fuel : nat) (ts : list Located)
  : Parsed (list Expr) :=
  match fuel with
  | O => Failure TooComplex
  | S fuel' =>
      match parse_expr ts with
      | Failure e => Failure e
      | Success (e, r) =>
          if is_sym "," r then
            match parse_projections fuel' (tl r) with
            | Failure err => Failure err
            | Success (es, r') => Success (e :: es, r')
            end
          else Success ([e], r)
      end
  end.

Definition parse_table_ref (ts : list Located) : Parsed TableRef :=
  match ts with
  | (p, TWord t) :: r =>
      if reserved t then unexpected "a table name" ts
      else if is_kw "AS" r then
        match tl r with
        | (_, TWord a) :: r' =>
            if reserved a then unexpected "an alias" (tl r)
            else Success (MkTableRef t (Some a) p, r')
        | other => unexpected "an alias" other
        end
      else
        match r with
        | (_, TWord a) :: r' =>
            if reserved a then Success (MkTableRef t None p, r)
            else Success (MkTableRef t (Some a) p, r')
        | _ => Success (MkTableRef t None p, r)
        end
  | _ => unexpected "a table name" ts
  end.

(** ** Write statements *)

Definition write_word (w : string) : bool :=
  existsb (String.eqb (upper w))
    ["TABLE"; "INTO"; "SET"; "VALUES"; "IF"; "EXISTS"].

Definition parse_table_name (ts : list Located) : Parsed (list TableRef) :=
  match ts with
  | (p, TWord t) :: r =>
      if reserved t || write_word t then unexpected "a table name" ts
      else Success ([MkTableRef t None p], r)
  | _ => unexpected "a table name" ts
  end.

Definition after_kw (kw : string) (ts : list Located) : Parsed (list TableRef) :=
  if is_kw kw ts then parse_table_name (tl ts) else unexpected kw ts.

(** The clause that names the table: INSERT INTO t, UPDATE t,
    DELETE FROM t, DROP TABLE [IF EXISTS] t, ALTER TABLE t,
    TRUNCATE [TABLE] t.  A statement of another kind names none that
    is known. *)
Definition parse_write_head (k : WriteKind) (ts : list Located)
  : Parsed (list TableRef) :=
  match k with
  | INSERT => after_kw "INTO" ts
  | UPDATE => parse_table_name ts
  | DELETE => after_kw "FROM" ts
  | DROP =>
      if is_kw "TABLE" ts && is_kw "IF" (tl ts) && is_kw "EXISTS" (tl (tl ts))
      then parse_table_name (tl (tl (tl ts)))
      else after_kw "TABLE" ts
  | ALTER => after_kw "TABLE" ts
  | TRUNCATE =>
      if is_kw "TABLE" ts then parse_table_name (tl ts) else parse_table_name ts
  | OTHER _ => Success ([], ts)
  end.

(** The first parenthesis without a partner, if there is one. *)
Fixpoint unbalanced (open : list nat) (ts : list Located) : option SyntaxError :=
  match ts with
  | [] =>
      match open with
      | [] => None
      | _ :: _ => Some (Unexpected eof ")" "end of input")
      end
  | (p, TSym sym) :: r =>
      if String.eqb sym "(" then unbalanced (p :: open) r
      else if String.eqb sym ")" then
        match open with
        | [] => Some (Unexpected p "end of statement" ")")
        | _ :: outer => unbalanced outer r
        end
      else unbalanced open r
  | _ :: r => unbalanced open r
  end.

(** What follows the table name is checked for its parentheses only. *)
Definition parse_write (k : WriteKind) (pos : nat) (ts : list Located)
  : Outcome Statement SyntaxError :=
  match parse_write_head k ts with
  | Failure e => Failure e
  | Success (tables, r) =>
      match unbalanced [] r with
      | Some e => Failure e
      | None => Success (Write k tables pos)
      end
  end.

Definition parse_op (ts : list Located) : Parsed CmpOp :=
  match ts with
  | (_, TSym "=") :: r => Success (OpEq, r)
  | (_, TSym "<") :: r => Success (OpLt, r)
  | (_, TSym ">") :: r => Success (OpGt, r)
  | (_, TSym "<=") :: r => Success (OpLe, r)
  | (_, TSym ">=") :: r => Success (OpGe, r)
  | (_, TSym "<>") :: r => Success (OpNe, r)
  | _ => unexpected "a comparison operator" ts
  end.

Definition parse_comparison (ts : list Located) : Parsed Predicate :=
  match parse_expr ts with
  | Failure e => Failure e
  | Success (l, r1) =>
      match parse_op r1 with
      | Failure e => Failure e
      | Success (op, r2) =>
          match parse_expr r2 with
          | Failure e => Failure e
          | Success (r, r3) => Success (Comparison l op r, r3)
          end
      end
  end.

(** OR binds weakest, then AND, then NOT; chains nest to the left. *)
Fixpoint parse_or (fuel : nat) (ts : list Located) : Parsed Predicate :=
  match fuel with
  | O => Failure TooComplex
  | S fuel' =>
      match parse_and fuel' ts with
      | Failure e => Failure e
      | Success (l, r) => parse_or_rest fuel' l r
      end
  end

with parse_or_rest (fuel : nat) (acc : Predicate) (ts : list Located)
       : Parsed Predicate :=
  match fuel with
  | O => Failure TooComplex
  | S fuel' =>
      if is_kw "OR" ts then
        match parse_and fuel' (tl ts) with
        | Failure e => Failure e
        | Success (p, r) => parse_or_rest fuel' (POr acc p) r
        end
      else Success (acc, ts)
  end

with parse_and (fuel : nat) (ts : list Located) : Parsed Predicate :=
  match fuel with
  | O => Failure TooComplex
  | S fuel' =>
      match parse_not fuel' ts with
      | Failure e => Failure e
      | Success (l, r) => parse_and_rest fuel' l r
      end
  end

with parse_and_rest (fuel : nat) (acc : Predicate) (ts : list Located)
       : Parsed Predicate :=
  match fuel with
  | O => Failure TooComplex
  | S fuel' =>
      if is_kw "AND" ts then
        match parse_not fuel' (tl ts) with
        | Failure e => Failure e
        | Success (p, r) => parse_and_rest fuel' (PAnd acc p) r
        end
      else Success (acc, ts)
  end

with parse_not (fuel : nat) (ts : list Located) : Parsed Predicate :=
  match fuel with
  | O => Failure TooComplex
  | S fuel' =>
      if is_kw "NOT" ts then
        match parse_not fuel' (tl ts) with
        | Failure e => Failure e
        | Success (p, r) => Success (PNot p, r)
        end
      else if is_sym "(" ts then
        if is_kw "SELECT" (tl ts)
        then Failure (Unsupported (here (tl ts)) "subquery")
        else
          match parse_or fuel' (tl ts) with
          | Failure e => Failure e
          | Success (p, r) =>
              match expect_sym ")" r with
              | Failure e => Failure e
              | Success (_, r') => Success (p, r')
              end
          end
      else parse_comparison ts
  end.

Definition parse_predicate (ts : list Located) : Parsed Predicate :=
  parse_or (4 * List.length ts + 4) ts.

Definition join_kind (ts : list Located) : option (JoinKind * list Located) :=
  let outer (r : list Located) := if is_kw "OUTER" r then tl r else r in
  if is_kw "JOIN" ts then Some (INNER, ts)
  else if is_kw "INNER" ts then Some (INNER, tl ts)
  else if is_kw "LEFT" ts then Some (LEFT, outer (tl ts))
  else if is_kw "RIGHT" ts then Some (RIGHT, outer (tl ts))
  else if is_kw "FULL" ts then Some (FULL, outer (tl ts))
  else None.

Fixpoint parse_joins (fuel : nat) (previous : TableRef) (ts : list Located)
  : Parsed (list Join) :=
  match fuel with
  | O => Failure TooComplex
  | S fuel' =>
      match join_kind ts with
      | None => Success ([], ts)
      | Some (k, r0) =>
          match expect_kw "JOIN" r0 with
          | Failure e => Failure e
          | Success (_, r1) =>
          match parse_table_ref r1 with
          | Failure e => Failure e
          | Success (t, r2) =>
          match expect_kw "ON" r2 with
          | Failure e => Failure e
          | Success (_, r3) =>
          match parse_predicate r3 with
          | Failure e => Failure e
          | Success (p, r4) =>
          match parse_joins fuel' t r4 with
          | Failure e => Failure e
          | Success (js, r5) => Success (MkJoin previous t p k :: js, r5)
          end end end end end
      end
  end.

Fixpoint parse_from (fuel : nat) (ts : list Located)
  : Parsed (list TableRef) :=
  match fuel with
  | O => Failure TooComplex
  | S fuel' =>
      match parse_table_ref ts with
      | Failure e => Failure e
      | Success (t, r) =>
          if is_sym "," r then
            match parse_from fuel' (tl r) with
            | Failure e => Failure e
            | Success (more, r') => Success (t :: more, r')
            end
          else Success ([t], r)
      end
  end.

(** What may follow the WHERE clause: the end, or a clause that is
    recognised and tagged as unsupported. *)
Definition parse_tail (ts : list Located)
  : Outcome (list (nat * string)) SyntaxError :=
  match ts with
  | [] => Success []
  | [(_, TSym ";")] => Success []
  | (p, TWord w) :: _ =>
      if existsb (String.eqb (upper w)) ["GROUP"; "HAVING"; "ORDER"; "LIMIT"]
      then Success [(p, upper w)]
      else Failure (Unexpected p "end of statement" w)
  | (p, t) :: _ => Failure (Unexpected p "end of statement" (token_text t))
  end.

(** The tokens after SELECT. *)
Definition parse_select (ts : list Located) : Outcome Select SyntaxError :=
  let fuel := S (List.length ts) in
  match parse_projections fuel ts with
  | Failure e => Failure e
  | Success (ps, r1) =>
  match expect_kw "FROM" r1 with
  | Failure e => Failure e
  | Success (_, r2) =>
  match parse_from fuel r2 with
  | Failure e => Failure e
  | Success (fs, r3) =>
  match parse_joins fuel (last fs (MkTableRef EmptyString None 0)) r3 with
  | Failure e => Failure e
  | Success (js, r4) =>
  match (if is_kw "WHERE" r4
         then match parse_predicate (tl r4) with
              | Failure e => Failure e
              | Success (p, r) => Success (Some p, r)
              end
         else Success (None, r4)) with
  | Failure e => Failure e
  | Success (w, r5) =>
  match parse_tail r5 with
  | Failure e => Failure e
  | Success u => Success (MkSelect ps fs js w u)
  end end end end end end.

End Parser.

(** ** Size limits *)

Fixpoint expr_size (e : Expr) : nat :=
  match e with
  | Aggregate _ arg _ => S (expr_size arg)
  | _ => 1
  end.

Fixpoint predicate_size (p : Predicate) : nat :=
  match p with
  | Comparison l _ r => S (expr_size l + expr_size r)
  | PAnd l r | POr l r => S (predicate_size l + predicate_size r)
  | PNot q => S (predicate_size q)
  end.

Fixpoint predicate_depth (p : Predicate) : nat :=
  match p with
  | Comparison _ _ _ => 1
  | PAnd l r | POr l r => S (Nat.max (predicate_depth l) (predicate_depth r))
  | PNot q => S (predicate_depth q)
  end.

Definition option_measure (m : Predicate -> nat) (p : option Predicate) : nat :=
  match p with
  | Some q => m q
  | None => 0
  end.

Definition select_size (s : Select) : nat :=
  list_sum (map expr_size (projections s))
  + List.length (from s)
  + list_sum (map (fun j => S (predicate_size (on j))) (joins s))
  + option_measure predicate_size (where_ s).

Definition select_depth (s : Select) : nat :=
  Nat.max (list_max (map (fun j => predicate_depth (on j)) (joins s)))
          (option_measure predicate_depth (where_ s)).

(** The spec asks for a bound on depth and size and fixes no figure. *)
Definition MAX_AST_DEPTH : nat := 64.
Definition MAX_AST_SIZE : nat := 2000.

Definition write_kind (w : string) : WriteKind :=
  let k := upper w in
  if String.eqb k "INSERT" then INSERT
  else if String.eqb k "UPDATE" then UPDATE
  else if String.eqb k "DELETE" then DELETE
  else if String.eqb k "DROP" then DROP
  else if String.eqb k "ALTER" then ALTER
  else if String.eqb k "TRUNCATE" then TRUNCATE
  else OTHER k.

(** The first word of the statement and where it starts. *)
Fixpoint top_level_keyword (pos : nat) (sql : string) : option (nat * string * string) :=
  match sql with
  | EmptyString => None
  | String c rest =>
      if is_space c then top_level_keyword (S pos) rest
      else if is_ident_start c
           then let (w, r) := span is_ident_char sql in Some (pos, w, r)
           else None
  end.

(** Modelled from the spec: the SQL Parser of [validation_gauntlet.py],
    which is not among the sources; section 4.1.  A statement that opens
    with SELECT is parsed by the supported grammar.  One that opens with
    any other word parses into [Write]: section 4.1 gives no grammar for
    it, so it is read as far as the table it names and is refused as
    malformed only when that clause is broken, a literal is not closed
    or a parenthesis has no partner. *)
Definition parse (sql : string) : Outcome Statement SyntaxError :=
  match top_level_keyword 0 sql with
  | None => Failure (Unexpected 0 "a statement" "no statement")
  | Some (p, w, rest) =>
      if String.eqb (upper w) "SELECT" then
        match lex is_symbol_char (S (String.length rest))
                (p + String.length w) rest with
        | Failure e => Failure e
        | Success ts =>
            match parse_select (String.length sql) ts with
            | Failure e => Failure e
            | Success s =>
                if ((select_depth s <=? MAX_AST_DEPTH)
                    && (select_size s <=? MAX_AST_SIZE))%nat
                then Success (SelectStmt s)
                else Failure TooComplex
            end
        end
      else
        match lex (fun _ => true) (S (String.length rest))
                (p + String.length w) rest with
        | Failure e => Failure e
        | Success ts => parse_write (String.length sql) (write_kind w) p ts
        end
  end.

End Sql.

(* ===================================================================== *)
(** * The Validation Gauntlet: the three stages                           *)
(* ===================================================================== *)

Module Gauntlet.
Import Text Trc Schema Sql.

Inductive SemanticError : Type :=
| UnknownTable (name : string)
| UnknownColumn (name : string)
| AmbiguousColumn (name : string) (candidates : list string)
| TypeMismatch (left_operand right_operand : string).

Inductive LogicalSecurityError : Type :=
| WriteOperationForbidden
| UnsupportedConstruct (construct : string)
| UnsafeFormula (variable : string)
| AmbiguousQuantifier (variable : string).

(** The typed failure values of section 7. *)
Inductive Diagnostic : Type :=
| DSyntax (e : SyntaxError)
| DSemantic (e : SemanticError)
| DLogical (e : LogicalSecurityError).

Record StageResult : Type := MkStageResult
  { valid : bool;
    errors : list Diagnostic }.

(** A stage passes when it has nothing to report. *)
Definition stage_of (ds : list Diagnostic) : StageResult :=
  MkStageResult (match ds with [] => true | _ => false end) ds.

(** ** Stage 1 *)

(** Modelled from the spec: stage 1 of [validation_gauntlet.py], which is
    not among the sources; the Syntactic Validator of section 4.2.  The
    AST is passed on only when the stage is valid. *)
Definition Syntactic_Validator (sql : string) : StageResult * option Statement :=
  match parse sql with
  | Failure e => (stage_of [DSyntax e], None)
  | Success (SelectStmt sel) =>
      match unsupported sel with
      | [] => (stage_of [], Some (SelectStmt sel))
      | tags =>
          (stage_of (map (fun t => DSyntax (Unsupported (fst t) (snd t))) tags),
           None)
      end
  | Success ast => (stage_of [], Some ast)
  end.

(** ** Stage 2 *)

(** The tables in scope, each under the name the statement uses for it. *)
Definition Scope : Type := list (string * Table).

(** A binding whose table is taken without its key. *)
Definition binding_without_key (b : string * Table) : string * Table :=
  (fst b, without_key (snd b)).

Definition binding_name (r : TableRef) : string :=
  match alias r with
  | Some a => a
  | None => table r
  end.

Definition table_refs (sel : Select) : list TableRef :=
  from sel ++ map right (joins sel).

Definition table_errors (g : SchemaGraph) (refs : list TableRef)
  : list SemanticError :=
  flat_map (fun r => match find_table g (table r) with
                     | Some _ => []
                     | None => [UnknownTable (table r)]
                     end) refs.

Definition scope_of (g : SchemaGraph) (refs : list TableRef) : Scope :=
  flat_map (fun r => match find_table g (table r) with
                     | Some t => [(binding_name r, t)]
                     | None => []
                     end) refs.

Inductive Resolution : Type :=
| Resolved (binding : string) (c : Column)
| Star
| Unresolved (e : SemanticError).

Definition qualified (q : option string) (c : string) : string :=
  match q with
  | Some t => t +++ "." +++ c
  | None => c
  end.

Definition resolve (sc : Scope) (q : option string) (c : string) : Resolution :=
  match q with
  | Some qual =>
      match find (fun b => eq_ci (fst b) qual) sc with
      | None => Unresolved (UnknownTable qual)
      | Some (b, t) =>
          if String.eqb c "*" then Star
          else match find_column t c with
               | Some col => Resolved b col
               | None => Unresolved (UnknownColumn (qualified q c))
               end
      end
  | None =>
      if String.eqb c "*" then Star
      else
        match flat_map (fun b => match find_column (snd b) c with
                                 | Some col => [(fst b, snd b, col)]
                                 | None => []
                                 end) sc with
        | [] => Unresolved (UnknownColumn c)
        | [(b, _, col)] => Resolved b col
        | many =>
            Unresolved
              (AmbiguousColumn c (map (fun m => table_name (snd (fst m))) many))
        end
  end.

(** What a comparison sees of an operand. *)
Inductive Operand_type : Type :=
| OfColumn (ty : ColType)
| OfLiteral (v : Value)
| Untyped.

Fixpoint expr_errors (sc : Scope) (e : Expr) : list SemanticError :=
  match e with
  | ColumnRef q c _ =>
      match resolve sc q c with
      | Unresolved err => [err]
      | _ => []
      end
  | Literal _ _ => []
  | Aggregate _ arg _ => expr_errors sc arg
  end.

Definition operand_type (sc : Scope) (e : Expr) : Operand_type :=
  match e with
  | ColumnRef q c _ =>
      match resolve sc q c with
      | Resolved _ col => OfColumn (col_type col)
      | _ => Untyped
      end
  | Literal v _ => OfLiteral v
  | Aggregate _ _ _ => Untyped
  end.

Definition numeric (ty : ColType) : bool :=
  match ty with
  | INTEGER | DECIMAL => true
  | _ => false
  end.

Definition same_type (a b : ColType) : bool :=
  match a, b with
  | INTEGER, INTEGER | DECIMAL, DECIMAL | VARCHAR, VARCHAR
  | DATE, DATE | BOOLEAN, BOOLEAN => true
  | _, _ => false
  end.

Definition compatible (a b : ColType) : bool :=
  same_type a b || (numeric a && numeric b).

Fixpoint count_char (c : ascii) (s : string) : nat :=
  match s with
  | EmptyString => 0
  | String d s' => (if Ascii.eqb c d then 1 else 0) + count_char c s'
  end.

(** [YYYY-MM-DD] *)
Definition is_date (s : string) : bool :=
  match list_ascii_of_string s with
  | [y1; y2; y3; y4; d1; m1; m2; d2; a1; a2] =>
      forallb is_digit [y1; y2; y3; y4; m1; m2; a1; a2]
      && Ascii.eqb d1 "-" && Ascii.eqb d2 "-"
  | _ => false
  end.

(** Whether a literal can be read as a value of the column's type. *)
Definition literal_fits (ty : ColType) (v : Value) : bool :=
  match ty, v with
  | INTEGER, VNumber text => negb (String.eqb text EmptyString) && all_chars is_digit text
  | DECIMAL, VNumber text =>
      negb (String.eqb text EmptyString) && all_chars is_number_char text
      && (count_char "." text <=? 1)%nat
  | VARCHAR, VString _ => true
  | DATE, VString s => is_date s
  | BOOLEAN, VBool _ => true
  | _, _ => false
  end.

Definition same_kind (a b : Value) : bool :=
  match a, b with
  | VNumber _, VNumber _ | VString _, VString _ | VBool _, VBool _ => true
  | _, _ => false
  end.

Definition comparable (a b : Operand_type) : bool :=
  match a, b with
  | OfColumn x, OfColumn y => compatible x y
  | OfColumn x, OfLiteral v | OfLiteral v, OfColumn x => literal_fits x v
  | OfLiteral v, OfLiteral w => same_kind v w
  | Untyped, _ | _, Untyped => true
  end.

Fixpoint expr_text (e : Expr) : string :=
  match e with
  | ColumnRef q c _ => qualified q c
  | Literal v _ => value_text v
  | Aggregate fn arg _ => fn +++ "(" +++ expr_text arg +++ ")"
  end.

Fixpoint predicate_errors (sc : Scope) (p : Predicate) : list SemanticError :=
  match p with
  | Comparison l _ r =>
      expr_errors sc l ++ expr_errors sc r
      ++ (if comparable (operand_type sc l) (operand_type sc r) then []
          else [TypeMismatch (expr_text l) (expr_text r)])
  | PAnd l r | POr l r => predicate_errors sc l ++ predicate_errors sc r
  | PNot q => predicate_errors sc q
  end.

Definition select_errors (g : SchemaGraph) (sel : Select) : list SemanticError :=
  let sc := scope_of g (table_refs sel) in
  table_errors g (table_refs sel)
  ++ flat_map (expr_errors sc) (projections sel)
  ++ flat_map (fun j => predicate_errors sc (on j)) (joins sel)
  ++ match where_ sel with
     | Some p => predicate_errors sc p
     | None => []
     end.

(** Modelled from the spec: stage 2 of [validation_gauntlet.py], which is
    not among the sources; the Semantic Validator of section 4.3.  Every
    error is collected.  Of a write statement the table it names is
    resolved. *)
Definition Semantic_Validator (ast : Statement) (g : SchemaGraph) : StageResult :=
  match ast with
  | SelectStmt sel => stage_of (map DSemantic (select_errors g sel))
  | Write _ tables _ => stage_of (map DSemantic (table_errors g tables))
  end.

(** ** SQL to TRC *)

(** The context threaded through the translation: the fresh-variable
    counter and the constructs flagged so far. *)
Record Context : Type := MkContext
  { next_var : nat;
    flags : list string }.

Definition Translating (A : Type) : Type := Context -> A * Context.

Definition unit_ {A} (a : A) : Translating A := fun ctx => (a, ctx).

Definition then_ {A B} (m : Translating A) (k : A -> Translating B)
  : Translating B :=
  fun ctx => let (a, ctx') := m ctx in k a ctx'.

Notation "x <=- m ;; k" := (then_ m (fun x => k))
  (at level 61, m at next level, right associativity).

Definition fresh : Translating string :=
  fun ctx => ("t" +++ show_nat (next_var ctx),
              MkContext (S (next_var ctx)) (flags ctx)).

Definition flag (construct : string) : Translating unit :=
  fun ctx => (tt, MkContext (next_var ctx) (flags ctx ++ [construct])).

(** A row variable for each table reference, in FROM-then-JOIN order. *)
Record Bound : Type := MkBound
  { row_var : string;
    bound_name : string;
    bound_table : Table }.

Definition bound_without_key (b : Bound) : Bound :=
  MkBound (row_var b) (bound_name b) (without_key (bound_table b)).

Fixpoint bind_refs (g : SchemaGraph) (refs : list TableRef)
  : Translating (list Bound) :=
  match refs with
  | [] => unit_ []
  | r :: rest =>
      v <=- fresh ;;
      more <=- bind_refs g rest ;;
      unit_ (match find_table g (table r) with
             | Some t => MkBound v (binding_name r) t :: more
             | None => MkBound v (binding_name r) (MkTable (table r) [] [] []) :: more
             end)
  end.

Definition scope_of_bound (bs : list Bound) : Scope :=
  map (fun b => (bound_name b, bound_table b)) bs.

Definition var_of (bs : list Bound) (binding : string) : string :=
  match find (fun b => String.eqb (bound_name b) binding) bs with
  | Some b => row_var b
  | None => "t0"
  end.

Inductive Term : Type :=
| TAttr (var attr : string)
| TValue (v : Value)
| TNone.

Definition translate_expr (bs : list Bound) (e : Expr) : Translating Term :=
  match e with
  | ColumnRef q c _ =>
      match resolve (scope_of_bound bs) q c with
      | Resolved b col => unit_ (TAttr (var_of bs b) (col_name col))
      | Star => unit_ TNone
      | Unresolved _ => unit_ (TAttr "t0" c)
      end
  | Literal v _ => unit_ (TValue v)
  | Aggregate fn _ _ => _ <=- flag ("Aggregate " +++ fn) ;; unit_ TNone
  end.

Definition mirror (op : CmpOp) : CmpOp :=
  match op with
  | OpLt => OpGt
  | OpGt => OpLt
  | OpLe => OpGe
  | OpGe => OpLe
  | other => other
  end.

(** Comparison to AttrComparison; And, Or and Not one to one. *)
Fixpoint translate_predicate (bs : list Bound) (p : Predicate)
  : Translating (option Formula) :=
  match p with
  | Comparison l op r =>
      a <=- translate_expr bs l ;;
      b <=- translate_expr bs r ;;
      match a, b with
      | TAttr v x, TAttr w y => unit_ (Some (AttrComparison v x op (OAttr w y)))
      | TAttr v x, TValue c => unit_ (Some (AttrComparison v x op (OValue c)))
      | TValue c, TAttr v x =>
          unit_ (Some (AttrComparison v x (mirror op) (OValue c)))
      | TValue _, TValue _ =>
          _ <=- flag "comparison of two literals" ;; unit_ None
      | _, _ => unit_ None
      end
  | PAnd l r =>
      a <=- translate_predicate bs l ;;
      b <=- translate_predicate bs r ;;
      unit_ (match a, b with
             | Some x, Some y => Some (And x y)
             | _, _ => None
             end)
  | POr l r =>
      a <=- translate_predicate bs l ;;
      b <=- translate_predicate bs r ;;
      unit_ (match a, b with
             | Some x, Some y => Some (Or x y)
             | _, _ => None
             end)
  | PNot q =>
      a <=- translate_predicate bs q ;;
      unit_ (option_map Not a)
  end.

Fixpoint expr_mentions (bs : list Bound) (v : string) (e : Expr) : bool :=
  match e with
  | ColumnRef q c _ =>
      match resolve (scope_of_bound bs) q c with
      | Resolved b _ => String.eqb (var_of bs b) v
      | _ => false
      end
  | Literal _ _ => false
  | Aggregate _ arg _ => expr_mentions bs v arg
  end.

Fixpoint predicate_mentions (bs : list Bound) (v : string) (p : Predicate) : bool :=
  match p with
  | Comparison l _ r => expr_mentions bs v l || expr_mentions bs v r
  | PAnd l r | POr l r => predicate_mentions bs v l || predicate_mentions bs v r
  | PNot q => predicate_mentions bs v q
  end.

(** Whether the row variable is used outside the ON clause of its own
    join. *)
Definition used_elsewhere (bs : list Bound) (sel : Select) (j : Join) (v : string)
  : bool :=
  existsb (expr_mentions bs v) (projections sel)
  || match where_ sel with
     | Some p => predicate_mentions bs v p
     | None => false
     end
  || existsb (fun j' => negb (Nat.eqb (ref_pos (right j')) (ref_pos (right j)))
                        && predicate_mentions bs v (on j')) (joins sel).

Definition conj (acc : option Formula) (f : option Formula) : option Formula :=
  match acc, f with
  | Some a, Some b => Some (And a b)
  | Some a, None => Some a
  | None, other => other
  end.

(** A left join keeps the unmatched rows of the left side,
    [(exists match) or (not exists match)]; that stays range-restricted
    only when the right side is used nowhere else.  The other outer
    joins leave the output row itself unbounded on the unmatched side. *)
Definition join_var (bs : list Bound) (j : Join) : string :=
  var_of bs (binding_name (right j)).

Definition optional_side (bs : list Bound) (sel : Select) (j : Join) : bool :=
  match kind j with
  | LEFT => negb (used_elsewhere bs sel j (join_var bs j))
  | _ => false
  end.

Definition atom_of (b : Bound) : Formula :=
  RelationAtom (row_var b) (table_name (bound_table b)).

(** One [RelationAtom] per table, except the optional sides, whose atom
    sits under their quantifier. *)
Definition relation_atoms (bs : list Bound) (sel : Select) : option Formula :=
  fold_left
    (fun acc b =>
       if existsb (fun j => optional_side bs sel j
                            && String.eqb (join_var bs j) (row_var b))
                  (joins sel)
       then acc
       else conj acc (Some (atom_of b)))
    bs None.

Definition translate_join (bs : list Bound) (sel : Select) (j : Join)
  : Translating (option Formula) :=
  p <=- translate_predicate bs (on j) ;;
  match kind j with
  | INNER => unit_ p
  | LEFT =>
      if optional_side bs sel j then
        let v := join_var bs j in
        let atom := match find (fun b => String.eqb (row_var b) v) bs with
                    | Some b => atom_of b
                    | None => RelationAtom v (table (right j))
                    end in
        unit_ (option_map (fun m => Or (Exists v m) (Not (Exists v m)))
                 (conj (Some atom) p))
      else _ <=- flag "UnsupportedJoinShape LEFT" ;; unit_ p
  | RIGHT => _ <=- flag "UnsupportedJoinShape RIGHT" ;; unit_ p
  | FULL => _ <=- flag "UnsupportedJoinShape FULL" ;; unit_ p
  end.

Fixpoint translate_joins (bs : list Bound) (sel : Select) (js : list Join)
  (acc : option Formula) : Translating (option Formula) :=
  match js with
  | [] => unit_ acc
  | j :: rest =>
      f <=- translate_join bs sel j ;;
      translate_joins bs sel rest (conj acc f)
  end.

Fixpoint translate_projections (bs : list Bound) (es : list Expr)
  : Translating (list (string * string)) :=
  match es with
  | [] => unit_ []
  | e :: rest =>
      t <=- translate_expr bs e ;;
      more <=- translate_projections bs rest ;;
      match t with
      | TAttr v a => unit_ ((v, a) :: more)
      | TValue _ => _ <=- flag "literal in the projection" ;; unit_ more
      | TNone => unit_ more
      end
  end.

Record Translation : Type := MkTranslation
  { query : Query;
    flagged : list string }.

Definition translate_select (g : SchemaGraph) (sel : Select)
  : Translating Query :=
  bs <=- bind_refs g (table_refs sel) ;;
  ps <=- translate_projections bs (projections sel) ;;
  js <=- translate_joins bs sel (joins sel) (relation_atoms bs sel) ;;
  w <=- match where_ sel with
        | Some p => translate_predicate bs p
        | None => unit_ None
        end ;;
  let out := match bs with
             | b :: _ => row_var b
             | [] => "t0"
             end in
  let whole := match conj js w with
               | Some f => f
               | None => RelationAtom out EmptyString
               end in
  unit_ (MkQuery out ps whole).

(** Modelled from the spec: the SQL-to-TRC direction of [trc_handler.py],
    which is not among the sources; section 4.4, run from a fresh
    context on every call. *)
Definition SQL_to_TRC (g : SchemaGraph) (sel : Select) : Translation :=
  let (q, ctx) := translate_select g sel (MkContext 0 []) in
  MkTranslation q (flags ctx).

(** ** Stage 3 *)

Definition mem (v : string) (vs : list string) : bool :=
  existsb (String.eqb v) vs.

(** The relation atoms conjoined at the top of a scope: those reached
    through conjunctions only. *)
Fixpoint conjoined_atoms (f : Formula) : list (string * string) :=
  match f with
  | RelationAtom v t => [(v, t)]
  | And l r => conjoined_atoms l ++ conjoined_atoms r
  | _ => []
  end.

Definition restricted_by (f : Formula) : list string :=
  map fst (conjoined_atoms f).

Definition operand_vars (o : Operand) : list string :=
  match o with
  | OValue _ => []
  | OAttr v _ => [v]
  end.

Fixpoint free_vars (f : Formula) : list string :=
  match f with
  | RelationAtom v _ => [v]
  | AttrComparison v _ _ o => v :: operand_vars o
  | And l r | Or l r => free_vars l ++ free_vars r
  | Not g => free_vars g
  | Exists v b | ForAll v b =>
      filter (fun x => negb (String.eqb x v)) (free_vars b)
  end.

(** The variables that break range restriction inside [f], where [env]
    lists the variables restricted by an atom of an enclosing
    conjunction. *)
Fixpoint unsafe_vars (env : list string) (f : Formula) : list string :=
  match f with
  | RelationAtom _ _ | AttrComparison _ _ _ _ => []
  | And l r =>
      let env' := restricted_by (And l r) ++ env in
      unsafe_vars env' l ++ unsafe_vars env' r
  | Or l r => unsafe_vars env l ++ unsafe_vars env r
  | Not g =>
      filter (fun x => negb (mem x env)) (free_vars g) ++ unsafe_vars env g
  | Exists v b | ForAll v b =>
      (if mem v (restricted_by b) then [] else [v])
      ++ unsafe_vars (restricted_by b
                      ++ filter (fun x => negb (String.eqb x v)) env) b
  end.

(** The variables that are free in a query: the designated output
    variable, the variables the projection list reads from, and the
    variables that occur free in the body. *)
Definition query_vars (q : Query) : list string :=
  out_var q :: map fst (projection q) ++ free_vars (body q).

(** Check 3 of section 4.5.  A free variable of the query needs a
    relation atom conjoined at the top of the body; a bound variable
    one conjoined in the body of its quantifier. *)
Definition range_errors (q : Query) : list LogicalSecurityError :=
  map UnsafeFormula
    (nodup string_dec
       (filter (fun v => negb (mem v (restricted_by (body q))))
               (query_vars q)
        ++ unsafe_vars (restricted_by (body q)) (body q))).

Definition rebinds (env : list (string * string)) (v t : string) : bool :=
  existsb (fun b => String.eqb (fst b) v && negb (String.eqb (snd b) t)) env.

(** Variables bound to two different tables in overlapping scope. *)
Fixpoint ambiguous_vars (env : list (string * string)) (f : Formula)
  : list string :=
  match f with
  | RelationAtom v t => if rebinds env v t then [v] else []
  | AttrComparison _ _ _ _ => []
  | And l r =>
      let env' := conjoined_atoms (And l r) ++ env in
      ambiguous_vars env' l ++ ambiguous_vars env' r
  | Or l r => ambiguous_vars env l ++ ambiguous_vars env r
  | Not g => ambiguous_vars env g
  | Exists v b | ForAll v b =>
      ambiguous_vars (filter (fun p => negb (String.eqb (fst p) v)) env) b
  end.

Definition ambiguity_errors (q : Query) : list LogicalSecurityError :=
  map AmbiguousQuantifier (nodup string_dec (ambiguous_vars [] (body q))).

Definition write_errors (original : Statement) : list LogicalSecurityError :=
  match original with
  | Write _ _ _ => [WriteOperationForbidden]
  | SelectStmt _ => []
  end.

Definition unsupported_errors (original : Statement) (t : option Translation)
  : list LogicalSecurityError :=
  match original with
  | SelectStmt sel => map (fun u => UnsupportedConstruct (snd u)) (unsupported sel)
  | Write _ _ _ => []
  end
  ++ match t with
     | Some tr => map UnsupportedConstruct (flagged tr)
     | None => []
     end.

(** Modelled from the spec: stage 3 of [validation_gauntlet.py], which is
    not among the sources; the Safety Checker of section 4.5.  The four
    checks run in order and every error is collected.  A write statement
    has no formula. *)
Definition Safety_Checker (original : Statement) (t : option Translation)
  : StageResult :=
  stage_of
    (map DLogical
       (write_errors original
        ++ unsupported_errors original t
        ++ match t with
           | Some tr => range_errors (query tr) ++ ambiguity_errors (query tr)
           | None => []
           end)).

(** Stage 3 as the orchestrator runs it: translate, check, render. *)
Definition Logical_Stage (ast : Statement) (g : SchemaGraph)
  : StageResult * option Readable :=
  match ast with
  | Write _ _ _ => (Safety_Checker ast None, None)
  | SelectStmt sel =>
      let tr := SQL_to_TRC g sel in
      (Safety_Checker ast (Some tr), Some (TRC_to_readable (query tr)))
  end.

End Gauntlet.

(* ===================================================================== *)
(** * The Validation Gauntlet: orchestrator and report                    *)
(* ===================================================================== *)

Module Orchestrator.
Import Text Trc Schema Sql Gauntlet.

(** A stage of the report: what it returned, or that it did not run. *)
Inductive StageReport : Type :=
| Executed (r : StageResult)
| Skipped.

(** Modelled from the spec: the report of [validation_gauntlet.py], which
    is not among the sources; the record handed to the caller
    (section 6). *)
Record Report : Type := MkReport
  { overall_valid : bool;
    syntactic : StageReport;
    semantic : StageReport;
    logical : StageReport;
    trc : option Readable }.

(** Modelled from the spec: the orchestrator of [validation_gauntlet.py],
    which is not among the sources; the states of section 4.6. *)
Inductive State : Type :=
| Syntactic
| Semantic (ast : Statement) (stage1 : StageResult)
| TrcSafety (ast : Statement) (stage1 stage2 : StageResult)
| Done (report : Report).

Section Invocation.

Variable sql : string.
Variable g : SchemaGraph.

(** Modelled from the spec: the orchestrator of [validation_gauntlet.py],
    which is not among the sources; the transition rule of section 4.6.  The
    machine advances only when the current stage is valid; a failing
    stage leads to [Done] with the later stages skipped. *)
Inductive Step : State -> State -> Prop :=
| syntactic_passes r ast :
    Syntactic_Validator sql = (r, Some ast) -> valid r = true ->
    Step Syntactic (Semantic ast r)
| syntactic_fails r o :
    Syntactic_Validator sql = (r, o) -> valid r = false ->
    Step Syntactic (Done (MkReport false (Executed r) Skipped Skipped None))
| semantic_passes ast r1 r2 :
    Semantic_Validator ast g = r2 -> valid r2 = true ->
    Step (Semantic ast r1) (TrcSafety ast r1 r2)
| semantic_fails ast r1 r2 :
    Semantic_Validator ast g = r2 -> valid r2 = false ->
    Step (Semantic ast r1)
         (Done (MkReport false (Executed r1) (Executed r2) Skipped None))
| safety_runs ast r1 r2 r3 t :
    Logical_Stage ast g = (r3, t) ->
    Step (TrcSafety ast r1 r2)
         (Done (MkReport (valid r3) (Executed r1) (Executed r2) (Executed r3) t)).

(** Zero or more transitions. *)
Inductive Steps : State -> State -> Prop :=
| steps_none s : Steps s s
| steps_more s s' s'' : Step s s' -> Steps s' s'' -> Steps s s''.

(** The same rule as a function. *)
Definition step (s : State) : State :=
  match s with
  | Syntactic =>
      match Syntactic_Validator sql with
      | (r, Some ast) =>
          if valid r then Semantic ast r
          else Done (MkReport false (Executed r) Skipped Skipped None)
      | (r, None) => Done (MkReport false (Executed r) Skipped Skipped None)
      end
  | Semantic ast r1 =>
      let r2 := Semantic_Validator ast g in
      if valid r2 then TrcSafety ast r1 r2
      else Done (MkReport false (Executed r1) (Executed r2) Skipped None)
  | TrcSafety ast r1 r2 =>
      let (r3, t) := Logical_Stage ast g in
      Done (MkReport (valid r3) (Executed r1) (Executed r2) (Executed r3) t)
  | Done r => Done r
  end.

Definition report_of (s : State) : option Report :=
  match s with
  | Done r => Some r
  | _ => None
  end.

(** Modelled from the spec: the entry point of [validation_gauntlet.py],
    which is not among the sources; the Gauntlet Orchestrator.  Three
    transitions always reach [Done]. *)
Definition Gauntlet : option Report :=
  report_of (step (step (step Syntactic))).

End Invocation.

(** ** The report as the caller sees it *)

Definition executed (s : StageReport) : list StageResult :=
  match s with
  | Executed r => [r]
  | Skipped => []
  end.

(** The stages that were actually executed. *)
Definition executed_stages (r : Report) : list StageResult :=
  executed (syntactic r) ++ executed (semantic r) ++ executed (logical r).

Definition reported_valid (s : StageReport) : bool :=
  match s with
  | Executed r => valid r
  | Skipped => false
  end.

Definition syntax_error_text (e : SyntaxError) : string :=
  match e with
  | Unexpected p expected found =>
      "SyntaxError{position: " +++ show_nat p +++ ", expected: " +++ expected
        +++ ", found: " +++ found +++ "}"
  | Unsupported p construct =>
      "Unsupported{position: " +++ show_nat p +++ ", construct: "
        +++ construct +++ "}"
  | TooComplex => "SyntaxError{reason: too complex}"
  end.

Definition semantic_error_text (e : SemanticError) : string :=
  match e with
  | UnknownTable n => "UnknownTable{" +++ n +++ "}"
  | UnknownColumn n => "UnknownColumn{" +++ n +++ "}"
  | AmbiguousColumn n cs =>
      "AmbiguousColumn{" +++ n +++ ": " +++ String.concat ", " cs +++ "}"
  | TypeMismatch l r => "TypeMismatch{" +++ l +++ ", " +++ r +++ "}"
  end.

Definition logical_error_text (e : LogicalSecurityError) : string :=
  match e with
  | WriteOperationForbidden => "WriteOperationForbidden"
  | UnsupportedConstruct c => "UnsupportedConstruct{" +++ c +++ "}"
  | UnsafeFormula v => "UnsafeFormula{" +++ v +++ "}"
  | AmbiguousQuantifier v => "AmbiguousQuantifier{" +++ v +++ "}"
  end.

Definition diagnostic_text (d : Diagnostic) : string :=
  match d with
  | DSyntax e => syntax_error_text e
  | DSemantic e => semantic_error_text e
  | DLogical e => logical_error_text e
  end.

Definition stage_json (s : StageReport) : Js.JsValue :=
  match s with
  | Executed r =>
      Js.JObj [("valid", Js.JBool (valid r));
               ("errors", Js.JArr (map (fun d => Js.JStr (diagnostic_text d))
                                       (errors r)))]
  | Skipped =>
      Js.JObj [("valid", Js.JBool false);
               ("errors", Js.JArr [Js.JStr "skipped"])]
  end.

Definition trc_json (t : option Readable) : Js.JsValue :=
  match t with
  | Some r => Js.JObj [("formula_text", Js.JStr (formula_text r));
                       ("natural_language", Js.JStr (natural_language r))]
  | None => Js.JNull
  end.

Definition report_json (r : Report) : Js.JsValue :=
  Js.JObj [("overall_valid", Js.JBool (overall_valid r));
           ("syntactic", stage_json (syntactic r));
           ("semantic", stage_json (semantic r));
           ("logical", stage_json (logical r));
           ("trc", trc_json (trc r))].

(** ** The shape section 6 prescribes, stated on JSON values *)

Definition is_string (v : Js.JsValue) : bool :=
  match v with
  | Js.JStr _ => true
  | _ => false
  end.

Definition stage_shape (v : Js.JsValue) : bool :=
  match v with
  | Js.JObj [("valid", Js.JBool _); ("errors", Js.JArr es)] => forallb is_string es
  | _ => false
  end.

Definition trc_shape (v : Js.JsValue) : bool :=
  match v with
  | Js.JNull => true
  | Js.JObj [("formula_text", Js.JStr _); ("natural_language", Js.JStr _)] => true
  | _ => false
  end.

Definition report_shape (v : Js.JsValue) : bool :=
  match v with
  | Js.JObj [("overall_valid", Js.JBool _); ("syntactic", s1); ("semantic", s2);
             ("logical", s3); ("trc", t)] =>
      stage_shape s1 && stage_shape s2 && stage_shape s3 && trc_shape t
  | _ => false
  end.

(** ** Invariants of the machine *)

Definition report_ok (r : Report) : Prop :=
  (reported_valid (syntactic r) = false ->
   semantic r = Skipped /\ logical r = Skipped)
  /\ overall_valid r = forallb valid (executed_stages r).

Definition state_ok (s : State) : Prop :=
  match s with
  | Syntactic => True
  | Semantic _ r1 => valid r1 = true
  | TrcSafety _ r1 r2 => valid r1 = true /\ valid r2 = true
  | Done r => report_ok r
  end.

(** Whether the invocation gets as far as translating: the statement is
    a SELECT that passed stages 1 and 2. *)
Definition translation_ran (sql : string) (g : SchemaGraph) : bool :=
  match Syntactic_Validator sql with
  | (r1, Some (SelectStmt sel)) =>
      valid r1 && valid (Semantic_Validator (SelectStmt sel) g)
  | _ => false
  end.

(** The report of a write statement. *)
Definition write_report : Report :=
  MkReport false
    (Executed (MkStageResult true []))
    (Executed (MkStageResult true []))
    (Executed (MkStageResult false [DLogical WriteOperationForbidden]))
    None.

(** The report of a write statement whose table is not in the schema. *)
Definition unresolved_write_report (unresolved : list SemanticError) : Report :=
  MkReport false
    (Executed (MkStageResult true []))
    (Executed (MkStageResult false (map DSemantic unresolved)))
    Skipped
    None.

End Orchestrator.

(* ===================================================================== *)
(** * Range restriction, stated on the formula tree                       *)
(* ===================================================================== *)

Module RangeRestriction.
Import Trc.

(** [Conjoined v f]: a relation atom of [v] is a conjunct of [f], reached
    through conjunctions only (not under a disjunction, a negation or a
    quantifier). *)
Inductive Conjoined (v : string) : Formula -> Prop :=
| conjoined_atom t : Conjoined v (RelationAtom v t)
| conjoined_left l r : Conjoined v l -> Conjoined v (And l r)
| conjoined_right l r : Conjoined v r -> Conjoined v (And l r).

(** [Binds f around v b]: somewhere in [f] a quantifier binds [v] with
    body [b]; [around] lists the bodies of the quantifiers of [f] that
    enclose it, innermost first. *)
Inductive Binds : Formula -> list Formula -> string -> Formula -> Prop :=
| binds_exists v b : Binds (Exists v b) [] v b
| binds_forall v b : Binds (ForAll v b) [] v b
| binds_under_exists v b around x c :
    Binds b around x c -> Binds (Exists v b) (around ++ [b]) x c
| binds_under_forall v b around x c :
    Binds b around x c -> Binds (ForAll v b) (around ++ [b]) x c
| binds_and_left l r around x c : Binds l around x c -> Binds (And l r) around x c
| binds_and_right l r around x c : Binds r around x c -> Binds (And l r) around x c
| binds_or_left l r around x c : Binds l around x c -> Binds (Or l r) around x c
| binds_or_right l r around x c : Binds r around x c -> Binds (Or l r) around x c
| binds_not f around x c : Binds f around x c -> Binds (Not f) around x c.

(** A relation atom of [v] conjoined within its own scope [b] or within
    an enclosing one. *)
Definition restricted_in_scope (v : string) (b : Formula) (around : list Formula)
  : Prop :=
  Conjoined v b \/ exists e, In e around /\ Conjoined v e.

(** [Free v f]: [v] occurs in [f] outside every quantifier that binds
    it. *)
Inductive Free (v : string) : Formula -> Prop :=
| free_atom t : Free v (RelationAtom v t)
| free_compared a op o : Free v (AttrComparison v a op o)
| free_operand w a op a2 : Free v (AttrComparison w a op (OAttr v a2))
| free_and_left l r : Free v l -> Free v (And l r)
| free_and_right l r : Free v r -> Free v (And l r)
| free_or_left l r : Free v l -> Free v (Or l r)
| free_or_right l r : Free v r -> Free v (Or l r)
| free_not f : Free v f -> Free v (Not f)
| free_exists w b : v <> w -> Free v b -> Free v (Exists w b)
| free_forall w b : v <> w -> Free v b -> Free v (ForAll w b).

(** The variables a query must restrict, each with its scope: over the
    whole body the designated output variable, every variable an
    attribute of the head is read off and every variable free in the
    body; over the body of its quantifier every bound variable. *)
Inductive Scoped (q : Query) : string -> Formula -> list Formula -> Prop :=
| scoped_output : Scoped q (out_var q) (body q) []
| scoped_projected v attr :
    In (v, attr) (projection q) -> Scoped q v (body q) []
| scoped_free v : Free v (body q) -> Scoped q v (body q) []
| scoped_bound around v b :
    Binds (body q) around v b -> Scoped q v b (around ++ [body q]).

Definition range_restricted (q : Query) : Prop :=
  forall v b around, Scoped q v b around -> restricted_in_scope v b around.

End RangeRestriction.

(* ===================================================================== *)
(** * What the result view shows of a report                              *)
(* ===================================================================== *)

Module Consumer.
Import Js Gauntlet Orchestrator OutputDisplayJsx.

(** The card a stage of the report is shown as. *)
Definition panel_of (s : StageReport) : StagePanel :=
  match s with
  | Executed r =>
      MkStagePanel (valid r) (map (fun d => JStr (diagnostic_text d)) (errors r))
  | Skipped => MkStagePanel false [JStr "skipped"]
  end.

(** [o.k] of a value that is not [null] or [undefined]. *)
Definition field (o : JsValue) (k : string) : JsValue :=
  match get o k with
  | Ok v => v
  | Threw _ => JUndefined
  end.

End Consumer.

(* ===================================================================== *)
(** * Sample data                                                         *)
(* ===================================================================== *)

Module Sample.
Import Js Trc Schema Sql Gauntlet Orchestrator.

(** The schema of the scenarios:
    employees(emp_id PK, name, age, department_id FK -> departments.dept_id). *)
Definition schema : SchemaGraph :=
  [MkTable "employees"
     [MkColumn "emp_id" INTEGER false; MkColumn "name" VARCHAR false;
      MkColumn "age" INTEGER true; MkColumn "department_id" INTEGER true]
     ["emp_id"] [MkForeignKey "department_id" "departments" "dept_id"];
   MkTable "departments"
     [MkColumn "dept_id" INTEGER false; MkColumn "dept_name" VARCHAR false]
     ["dept_id"] []].

(** assignments(emp_id, project_id, hours), keyed by the pair. *)
Definition assignments : SchemaGraph :=
  [MkTable "assignments"
     [MkColumn "emp_id" INTEGER false; MkColumn "project_id" INTEGER false;
      MkColumn "hours" INTEGER true]
     ["emp_id"; "project_id"]
     [MkForeignKey "emp_id" "employees" "emp_id"]].

(** The same snapshot with the key enumerated the other way round. *)
Definition assignments_relisted : SchemaGraph :=
  [MkTable "assignments"
     [MkColumn "emp_id" INTEGER false; MkColumn "project_id" INTEGER false;
      MkColumn "hours" INTEGER true]
     ["project_id"; "emp_id"]
     [MkForeignKey "emp_id" "employees" "emp_id"]].

Definition hours_on_project_7 : string :=
  "SELECT emp_id, hours FROM assignments WHERE project_id = 7".

Definition all_clear : StageReport := Executed (MkStageResult true []).

Definition older_than_30 : string := "SELECT name FROM employees WHERE age > 30".

Definition older_than_30_formula : Formula :=
  And (RelationAtom "t0" "employees")
      (AttrComparison "t0" "age" OpGt (OValue (VNumber "30"))).

Definition older_than_30_query : Query :=
  MkQuery "t0" [("t0", "name")] older_than_30_formula.

Definition older_than_30_report : Report :=
  MkReport true all_clear all_clear all_clear
    (Some (MkReadable "{t0 | t0∈employees ∧ t0.age > 30}"
             "t0.name of the rows such that t0 is a row of employees and t0.age > 30")).

Definition truncated : string := "SELECT name FROM".

Definition truncated_report : Report :=
  MkReport false
    (Executed (MkStageResult false
                 [DSyntax (Unexpected 16 "a table name" "end of input")]))
    Skipped Skipped None.

(** "Everyone not in department 5", with the row bound to no relation. *)
Definition not_in_department_5 : Query :=
  MkQuery "t" []
    (Not (AttrComparison "t" "department_id" OpEq (OValue (VNumber "5")))).

Definition any_select : Statement := SelectStmt (MkSelect [] [] [] None []).

(** A response of /api/generate-sql as the result view expects it. *)
Definition response : JsValue :=
  JObj [("original_query", JStr "employees older than 30");
        ("sql_query", JStr older_than_30);
        ("trc_explanation",
          JObj [("trc", JStr "{t0 | t0∈employees ∧ t0.age > 30}");
                ("description", JStr "t0 is a row of employees and t0.age > 30");
                ("query", JStr "employees older than 30");
                ("sql", JStr older_than_30)]);
        ("validation_status", report_json older_than_30_report)].

(** A formatter that returns the query as it is. *)
Definition echo (q : JsValue) : Result JsValue := Ok q.

(** An axios instance whose requests all fail, and one whose requests
    all succeed. *)
Definition offline (url : string) (data : JsValue) : Result JsValue :=
  Threw (JError "AxiosError" "Network Error").

Definition online (url : string) (data : JsValue) : Result JsValue :=
  Ok (JObj [("data", JObj [("database_id", JStr "db1")]); ("status", JNum 200)]).

(** A network that answers every request with [{ ok: true }] and a body. *)
Definition answering (url : string) (databaseId : JsValue)
  (query : QueryInput.JsString) : Result QueryInput.Response :=
  Ok (QueryInput.MkResponse true (Ok response)).

End Sample.

(* ===================================================================== *)
(** * components/SchemaUpload.jsx                                         *)
(* ===================================================================== *)

Module SchemaUpload.
Import Js.

Definition JsString : Type := QueryInput.JsString.

(** A file of a FileList.  [text] is what [readAsText] hands to
    [onload]; it is [None] when the read fails, and [onload] is then
    never called. *)
Record File : Type := MkFile
  { name : string;
    type : string;
    text : option JsString }.

(** The four [useState] cells. *)
Record State : Type := MkState
  { dragActive : bool;
    schemaText : JsString;
    lowerBoundSchema : JsString;
    upperBoundSchema : JsString }.

Definition initial : State := MkState false [] [] [].

Definition setDragActive (b : bool) (s : State) : State :=
  MkState b (schemaText s) (lowerBoundSchema s) (upperBoundSchema s).

Definition setSchemaText (t : JsString) (s : State) : State :=
  MkState (dragActive s) t (lowerBoundSchema s) (upperBoundSchema s).

Definition setLowerBoundSchema (t : JsString) (s : State) : State :=
  MkState (dragActive s) (schemaText s) t (upperBoundSchema s).

Definition setUpperBoundSchema (t : JsString) (s : State) : State :=
  MkState (dragActive s) (schemaText s) (lowerBoundSchema s) t.

(** [s.endsWith(suffix)] *)
Fixpoint endsWith (suffix s : string) : bool :=
  String.eqb s suffix
  || match s with
     | EmptyString => false
     | String _ s' => endsWith suffix s'
     end.

(** handleDrag: [e.type] decides. *)
Definition handleDrag (e_type : string) (s : State) : State :=
  if String.eqb e_type "dragenter" || String.eqb e_type "dragover"
  then setDragActive true s
  else if String.eqb e_type "dragleave"
       then setDragActive false s
       else s.

(** The setter a reader's [onload] calls. *)
Inductive Setter : Type := SchemaText | LowerBound | UpperBound.

(** A [FileReader] started by a handler: the file given to
    [readAsText] and where its [onload] writes. *)
Definition Reading : Type := (Setter * File)%type.

(** handleDrop: [e.dataTransfer.files]. *)
Definition handleDrop (files : list File) (s : State) : State * option Reading :=
  let s' := setDragActive false s in
  match files with
  | file :: _ =>
      if String.eqb (type file) "text/plain" || endsWith ".sql" (name file)
      then (s', Some (SchemaText, file))
      else (s', None)
  | [] => (s', None)
  end.

(** handleFileInput, handleLowerBoundUpload, handleUpperBoundUpload:
    [e.target.files]. *)
Definition handleFileInput (files : list File) (s : State) : State * option Reading :=
  match files with
  | file :: _ => (s, Some (SchemaText, file))
  | [] => (s, None)
  end.

Definition handleLowerBoundUpload (files : list File) (s : State)
  : State * option Reading :=
  match files with
  | file :: _ => (s, Some (LowerBound, file))
  | [] => (s, None)
  end.

Definition handleUpperBoundUpload (files : list File) (s : State)
  : State * option Reading :=
  match files with
  | file :: _ => (s, Some (UpperBound, file))
  | [] => (s, None)
  end.

(** [reader.onload = (event) => set...(event.target.result)] *)
Definition onload (r : Reading) (s : State) : State :=
  match text (snd r) with
  | None => s
  | Some result =>
      match fst r with
      | SchemaText => setSchemaText result s
      | LowerBound => setLowerBoundSchema result s
      | UpperBound => setUpperBoundSchema result s
      end
  end.

(** Everything handleSubmit does to the outside. *)
Inductive Event : Type :=
| Fetch (url : string) (method : string)
        (schema_content lower_bound_schema upper_bound_schema : JsString)
| ConsoleLog (data : JsValue)
| ConsoleError (message : string)
| Navigate (path : string).

Definition Eff (A : Type) : Type := (list Event * QueryInput.Completion A)%type.

Definition pure {A} (a : A) : Eff A := ([], QueryInput.Normal a).

Definition emit (ev : Event) : Eff unit := ([ev], QueryInput.Normal tt).

Definition seq {A B} (m : Eff A) (k : A -> Eff B) : Eff B :=
  match m with
  | (t, QueryInput.Normal a) => let (t', c) := k a in (t ++ t', c)
  | (t, QueryInput.Returned) => (t, QueryInput.Returned)
  | (t, QueryInput.Thrown e) => (t, QueryInput.Thrown e)
  end.

Notation "x <== m ;; k" := (seq m (fun x => k))
  (at level 61, m at next level, right associativity).
Notation "m ;;;; k" := (seq m (fun _ => k))
  (at level 61, right associativity).

Definition await {A} (p : Result A) : Eff A :=
  match p with
  | Ok a => ([], QueryInput.Normal a)
  | Threw e => ([], QueryInput.Thrown e)
  end.

(** [try { body } catch (error) { handler }] *)
Definition try_catch (body : Eff unit) (handler : JsValue -> Eff unit) : Eff unit :=
  match body with
  | (t, QueryInput.Thrown e) => let (t', c) := handler e in (t ++ t', c)
  | other => other
  end.

Definition submit_schema_url : string := "http://localhost:8000/api/submit-schema".

Section Handler.

Variable s : State.

(** [fetch(url, init)]: what the request settles with. *)
Variable fetch : string -> JsString -> JsString -> JsString
                 -> Result QueryInput.Response.

Definition handleSubmit : Eff unit :=
  if QueryInput.truthy_string (QueryInput.trim (schemaText s)) then
    try_catch
      (emit (Fetch submit_schema_url "POST"
               (schemaText s) (lowerBoundSchema s) (upperBoundSchema s)) ;;;;
       response <== await (fetch submit_schema_url
                             (schemaText s) (lowerBoundSchema s) (upperBoundSchema s)) ;;
       if QueryInput.ok response
       then
         data <== await (QueryInput.json response) ;;
         emit (ConsoleLog data) ;;;;
         emit (Navigate "/query")
       else emit (ConsoleError "Failed to submit schema"))
      (fun error => emit (ConsoleError "Error submitting schema:"))
  else pure tt.

End Handler.

(** [disabled={!schemaText.trim()}] of the upload button. *)
Definition submit_disabled (s : State) : bool :=
  negb (QueryInput.truthy_string (QueryInput.trim (schemaText s))).

Definition is_request (ev : Event) : bool :=
  match ev with
  | Fetch _ _ _ _ _ => true
  | _ => false
  end.

Definition is_navigation (ev : Event) : bool :=
  match ev with
  | Navigate _ => true
  | _ => false
  end.

End SchemaUpload.

(* ===================================================================== *)
(** * components/QueryInput.jsx: the rest of the component                *)
(* ===================================================================== *)

Module QueryInputView.
Import Js QueryInput.

(** The code units of an ASCII text. *)
Definition units (s : string) : JsString :=
  map N_of_ascii (list_ascii_of_string s).

(** What the effect on [location.state] does. *)
Inductive Effect : Type :=
| SetDatabaseId (id : JsValue)     (* with console.log *)
| Warn.                            (* console.warn *)

(** The [useEffect] on [location.state]. *)
Definition useEffect (state : JsValue) : Result Effect :=
  id <- get_opt state "database_id" ;;
  if truthy id
  then id' <- get state "database_id" ;; Ok (SetDatabaseId id')
  else Ok Warn.

(** [databaseId] once the effect has run, from [useState(null)]. *)
Definition databaseId_after (effect : Result Effect) (before : JsValue) : JsValue :=
  match effect with
  | Ok (SetDatabaseId id) => id
  | _ => before
  end.

Definition exampleQueries : list JsString :=
  map units
    ["Show me all users who made orders in the last month";
     "Find the top 10 customers by total order amount";
     "List all products that are out of stock";
     "Get the average order value by month";
     "Show me users who haven't placed any orders"].

(** handleExampleClick: [setQuery(exampleQuery)]. *)
Definition handleExampleClick (exampleQuery : JsString) (query : JsString) : JsString :=
  exampleQuery.

(** [disabled={!query.trim() || isGenerating}] of the generate button. *)
Definition generate_disabled (query : JsString) (isGenerating : bool) : bool :=
  negb (truthy_string (trim query)) || isGenerating.

(** The [state] of [navigate('/results', { state: ... })]. *)
Definition results_state (response databaseId : JsValue) : JsValue :=
  JObj [("response", response); ("database_id", databaseId)].

End QueryInputView.

(** Whether a value is an array, so that [errors.map] is a function. *)
Definition is_array (v : Js.JsValue) : bool :=
  match v with
  | Js.JArr _ => true
  | _ => false
  end.

(* ===================================================================== *)
(** * App.jsx and the navigation between the pages                        *)
(* ===================================================================== *)

Module App.
Import Js.

Inductive Component : Type := SchemaUploadC | QueryInputC | OutputDisplayC.

(** The [<Route>] elements of [<Routes>]. *)
Definition routes : list (string * Component) :=
  [("/", SchemaUploadC); ("/query", QueryInputC); ("/results", OutputDisplayC)].

(** The element of the route whose path is [path] as written, which is
    how the literals that the components pass to [navigate] meet the
    literals of the routes. *)
Fixpoint element (path : string) (rs : list (string * Component)) : option Component :=
  match rs with
  | [] => None
  | (p, c) :: rest => if String.eqb path p then Some c else element path rest
  end.

(** [navigate(path)] and [navigate(path, { state })]: the state of the
    new location is [null] when none is given. *)
Record Location : Type := MkLocation
  { pathname : string;
    state : JsValue }.

(** [location.state?.k] *)
Definition state_field (st : JsValue) (k : string) : JsValue :=
  match get_opt st k with
  | Ok v => v
  | Threw _ => JUndefined
  end.

(** The buttons of the pages that only navigate. *)

(** SchemaUpload: "Skip to Query Input". *)
Definition skip_to_query : Location := MkLocation "/query" JNull.

(** QueryInput: "Back to Schema Upload"; OutputDisplay: the same. *)
Definition back_to_upload : Location := MkLocation "/" JNull.

(** OutputDisplay.jsx, "New Query" and "Go to Query Page":
    [navigate('/query', { state: { database_id: databaseId } })]. *)
Definition new_query (st : JsValue) : Location :=
  MkLocation "/query" (JObj [("database_id", state_field st "database_id")]).

(** The earlier revision: [navigate('/query')]. *)
Definition new_query_plain : Location := MkLocation "/query" JNull.

(** OutputDisplay: [if (!responseData)] decides between the fallback,
    which offers "Go to Query Page" only, and the results. *)
Definition shows_results (loc : Location) : bool :=
  truthy (state_field (state loc) "response").

(** What is mounted, with its [useState] cells. *)
Inductive Page : Type :=
| SchemaUploadPage (s : SchemaUpload.State)
| QueryInputPage (query : QueryInput.JsString) (isGenerating : bool)
                 (databaseId : JsValue)
| OutputDisplayPage (activeTab : OutputDisplayJsx.Tab)
| NoMatch.

(** react-router is not among the sources: which element it finds for
    a pathname is a parameter of the pages taken together.  [as_written]
    is the router that compares the pathname with the route paths as
    they are written. *)
Definition Router : Type := string -> option Component.

Definition as_written : Router := fun path => element path routes.

(** Mounting the element the router finds: initial state, then effects. *)
Definition mount_by (router : Router) (loc : Location) : Page :=
  match router (pathname loc) with
  | Some SchemaUploadC => SchemaUploadPage SchemaUpload.initial
  | Some QueryInputC =>
      QueryInputPage [] false
        (QueryInputView.databaseId_after
           (QueryInputView.useEffect (state loc)) JNull)
  | Some OutputDisplayC => OutputDisplayPage OutputDisplayJsx.TabSql
  | None => NoMatch
  end.

Definition mount : Location -> Page := mount_by as_written.

(** The browser: the current entry of the session history, the entries
    seen before it (going back or forward is recorded as one more
    entry), and the page mounted. *)
Record Browser : Type := MkBrowser
  { current : Location;
    history : list Location;
    page : Page }.

Definition visit_by (router : Router) (loc : Location) (b : Browser) : Browser :=
  MkBrowser loc (current b :: history b) (mount_by router loc).

Definition visit : Location -> Browser -> Browser := visit_by as_written.

Definition stay (p : Page) (b : Browser) : Browser :=
  MkBrowser (current b) (history b) p.

(** What the user and the network do. *)
Inductive Action : Type :=
| Open (path : string)               (* a URL typed or a link from outside *)
| Reload
| Revisit (n : nat)                  (* back or forward in the history *)
| Drag (e_type : string)
| Drop (files : list SchemaUpload.File)
| ChooseFile (files : list SchemaUpload.File)
| ChooseLowerBound (files : list SchemaUpload.File)
| ChooseUpperBound (files : list SchemaUpload.File)
| TypeSchema (value : QueryInput.JsString)
| Submit (fetch : string -> QueryInput.JsString -> QueryInput.JsString
                  -> QueryInput.JsString -> Result QueryInput.Response)
| SkipToQuery
| TypeQuery (value : QueryInput.JsString)
| ClickExample (i : nat)              (* the i-th example button *)
| Generate (fetch : string -> JsValue -> QueryInput.JsString
                    -> Result QueryInput.Response)
| BackToUpload
| SelectTab (tab : OutputDisplayJsx.Tab)
| NewQuery.

(** What reaches the outside during a step. *)
Inductive Output : Type :=
| FromSchemaUpload (ev : SchemaUpload.Event)
| FromQueryInput (ev : QueryInput.Event).

Definition navigation_of_submit (t : list SchemaUpload.Event) : option Location :=
  match find SchemaUpload.is_navigation t with
  | Some (SchemaUpload.Navigate path) => Some (MkLocation path JNull)
  | _ => None
  end.

Definition navigation_of_generate (t : list QueryInput.Event) : option Location :=
  match find QueryInput.is_navigation t with
  | Some (QueryInput.Navigate path response databaseId) =>
      Some (MkLocation path (QueryInputView.results_state response databaseId))
  | _ => None
  end.

Definition after_reading (r : SchemaUpload.State * option SchemaUpload.Reading)
  : SchemaUpload.State :=
  match snd r with
  | Some reading => SchemaUpload.onload reading (fst r)
  | None => fst r
  end.

(** One step.  A handler runs to its end within the step; an action
    that the mounted page does not offer changes nothing. *)
Definition step_by (router : Router) (a : Action) (b : Browser)
  : Browser * list Output :=
  match a, page b with
  | Open path, _ => (visit_by router (MkLocation path JNull) b, [])
  | Reload, _ => (stay (mount_by router (current b)) b, [])
  | Revisit n, _ =>
      match nth_error (history b) n with
      | Some loc => (visit_by router loc b, [])
      | None => (b, [])
      end
  | Drag e_type, SchemaUploadPage s =>
      (stay (SchemaUploadPage (SchemaUpload.handleDrag e_type s)) b, [])
  | Drop files, SchemaUploadPage s =>
      (stay (SchemaUploadPage (after_reading (SchemaUpload.handleDrop files s))) b, [])
  | ChooseFile files, SchemaUploadPage s =>
      (stay (SchemaUploadPage (after_reading (SchemaUpload.handleFileInput files s))) b, [])
  | ChooseLowerBound files, SchemaUploadPage s =>
      (stay (SchemaUploadPage
               (after_reading (SchemaUpload.handleLowerBoundUpload files s))) b, [])
  | ChooseUpperBound files, SchemaUploadPage s =>
      (stay (SchemaUploadPage
               (after_reading (SchemaUpload.handleUpperBoundUpload files s))) b, [])
  | TypeSchema value, SchemaUploadPage s =>
      (stay (SchemaUploadPage (SchemaUpload.setSchemaText value s)) b, [])
  | Submit fetch, SchemaUploadPage s =>
      if SchemaUpload.submit_disabled s then (b, [])
      else
        let t := fst (SchemaUpload.handleSubmit s fetch) in
        (match navigation_of_submit t with
         | Some loc => visit_by router loc b
         | None => b
         end, map FromSchemaUpload t)
  | SkipToQuery, SchemaUploadPage _ => (visit_by router skip_to_query b, [])
  | TypeQuery value, QueryInputPage _ g id =>
      (stay (QueryInputPage value g id) b, [])
  | ClickExample i, QueryInputPage q g id =>
      match nth_error QueryInputView.exampleQueries i with
      | Some example =>
          (stay (QueryInputPage
                   (QueryInputView.handleExampleClick example q) g id) b, [])
      | None => (b, [])
      end
  | Generate fetch, QueryInputPage q g id =>
      if QueryInputView.generate_disabled q g then (b, [])
      else
        let t := fst (QueryInput.handleGenerateSQL q id fetch) in
        (match navigation_of_generate t with
         | Some loc => visit_by router loc b
         | None => stay (QueryInputPage q (QueryInput.isGenerating_after g t) id) b
         end, map FromQueryInput t)
  | BackToUpload, QueryInputPage _ _ _ => (visit_by router back_to_upload b, [])
  | BackToUpload, OutputDisplayPage _ =>
      if shows_results (current b) then (visit_by router back_to_upload b, []) else (b, [])
  | SelectTab tab, OutputDisplayPage _ =>
      if shows_results (current b)
      then (stay (OutputDisplayPage tab) b, [])
      else (b, [])
  | NewQuery, OutputDisplayPage _ => (visit_by router (new_query (state (current b))) b, [])
  | _, _ => (b, [])
  end.

Definition step : Action -> Browser -> Browser * list Output := step_by as_written.

Fixpoint run_by (router : Router) (actions : list Action) (b : Browser)
  : Browser * list Output :=
  match actions with
  | [] => (b, [])
  | a :: rest =>
      let (b', out) := step_by router a b in
      let (b'', out') := run_by router rest b' in
      (b'', out ++ out')
  end.

Definition run : list Action -> Browser -> Browser * list Output := run_by as_written.

(** OutputDisplay.jsx, the button to the query page of a rendered view. *)
Definition go_to_query (v : OutputDisplayJsx.View) : Location :=
  MkLocation "/query"
    match v with
    | OutputDisplayJsx.NoResults st => st
    | OutputDisplayJsx.Results _ _ st => st
    end.

Definition is_open (a : Action) : bool :=
  match a with
  | Open _ => true
  | _ => false
  end.

Definition is_route (path : string) : bool :=
  match element path routes with
  | Some _ => true
  | None => false
  end.

(** Every entry of the history is on a route. *)
Definition within_routes (b : Browser) : Prop :=
  Forall (fun loc => is_route (pathname loc) = true) (current b :: history b).

(** A tab opened on [path]. *)
Definition fresh_by (router : Router) (path : string) : Browser :=
  MkBrowser (MkLocation path JNull) [] (mount_by router (MkLocation path JNull)).

Definition fresh : string -> Browser := fresh_by as_written.

Definition is_generate_request (o : Output) : bool :=
  match o with
  | FromQueryInput ev => QueryInput.is_request ev
  | _ => false
  end.

(** The location carries neither a database id nor a response. *)
Definition without_data (loc : Location) : Prop :=
  truthy (state_field (state loc) "database_id") = false
  /\ truthy (state_field (state loc) "response") = false.

Definition page_without_database_id (p : Page) : Prop :=
  match p with
  | QueryInputPage _ _ id => truthy id = false
  | _ => True
  end.

Definition no_data (b : Browser) : Prop :=
  without_data (current b)
  /\ Forall without_data (history b)
  /\ page_without_database_id (page b).

End App.

(* ===================================================================== *)
(** * Results                                                             *)
(* ===================================================================== *)

Section ApiFacts.
Import Js Api.

Lemma get_non_nullish (o : JsValue) (k : string) :
is_nullish o = false -> exists v, get o k = Ok v.
Proof.
destruct o; cbn; try discriminate; intros _; eauto;
  repeat match goal with |- context [if ?b then _ else _] => destruct b end; eauto.
Qed.



(** C8: with the request settled the way axios settles it (a response
  object, or an error object as the reason), submitSchema and
  generateSQL return response.data when the POST succeeds, throw an
  Error whose message begins with their own prefix when it fails, and
  never return a failure as a value. *)
Theorem apiService_returns_data_or_throws
(post : string -> JsValue -> Result JsValue) (payload : JsValue) :
axios_settles (post "/submit-schema" payload) ->
axios_settles (post "/generate-sql" payload) ->
(forall response, post "/submit-schema" payload = Ok response ->
   exists data, get response "data" = Ok data
                /\ submitSchema post payload = Ok data)
/\ (forall reason, post "/submit-schema" payload = Threw reason ->
      throws_with_prefix "Failed to submit schema: " (submitSchema post payload))
/\ (forall response, post "/generate-sql" payload = Ok response ->
      exists data, get response "data" = Ok data
                   /\ generateSQL post payload = Ok data)
/\ (forall reason, post "/generate-sql" payload = Threw reason ->
      throws_with_prefix "Failed to generate SQL: " (generateSQL post payload))
/\ (forall v, submitSchema post payload = Ok v ->
      exists response, post "/submit-schema" payload = Ok response
                       /\ get response "data" = Ok v)
/\ (forall v, generateSQL post payload = Ok v ->
      exists response, post "/generate-sql" payload = Ok response
                       /\ get response "data" = Ok v).
Proof.
intros H1 H2. unfold submitSchema, generateSQL.
repeat split.
- intros response E. rewrite E in *. cbn [Js.bind axios_settles] in *.
  destruct (get_non_nullish response "data" H1) as [d Ed].
  exists d. rewrite Ed. auto.
- intros reason E. rewrite E in *. cbn [Js.bind try_catch axios_settles] in *.
  destruct (get_non_nullish reason "message" H1) as [m Em].
  rewrite Em. cbn. now exists (to_string m).
- intros response E. rewrite E in *. cbn [Js.bind axios_settles] in *.
  destruct (get_non_nullish response "data" H2) as [d Ed].
  exists d. rewrite Ed. auto.
- intros reason E. rewrite E in *. cbn [Js.bind try_catch axios_settles] in *.
  destruct (get_non_nullish reason "message" H2) as [m Em].
  rewrite Em. cbn. now exists (to_string m).
- intros v. destruct (post "/submit-schema" payload) as [response | reason] eqn:E;
    cbn [Js.bind try_catch].
  + destruct (get response "data") as [d | e] eqn:Ed; cbn [try_catch].
    * intros H. inversion H; subst. eauto.
    * destruct (get e "message"); cbn; discriminate.
  + destruct (get reason "message"); cbn; discriminate.
- intros v. destruct (post "/generate-sql" payload) as [response | reason] eqn:E;
    cbn [Js.bind try_catch].
  + destruct (get response "data") as [d | e] eqn:Ed; cbn [try_catch].
    * intros H. inversion H; subst. eauto.
    * destruct (get e "message"); cbn; discriminate.
  + destruct (get reason "message"); cbn; discriminate.
Qed.

Lemma apiService_returns_data_or_throws_witness :
axios_settles (Sample.offline "/submit-schema" JNull)
/\ axios_settles (Sample.online "/generate-sql" JNull)
/\ throws_with_prefix "Failed to submit schema: "
     (submitSchema Sample.offline JNull)
/\ exists data, generateSQL Sample.online JNull = Ok data.
Proof.
split; [reflexivity | split; [reflexivity | split]].
- exact (proj1 (proj2 (apiService_returns_data_or_throws
                         Sample.offline JNull eq_refl eq_refl))
           _ eq_refl).
- destruct (proj1 (proj2 (proj2 (apiService_returns_data_or_throws
                                   Sample.online JNull eq_refl eq_refl)))
              _ eq_refl) as (d & _ & E).
  exists d. exact E.
Defined.
End ApiFacts.

Section OutputDisplayFacts.
Import Js Traced.

(** C9: when the navigation state carries no response, both revisions
  of OutputDisplay return the "No Query Results Found" view, on every
  tab, and read no field of the missing response. *)
Theorem no_response_renders_fallback
(format : JsValue -> Result JsValue) (state : JsValue) (response : JsValue) :
get_opt state "response" = Ok response -> truthy response = false ->
(forall activeTab,
   exists databaseId,
     get_opt state "database_id" = Ok databaseId
     /\ OutputDisplayJsx.OutputDisplay format state activeTab
        = MkTraced [] (Ok (OutputDisplayJsx.NoResults
                             (JObj [("database_id", databaseId)]))))
/\ (forall activeTab,
      OutputDisplayPlain.OutputDisplay state activeTab
      = MkTraced [] (Ok OutputDisplayPlain.NoResults)).
Proof.
intros E F. split; intros tab.
- assert (exists d, get_opt state "database_id" = Ok d) as [d Ed].
  { unfold get_opt. destruct (is_nullish state) eqn:N; [eauto|].
    destruct state; try discriminate; cbn; eauto. }
  exists d. split; [assumption|].
  unfold OutputDisplayJsx.OutputDisplay, Traced.bind, lift.
  cbn [outcome reads]. rewrite E. cbn [outcome reads]. rewrite Ed.
  cbn [outcome reads]. rewrite F. reflexivity.
- unfold OutputDisplayPlain.OutputDisplay, Traced.bind, lift.
  cbn [outcome reads]. rewrite E. rewrite F. reflexivity.
Qed.
Lemma no_response_renders_fallback_witness :
get_opt JNull "response" = Ok JUndefined
/\ truthy JUndefined = false
/\ OutputDisplayPlain.OutputDisplay JNull OutputDisplayPlain.TabValidation
   = MkTraced [] (Ok OutputDisplayPlain.NoResults).
Proof.
split; [reflexivity | split; [reflexivity | ]].
exact (proj2 (no_response_renders_fallback Sample.echo JNull JUndefined
                eq_refl eq_refl) OutputDisplayPlain.TabValidation).
Defined.
End OutputDisplayFacts.

Section QueryInputFacts.
Import Js QueryInput.

Lemma trim_whitespace (q : JsString) :
forallb is_white_space q = true -> trim q = [].
Proof.
intros H. unfold trim, trimEnd.
assert (E : trimStart q = []).
{ induction q as [|c q IH]; [reflexivity|]. cbn in *.
  apply andb_true_iff in H as [Hc Hq]. rewrite Hc. auto. }
rewrite E. reflexivity.
Qed.

Lemma isGenerating_after_app b t1 t2 :
isGenerating_after b (t1 ++ t2) = isGenerating_after (isGenerating_after b t1) t2.
Proof.
revert b. induction t1 as [|ev t1 IH]; intros b; [reflexivity|].
destruct ev; cbn; auto.
Qed.

Lemma finally_resets (body : Eff unit) (handler : JsValue -> Eff unit) b :
isGenerating_after b
  (fst (try_catch_finally body handler (emit (SetIsGenerating false)))) = false.
Proof.
unfold try_catch_finally, emit.
destruct body as [t c].
destruct c as [u | | e]; try (cbn; rewrite isGenerating_after_app; reflexivity).
destruct (handler e) as [t' c']. cbn. rewrite isGenerating_after_app. reflexivity.
Qed.

Lemma finally_completes (body : Eff unit) (handler : JsValue -> Eff unit)
(ev : Event) (e : JsValue) :
(forall x, snd (handler x) <> Thrown e) ->
snd (try_catch_finally body handler (emit ev)) <> Thrown e.
Proof.
intros H. unfold try_catch_finally, emit.
destruct body as [t [u | | x]]; cbn; try discriminate.
specialize (H x). destruct (handler x) as [t' c']. cbn in *. exact H.
Qed.

(** C10: handleGenerateSQL issues no request and no navigation when the
  query is empty or whitespace only or no databaseId is set; whenever
  it sets isGenerating to true, isGenerating is false once the handler
  is through, however the request ended; and the handler itself never
  ends by throwing. *)
Theorem handleGenerateSQL_guards_and_resets
(query : JsString) (databaseId : JsValue)
(fetch : string -> JsValue -> JsString -> Result Response) :
let trace := fst (handleGenerateSQL query databaseId fetch) in
(forallb is_white_space query = true \/ truthy databaseId = false ->
 existsb is_request trace = false /\ existsb is_navigation trace = false)
/\ (forall before, starts_generating trace = true ->
      isGenerating_after before trace = false)
/\ (forall e, snd (handleGenerateSQL query databaseId fetch) <> Thrown e).
Proof.
cbn zeta. unfold handleGenerateSQL.
destruct (truthy_string (trim query)) eqn:T; cbn [negb].
2: { repeat split; cbn; intros; try discriminate; auto. }
split; [ | split].
- intros [W | D].
  + rewrite (trim_whitespace _ W) in T. discriminate.
  + rewrite D. cbn. auto.
- intros before _.
  unfold seq at 1. cbn [emit].
  match goal with
  | |- context [try_catch_finally ?b ?h ?f] =>
      pose proof (finally_resets b h true) as R;
      destruct (try_catch_finally b h f) as [t c]
  end.
  cbn in *. exact R.
- intros e.
  unfold seq at 1. cbn [emit].
  match goal with
  | |- context [try_catch_finally ?b ?h ?f] =>
      assert (snd (try_catch_finally b h f) <> Thrown e) as R
  end.
  { apply finally_completes. intros x. cbn. discriminate. }
  match goal with
  | |- context [try_catch_finally ?b ?h ?f] =>
      destruct (try_catch_finally b h f) as [t c]
  end.
  cbn in *. exact R.
Qed.
Lemma handleGenerateSQL_guards_and_resets_witness :
forallb is_white_space [32; 9; 160]%N = true
/\ existsb is_request
     (fst (handleGenerateSQL [32; 9; 160]%N (JStr "db1") Sample.answering)) = false
/\ starts_generating
     (fst (handleGenerateSQL [97]%N (JStr "db1") Sample.answering)) = true
/\ isGenerating_after true
     (fst (handleGenerateSQL [97]%N (JStr "db1") Sample.answering)) = false.
Proof.
split; [reflexivity | split; [ | split; [reflexivity | ]]].
- exact (proj1 (proj1 (handleGenerateSQL_guards_and_resets
                         [32; 9; 160]%N (JStr "db1") Sample.answering)
                  (or_introl eq_refl))).
- exact (proj1 (proj2 (handleGenerateSQL_guards_and_resets
                         [97]%N (JStr "db1") Sample.answering))
           true eq_refl).
Defined.
End QueryInputFacts.

Section RoundTrip.
Import Text Trc.

Lemma append_assoc (a b c : string) : (a +++ b) +++ c = a +++ b +++ c.
Proof. induction a as [|x a IH]; simpl; [reflexivity | now rewrite IH]. Qed.

Lemma append_nil_r (a : string) : a +++ EmptyString = a.
Proof. induction a as [|x a IH]; simpl; [reflexivity | now rewrite IH]. Qed.

Lemma length_append (a b : string) :
String.length (a +++ b) = String.length a + String.length b.
Proof. induction a as [|x a IH]; simpl; [reflexivity | now rewrite IH]. Qed.

Lemma strip_prefix_app (p s : string) : strip_prefix p (p +++ s) = Some s.
Proof.
induction p as [|c p IH]; simpl; [reflexivity|].
now rewrite Ascii.eqb_refl.
Qed.



Lemma span_app (p : ascii -> bool) (s rest : string) :
all_chars p s = true -> stops p rest -> span p (s +++ rest) = (s, rest).
Proof.
induction s as [|c s IH]; simpl; intros Hs Hr.
- destruct rest as [|d rest]; simpl in *; [reflexivity | now rewrite Hr].
- apply andb_true_iff in Hs as [Hc Hs]. rewrite Hc, IH; auto.
Qed.

Lemma clean_ident rest : clean rest -> stops is_ident_char rest.
Proof. destruct rest; simpl; tauto. Qed.

Lemma clean_number rest : clean rest -> stops is_number_char rest.
Proof. destruct rest; simpl; tauto. Qed.

Lemma read_ident_app (v rest : string) :
wf_ident v = true -> stops is_ident_char rest ->
read_ident (v +++ rest) = Some (v, rest).
Proof.
destruct v as [|c v]; simpl; [discriminate|].
intros H Hr. apply andb_true_iff in H as [Hc Hv].
rewrite Hc. unfold is_ident_char at 1. rewrite Hc. simpl.
now rewrite span_app.
Qed.

Lemma ident_start_first (v rest : string) :
wf_ident v = true ->
exists c s, v +++ rest = String c s /\ is_ident_start c = true.
Proof.
destruct v as [|c v]; simpl; [discriminate|]. intros H.
apply andb_true_iff in H as [Hc _]. eauto.
Qed.

Lemma strip_prefix_mismatch (d : ascii) (p : string) (c : ascii) (s : string) :
Ascii.eqb d c = false -> strip_prefix (String d p) (String c s) = None.
Proof. simpl. now intros ->. Qed.

Lemma ident_start_not (c d : ascii) :
is_ident_start c = true -> is_ident_start d = false -> Ascii.eqb d c = false.
Proof.
intros Hc Hd. destruct (Ascii.eqb_spec d c); [congruence | reflexivity].
Qed.

Lemma read_op_app (op : CmpOp) (rest : string) :
read_op (op_text op +++ " " +++ rest) = Some (op, " " +++ rest).
Proof. destruct op; reflexivity. Qed.

Lemma no_dot rest : clean rest -> strip_prefix "." rest = None.
Proof.
destruct rest as [|c rest]; [reflexivity|]. intros [_ Hn].
unfold is_number_char in Hn. apply orb_false_iff in Hn as [_ Hn].
rewrite Ascii.eqb_sym in Hn. cbn [strip_prefix]. now rewrite Hn.
Qed.

Lemma read_operand_app (o : Operand) (rest : string) :
wf_operand o = true -> clean rest ->
read_operand (operand_text o +++ rest) = Some (o, rest).
Proof.
intros Hwf Hr. destruct o as [[text|s|[]]|var attr]; simpl in Hwf.
- destruct text as [|c text]; [discriminate|].
  apply andb_true_iff in Hwf as [Hc Ht].
  cbn [operand_text value_text append read_operand].
  assert (Hq : is_quote c = false).
  { unfold is_quote. destruct (Ascii.eqb_spec c "'"); [subst; discriminate | reflexivity]. }
  rewrite Hq, Hc.
  change (String c (text +++ rest)) with (String c text +++ rest).
  rewrite span_app; auto using clean_number.
  simpl. unfold is_number_char at 1. now rewrite Hc.
- cbn [operand_text value_text]. simpl.
  rewrite append_assoc, span_app; auto. simpl. reflexivity.
- pose proof (read_ident_app "TRUE" rest eq_refl (clean_ident _ Hr)) as E.
  pose proof (no_dot rest Hr) as D.
  cbn [operand_text value_text].
  change (read_operand ("TRUE" +++ rest)) with
    (match read_ident ("TRUE" +++ rest) with
     | None => None
     | Some (w, r) =>
         match strip_prefix "." r with
         | Some r1 =>
             match read_ident r1 with
             | Some (a, r2) => Some (OAttr w a, r2)
             | None => None
             end
         | None =>
             if String.eqb w "TRUE" then Some (OValue (VBool true), r)
             else if String.eqb w "FALSE" then Some (OValue (VBool false), r)
             else None
         end
     end).
  rewrite E, D. reflexivity.
- pose proof (read_ident_app "FALSE" rest eq_refl (clean_ident _ Hr)) as E.
  pose proof (no_dot rest Hr) as D.
  cbn [operand_text value_text].
  change (read_operand ("FALSE" +++ rest)) with
    (match read_ident ("FALSE" +++ rest) with
     | None => None
     | Some (w, r) =>
         match strip_prefix "." r with
         | Some r1 =>
             match read_ident r1 with
             | Some (a, r2) => Some (OAttr w a, r2)
             | None => None
             end
         | None =>
             if String.eqb w "TRUE" then Some (OValue (VBool true), r)
             else if String.eqb w "FALSE" then Some (OValue (VBool false), r)
             else None
         end
     end).
  rewrite E, D. reflexivity.
- apply andb_true_iff in Hwf as [Hv Ha].
  cbn [operand_text]. rewrite !append_assoc.
  destruct (ident_start_first var ("." +++ attr +++ rest) Hv) as (c & s & E & Hc).
  unfold read_operand. rewrite E.
  assert (Hq : is_quote c = false).
  { unfold is_quote. destruct (Ascii.eqb_spec c "'"); [subst; discriminate | reflexivity]. }
  assert (Hd : is_digit c = false).
  { destruct (is_digit c) eqn:D; [|reflexivity].
    unfold is_ident_start, is_digit in *.
    apply andb_true_iff in D as [D1 D2].
    apply Nat.leb_le in D1. apply Nat.leb_le in D2.
    repeat (apply orb_true_iff in Hc as [Hc|Hc]).
    - apply andb_true_iff in Hc as [H1 H2]. apply Nat.leb_le in H1. lia.
    - apply andb_true_iff in Hc as [H1 H2]. apply Nat.leb_le in H1. lia.
    - apply Nat.eqb_eq in Hc. lia. }
  rewrite Hq, Hd, <- E.
  rewrite read_ident_app by (auto; reflexivity).
  rewrite strip_prefix_app.
  rewrite read_ident_app; auto using clean_ident.
Qed.

Lemma read_atom_rel (v t rest : string) :
wf_ident v = true -> wf_ident t = true -> clean rest ->
read_atom (symbolic (RelationAtom v t) +++ rest) = Some (RelationAtom v t, rest).
Proof.
intros Hv Ht Hr. cbn [symbolic]. rewrite !append_assoc.
unfold read_atom.
rewrite read_ident_app by (auto; reflexivity).
rewrite strip_prefix_app.
rewrite read_ident_app; auto using clean_ident.
Qed.

Lemma read_atom_cmp (v a : string) (op : CmpOp) (o : Operand) (rest : string) :
wf_ident v = true -> wf_ident a = true -> wf_operand o = true -> clean rest ->
read_atom (symbolic (AttrComparison v a op o) +++ rest)
= Some (AttrComparison v a op o, rest).
Proof.
intros Hv Ha Ho Hr. cbn [symbolic]. rewrite !append_assoc.
unfold read_atom.
rewrite read_ident_app by (auto; reflexivity).
change (strip_prefix "∈" ("." +++ a +++ " " +++ op_text op +++ " " +++ operand_text o +++ rest)) with (@None string).
rewrite strip_prefix_app.
rewrite read_ident_app by (auto; reflexivity).
rewrite strip_prefix_app, read_op_app, strip_prefix_app.
now rewrite read_operand_app.
Qed.

Lemma read_term_eq (fuel : nat) (s : string) :
read_term (S fuel) s =
match strip_prefix "(" s with
| Some s1 =>
    match read_formula fuel s1 with
    | Some (f, s2) =>
        match strip_prefix ")" s2 with
        | Some s3 => Some (f, s3)
        | None => None
        end
    | None => None
    end
| None =>
match strip_prefix "¬(" s with
| Some s1 =>
    match read_formula fuel s1 with
    | Some (f, s2) =>
        match strip_prefix ")" s2 with
        | Some s3 => Some (Not f, s3)
        | None => None
        end
    | None => None
    end
| None =>
match strip_prefix "∃" s with
| Some s1 => read_binder fuel Exists s1
| None =>
match strip_prefix "∀" s with
| Some s1 => read_binder fuel ForAll s1
| None => read_atom s
end end end end.
Proof. reflexivity. Qed.

Lemma read_binder_eq (fuel : nat) mk (s : string) :
read_binder (S fuel) mk s =
match read_ident s with
| None => None
| Some (v, s1) =>
    match strip_prefix " (" s1 with
    | None => None
    | Some s2 =>
        match read_formula fuel s2 with
        | Some (f, s3) =>
            match strip_prefix ")" s3 with
            | Some s4 => Some (mk v f, s4)
            | None => None
            end
        | None => None
        end
    end
end.
Proof. reflexivity. Qed.

Lemma read_formula_eq (fuel : nat) (s : string) :
read_formula (S fuel) s =
match read_term fuel s with
| Some (x, s1) => read_chain fuel NoChain x s1
| None => None
end.
Proof. reflexivity. Qed.

Lemma read_chain_eq (fuel : nat) c acc (s : string) :
read_chain (S fuel) c acc s =
match strip_prefix " ∧ " s with
| Some s1 =>
    if continues_and c then
      match read_term fuel s1 with
      | Some (y, s2) => read_chain fuel AndChain (And acc y) s2
      | None => None
      end
    else Some (acc, s)
| None =>
match strip_prefix " ∨ " s with
| Some s1 =>
    if continues_or c then
      match read_term fuel s1 with
      | Some (y, s2) => read_chain fuel OrChain (Or acc y) s2
      | None => None
      end
    else Some (acc, s)
| None => Some (acc, s)
end end.
Proof. reflexivity. Qed.


Lemma read_mono (fuel : nat) :
(forall s r, read_term fuel s = Some r ->
   forall fuel', fuel <= fuel' -> read_term fuel' s = Some r)
/\ (forall mk s r, read_binder fuel mk s = Some r ->
   forall fuel', fuel <= fuel' -> read_binder fuel' mk s = Some r)
/\ (forall s r, read_formula fuel s = Some r ->
   forall fuel', fuel <= fuel' -> read_formula fuel' s = Some r)
/\ (forall c acc s r, read_chain fuel c acc s = Some r ->
   forall fuel', fuel <= fuel' -> read_chain fuel' c acc s = Some r).
Proof.
induction fuel as [|fuel (IHt & IHb & IHf & IHc)].
- repeat split; intros; discriminate.
- repeat split.
  + intros s r H [|fuel'] Hle; [lia|]. apply le_S_n in Hle.
    rewrite read_term_eq in H |- *.
    destruct (strip_prefix "(" s) as [s1 | ].
    { destruct (read_formula fuel s1) as [[f s2] | ] eqn:E; [ | discriminate].
      rewrite (IHf _ _ E _ Hle). exact H. }
    destruct (strip_prefix "¬(" s) as [s1 | ].
    { destruct (read_formula fuel s1) as [[f s2] | ] eqn:E; [ | discriminate].
      rewrite (IHf _ _ E _ Hle). exact H. }
    destruct (strip_prefix "∃" s) as [s1 | ].
    { eapply IHb; eauto. }
    destruct (strip_prefix "∀" s) as [s1 | ].
    { eapply IHb; eauto. }
    exact H.
  + intros mk s r H [|fuel'] Hle; [lia|]. apply le_S_n in Hle.
    rewrite read_binder_eq in H |- *.
    destruct (read_ident s) as [[v s1] | ]; [ | discriminate].
    destruct (strip_prefix " (" s1) as [s2 | ]; [ | discriminate].
    destruct (read_formula fuel s2) as [[f s3] | ] eqn:E; [ | discriminate].
    rewrite (IHf _ _ E _ Hle). exact H.
  + intros s r H [|fuel'] Hle; [lia|]. apply le_S_n in Hle.
    rewrite read_formula_eq in H |- *.
    destruct (read_term fuel s) as [[x s1] | ] eqn:E; [ | discriminate].
    rewrite (IHt _ _ E _ Hle). eauto.
  + intros c acc s r H [|fuel'] Hle; [lia|]. apply le_S_n in Hle.
    rewrite read_chain_eq in H |- *.
    destruct (strip_prefix " ∧ " s) as [s1 | ].
    * destruct (continues_and c); [ | assumption].
      destruct (read_term fuel s1) as [[y s2] | ] eqn:E; [ | discriminate].
      rewrite (IHt _ _ E _ Hle). eauto.
    * destruct (strip_prefix " ∨ " s) as [s1 | ]; [ | assumption].
      destruct (continues_or c); [ | assumption].
      destruct (read_term fuel s1) as [[y s2] | ] eqn:E; [ | discriminate].
      rewrite (IHt _ _ E _ Hle). eauto.
Qed.



Lemma need_pos (f : Formula) : 1 <= need f.
Proof. destruct f; simpl; lia. Qed.

Lemma dispatch_ident (v r : string) :
wf_ident v = true ->
strip_prefix "(" (v +++ r) = None /\ strip_prefix "¬(" (v +++ r) = None
/\ strip_prefix "∃" (v +++ r) = None /\ strip_prefix "∀" (v +++ r) = None.
Proof.
intros Hv. destruct (ident_start_first v r Hv) as (c & s & -> & Hc).
repeat split; apply strip_prefix_mismatch;
  apply (ident_start_not c _ Hc); reflexivity.
Qed.

Lemma read_term_atom (f : Formula) (v r rest : string) (fuel : nat) :
wf_ident v = true -> symbolic f +++ rest = v +++ r ->
read_term (S fuel) (symbolic f +++ rest) = read_atom (symbolic f +++ rest).
Proof.
intros Hv E. rewrite read_term_eq, E.
destruct (dispatch_ident v r Hv) as (-> & -> & -> & ->). reflexivity.
Qed.

Lemma read_chain_stop (fuel : nat) (c : Chain) (acc : Formula) (rest : string) :
strip_prefix " " rest = None ->
read_chain (S fuel) c acc rest = Some (acc, rest).
Proof.
intros H. rewrite read_chain_eq.
destruct rest as [|d rest]; [reflexivity|].
cbn [strip_prefix] in *. destruct (Ascii.eqb " " d); [discriminate | reflexivity].
Qed.

Lemma read_chain_needs_fuel m c acc rest res :
read_chain m c acc rest = Some res -> 1 <= m.
Proof. destruct m; [discriminate | lia]. Qed.

Lemma clean_space s : clean (" " +++ s).
Proof. split; reflexivity. Qed.

Lemma clean_close s : clean (")" +++ s).
Proof. split; reflexivity. Qed.



(** An operand that is no chain: reading it as a formula is reading it
  as a term and going on with the chain. *)
Lemma reads_formula_of_term (f : Formula) :
is_binary f = false -> reads_term f -> reads_formula f.
Proof.
intros Hb HT rest m res fuel Hr Hc Hf.
pose proof (read_chain_needs_fuel _ _ _ _ _ Hc) as Hm.
destruct fuel as [|fuel]; [lia|].
rewrite read_formula_eq.
specialize (HT rest fuel Hr).
unfold need_term, wrap_right in HT. rewrite Hb in HT.
rewrite HT by lia.
assert (root f = NoChain) as <- by (destruct f; try reflexivity; discriminate).
pose proof (need_pos f).
eapply (proj2 (proj2 (proj2 (read_mono m)))); eauto. lia.
Qed.

(** A bracketed chain is a term. *)
Lemma reads_term_of_formula (f : Formula) :
is_binary f = true -> reads_formula f -> reads_term f.
Proof.
intros Hb HF rest fuel Hr Hf.
unfold need_term, wrap_right in *. rewrite Hb in *.
destruct fuel as [|fuel]; [lia|].
unfold group. rewrite !append_assoc.
rewrite read_term_eq, strip_prefix_app.
rewrite (HF (")" +++ rest) 1 (f, ")" +++ rest));
  [ now rewrite strip_prefix_app | apply clean_close
  | now apply read_chain_stop | lia ].
Qed.

Lemma left_operand_and (l : Formula) :
(is_binary l = true /\ wrap_left_and l (symbolic l) = wrap_right l (symbolic l))
\/ (continues_and (root l) = true /\ wrap_left_and l (symbolic l) = symbolic l).
Proof. destruct l; simpl; auto. Qed.

Lemma left_operand_or (l : Formula) :
(is_binary l = true /\ wrap_left_or l (symbolic l) = wrap_right l (symbolic l))
\/ (continues_or (root l) = true /\ wrap_left_or l (symbolic l) = symbolic l).
Proof. destruct l; simpl; auto. Qed.

Lemma read_back (f : Formula) :
wf_formula f = true -> reads_term f /\ reads_formula f.
Proof.
induction f as [v t | v a op o | l IHl r IHr | l IHl r IHr | g IHg
               | v b IHb | v b IHb]; cbn [wf_formula]; intros Hwf.
- (* RelationAtom *)
  apply andb_true_iff in Hwf as [Hv Ht].
  assert (HT : reads_term (RelationAtom v t)).
  { intros rest [|fuel] Hr Hf; [cbv in Hf; lia|].
    cbn [wrap_right is_binary].
    rewrite (read_term_atom _ v ("∈" +++ t +++ rest)); auto.
    - now apply read_atom_rel.
    - cbn [symbolic]. now rewrite !append_assoc. }
  split; [exact HT | now apply reads_formula_of_term].
- (* AttrComparison *)
  apply andb_true_iff in Hwf as [Hwf Ho].
  apply andb_true_iff in Hwf as [Hv Ha].
  assert (HT : reads_term (AttrComparison v a op o)).
  { intros rest [|fuel] Hr Hf; [cbv in Hf; lia|].
    cbn [wrap_right is_binary].
    rewrite (read_term_atom _ v
               ("." +++ a +++ " " +++ op_text op +++ " " +++ operand_text o +++ rest)); auto.
    - now apply read_atom_cmp.
    - cbn [symbolic]. now rewrite !append_assoc. }
  split; [exact HT | now apply reads_formula_of_term].
- (* And *)
  apply andb_true_iff in Hwf as [Hl Hr].
  destruct (IHl Hl) as [HTl HFl]. destruct (IHr Hr) as [HTr HFr].
  assert (HF : reads_formula (And l r)).
  { intros rest m res fuel Hc Hch Hf. cbn [symbolic need root] in *.
    rewrite !append_assoc.
    assert (Hstep : forall k, m <= k -> need_term r <= k ->
              read_chain (S k) AndChain l
                (" ∧ " +++ wrap_right r (symbolic r) +++ rest) = Some res
              /\ read_chain (S k) NoChain l
                (" ∧ " +++ wrap_right r (symbolic r) +++ rest) = Some res).
    { intros k Hk1 Hk2. rewrite !read_chain_eq, strip_prefix_app.
      cbn [continues_and]. rewrite HTr by auto.
      split; eapply (proj2 (proj2 (proj2 (read_mono m)))); eauto. }
    assert (Hnt : need_term r <= need r + 2)
      by (unfold need_term; destruct (is_binary r); lia).
    destruct (left_operand_and l) as [[Hb ->] | [Hco ->]].
    - destruct fuel as [|[|fuel]]; try lia.
      rewrite read_formula_eq.
      rewrite HTl; [ | apply clean_space
                     | unfold need_term; rewrite Hb; lia].
      apply Hstep; lia.
    - apply (HFl _ (S (m + need r + 2))); [apply clean_space | | lia].
      destruct (root l); try discriminate Hco;
        apply Hstep; lia. }
  split; [now apply reads_term_of_formula | exact HF].
- (* Or *)
  apply andb_true_iff in Hwf as [Hl Hr].
  destruct (IHl Hl) as [HTl HFl]. destruct (IHr Hr) as [HTr HFr].
  assert (HF : reads_formula (Or l r)).
  { intros rest m res fuel Hc Hch Hf. cbn [symbolic need root] in *.
    rewrite !append_assoc.
    assert (Hstep : forall k, m <= k -> need_term r <= k ->
              read_chain (S k) OrChain l
                (" ∨ " +++ wrap_right r (symbolic r) +++ rest) = Some res
              /\ read_chain (S k) NoChain l
                (" ∨ " +++ wrap_right r (symbolic r) +++ rest) = Some res).
    { intros k Hk1 Hk2. rewrite !read_chain_eq.
      change (strip_prefix " ∧ " (" ∨ " +++ wrap_right r (symbolic r) +++ rest))
        with (@None string).
      rewrite strip_prefix_app.
      cbn [continues_or]. rewrite HTr by auto.
      split; eapply (proj2 (proj2 (proj2 (read_mono m)))); eauto. }
    assert (Hnt : need_term r <= need r + 2)
      by (unfold need_term; destruct (is_binary r); lia).
    destruct (left_operand_or l) as [[Hb ->] | [Hco ->]].
    - destruct fuel as [|[|fuel]]; try lia.
      rewrite read_formula_eq.
      rewrite HTl; [ | apply clean_space
                     | unfold need_term; rewrite Hb; lia].
      apply Hstep; lia.
    - apply (HFl _ (S (m + need r + 2))); [apply clean_space | | lia].
      destruct (root l); try discriminate Hco;
        apply Hstep; lia. }
  split; [now apply reads_term_of_formula | exact HF].
- (* Not *)
  destruct (IHg Hwf) as [HTg HFg].
  assert (HT : reads_term (Not g)).
  { intros rest fuel Hr Hf.
    unfold need_term in Hf. cbn [wrap_right is_binary symbolic need] in *.
    destruct fuel as [|fuel]; [lia|].
    unfold group. rewrite !append_assoc.
    rewrite read_term_eq.
    change (strip_prefix "(" ("¬" +++ "(" +++ symbolic g +++ ")" +++ rest))
      with (@None string).
    change ("¬" +++ "(" +++ symbolic g +++ ")" +++ rest)
      with ("¬(" +++ symbolic g +++ ")" +++ rest).
    rewrite strip_prefix_app.
    rewrite (HFg (")" +++ rest) 1 (g, ")" +++ rest));
      [ now rewrite strip_prefix_app | apply clean_close
      | now apply read_chain_stop | lia ]. }
  split; [exact HT | now apply reads_formula_of_term].
- (* Exists *)
  apply andb_true_iff in Hwf as [Hv Hb].
  destruct (IHb Hb) as [HTb HFb].
  assert (HT : reads_term (Exists v b)).
  { intros rest fuel Hr Hf.
    unfold need_term in Hf. cbn [wrap_right is_binary symbolic need] in *.
    destruct fuel as [|[|fuel]]; try lia.
    unfold group. rewrite !append_assoc.
    rewrite read_term_eq.
    change (strip_prefix "(" ("∃" +++ v +++ " " +++ "(" +++ symbolic b +++ ")" +++ rest))
      with (@None string).
    change (strip_prefix "¬(" ("∃" +++ v +++ " " +++ "(" +++ symbolic b +++ ")" +++ rest))
      with (@None string).
    rewrite strip_prefix_app, read_binder_eq.
    rewrite read_ident_app by (auto; reflexivity).
    change (" " +++ "(" +++ symbolic b +++ ")" +++ rest)
      with (" (" +++ symbolic b +++ ")" +++ rest).
    rewrite strip_prefix_app.
    rewrite (HFb (")" +++ rest) 1 (b, ")" +++ rest));
      [ now rewrite strip_prefix_app | apply clean_close
      | now apply read_chain_stop | lia ]. }
  split; [exact HT | now apply reads_formula_of_term].
- (* ForAll *)
  apply andb_true_iff in Hwf as [Hv Hb].
  destruct (IHb Hb) as [HTb HFb].
  assert (HT : reads_term (ForAll v b)).
  { intros rest fuel Hr Hf.
    unfold need_term in Hf. cbn [wrap_right is_binary symbolic need] in *.
    destruct fuel as [|[|fuel]]; try lia.
    unfold group. rewrite !append_assoc.
    rewrite read_term_eq.
    change (strip_prefix "(" ("∀" +++ v +++ " " +++ "(" +++ symbolic b +++ ")" +++ rest))
      with (@None string).
    change (strip_prefix "¬(" ("∀" +++ v +++ " " +++ "(" +++ symbolic b +++ ")" +++ rest))
      with (@None string).
    change (strip_prefix "∃" ("∀" +++ v +++ " " +++ "(" +++ symbolic b +++ ")" +++ rest))
      with (@None string).
    rewrite strip_prefix_app, read_binder_eq.
    rewrite read_ident_app by (auto; reflexivity).
    change (" " +++ "(" +++ symbolic b +++ ")" +++ rest)
      with (" (" +++ symbolic b +++ ")" +++ rest).
    rewrite strip_prefix_app.
    rewrite (HFb (")" +++ rest) 1 (b, ")" +++ rest));
      [ now rewrite strip_prefix_app | apply clean_close
      | now apply read_chain_stop | lia ]. }
  split; [exact HT | now apply reads_formula_of_term].
Qed.

Lemma need_le_length (f : Formula) : need f <= 2 * String.length (symbolic f).
Proof.
induction f; cbn [need symbolic]; unfold group;
  repeat rewrite length_append; cbn [String.length]; try lia.
- assert (String.length (symbolic f1) <= String.length (wrap_left_and f1 (symbolic f1)))
    by (destruct f1; cbn [wrap_left_and]; unfold group;
        repeat rewrite length_append; cbn [String.length]; lia).
  assert (String.length (symbolic f2) <= String.length (wrap_right f2 (symbolic f2)))
    by (unfold wrap_right, group; destruct (is_binary f2);
        repeat rewrite length_append; cbn [String.length]; lia).
  lia.
- assert (String.length (symbolic f1) <= String.length (wrap_left_or f1 (symbolic f1)))
    by (destruct f1; cbn [wrap_left_or]; unfold group;
        repeat rewrite length_append; cbn [String.length]; lia).
  assert (String.length (symbolic f2) <= String.length (wrap_right f2 (symbolic f2)))
    by (unfold wrap_right, group; destruct (is_binary f2);
        repeat rewrite length_append; cbn [String.length]; lia).
  lia.
Qed.

Lemma read_formula_symbolic (f : Formula) (rest : string) (fuel : nat) :
wf_formula f = true -> clean rest -> strip_prefix " " rest = None ->
1 + need f <= fuel ->
read_formula fuel (symbolic f +++ rest) = Some (f, rest).
Proof.
intros Hwf Hr Hs Hf.
apply (proj2 (read_back f Hwf) rest 1); auto.
now apply read_chain_stop.
Qed.

Lemma symbolic_round_trip (f : Formula) :
wf_formula f = true -> parse_symbolic (symbolic f) = Some f.
Proof.
intros Hwf. unfold parse_symbolic.
pose proof (need_le_length f).
rewrite <- (append_nil_r (symbolic f)) at 2.
rewrite read_formula_symbolic; auto; cbn; auto; lia.
Qed.

Lemma read_attrs_app (attrs : list (string * string)) (rest : string) (fuel : nat) :
attrs <> [] ->
forallb (fun p => wf_ident (fst p) && wf_ident (snd p)) attrs = true ->
List.length attrs <= fuel ->
read_attrs fuel (attrs_text attrs +++ " | " +++ rest)
= Some (attrs, " | " +++ rest).
Proof.
revert fuel. induction attrs as [|[v a] attrs IH]; intros fuel Hne Hwf Hf;
  [congruence|].
cbn [forallb fst snd] in Hwf.
apply andb_true_iff in Hwf as [Hva Hwf].
apply andb_true_iff in Hva as [Hv Ha].
destruct fuel as [|fuel]; [simpl in Hf; lia|].
destruct attrs as [|p attrs].
- cbn [attrs_text read_attrs]. rewrite !append_assoc.
  rewrite read_ident_app by (auto; reflexivity).
  rewrite strip_prefix_app.
  rewrite read_ident_app by (auto; reflexivity).
  reflexivity.
- change (attrs_text ((v, a) :: p :: attrs))
    with (v +++ "." +++ a +++ ", " +++ attrs_text (p :: attrs)).
  cbn [read_attrs]. rewrite !append_assoc.
  rewrite read_ident_app by (auto; reflexivity).
  rewrite strip_prefix_app.
  rewrite read_ident_app by (auto; reflexivity).
  rewrite strip_prefix_app.
  rewrite IH; auto; [discriminate | simpl in *; lia].
Qed.

Lemma attrs_text_length (attrs : list (string * string)) :
List.length attrs <= String.length (attrs_text attrs).
Proof.
induction attrs as [|[v a] [|p attrs] IH].
- simpl. lia.
- cbn [attrs_text]. rewrite !length_append. simpl. lia.
- change (attrs_text ((v, a) :: p :: attrs))
    with (v +++ "." +++ a +++ ", " +++ attrs_text (p :: attrs)).
  rewrite !length_append. cbn [List.length String.length] in *. lia.
Qed.

Lemma read_head_app (q : Query) (rest : string) :
wf_query q = true ->
read_head (head_text (head_of q) +++ " | " +++ rest)
= Some (head_of q, " | " +++ rest).
Proof.
unfold wf_query. intros Hwf.
apply andb_true_iff in Hwf as [Hwf _].
apply andb_true_iff in Hwf as [Hv Hp].
unfold head_of.
destruct (forallb (fun p => String.eqb (fst p) (out_var q)) (projection q))
  eqn:Hall; cbn [head_text].
- unfold read_head. rewrite read_ident_app by (auto; reflexivity).
  reflexivity.
- assert (Hne : projection q <> []) by (intros E; rewrite E in Hall; discriminate).
  pose proof (read_attrs_app (projection q) rest
                (String.length (attrs_text (projection q) +++ " | " +++ rest))
                Hne Hp) as R.
  rewrite length_append in R. pose proof (attrs_text_length (projection q)).
  specialize (R ltac:(lia)). rewrite <- length_append in R.
  unfold read_head. rewrite R.
  destruct (projection q) as [|[v a] attrs]; [congruence|].
  cbn [forallb fst snd] in Hp.
  apply andb_true_iff in Hp as [Hva _].
  apply andb_true_iff in Hva as [Hv' Ha'].
  assert (E : exists r, attrs_text ((v, a) :: attrs) +++ " | " +++ rest
                        = v +++ "." +++ r).
  { destruct attrs as [|p attrs].
    - cbn [attrs_text]. rewrite !append_assoc. eauto.
    - change (attrs_text ((v, a) :: p :: attrs))
        with (v +++ "." +++ a +++ ", " +++ attrs_text (p :: attrs)).
      rewrite !append_assoc. eauto. }
  destruct E as [r E]. rewrite E.
  rewrite read_ident_app by (auto; reflexivity).
  rewrite strip_prefix_app. reflexivity.
Qed.




End RoundTrip.

Section SafetyFacts.
Import Text Trc Schema Sql Gauntlet Orchestrator RangeRestriction.

Lemma mem_In (v : string) (vs : list string) : mem v vs = true <-> In v vs.
Proof.
unfold mem. rewrite existsb_exists. split.
- intros (x & Hx & E). apply String.eqb_eq in E. now subst.
- intros H. exists v. split; [assumption | apply String.eqb_refl].
Qed.

Lemma restricted_by_and (l r : Formula) :
restricted_by (And l r) = restricted_by l ++ restricted_by r.
Proof. unfold restricted_by. cbn [conjoined_atoms]. apply map_app. Qed.

Lemma restricted_Conjoined (v : string) (f : Formula) :
In v (restricted_by f) <-> Conjoined v f.
Proof.
induction f; try rewrite restricted_by_and; try rewrite in_app_iff;
  try (split; [intros [] | intros H; inversion H]; fail).
- cbn. split.
  + intros [<- | []]. constructor.
  + intros H. inversion H. now left.
- rewrite IHf1, IHf2. split.
  + intros [H | H]; [now apply conjoined_left | now apply conjoined_right].
  + intros H. inversion H; subst; tauto.
Qed.

Lemma mem_Conjoined (v : string) (f : Formula) :
mem v (restricted_by f) = true <-> Conjoined v f.
Proof. rewrite mem_In. apply restricted_Conjoined. Qed.

Lemma unsafe_nil_binds (f : Formula) around v b :
Binds f around v b ->
forall env, unsafe_vars env f = [] -> Conjoined v b.
Proof.
induction 1 as [v b | v b | v b around x c HB IH | v b around x c HB IH
               | l r around x c HB IH | l r around x c HB IH
               | l r around x c HB IH | l r around x c HB IH
               | f around x c HB IH];
  intros env H; cbn [unsafe_vars] in H.
- destruct (mem v (restricted_by b)) eqn:E; [now apply mem_Conjoined | discriminate].
- destruct (mem v (restricted_by b)) eqn:E; [now apply mem_Conjoined | discriminate].
- apply app_eq_nil in H as [_ H]. eauto.
- apply app_eq_nil in H as [_ H]. eauto.
- apply app_eq_nil in H as [H _]. eauto.
- apply app_eq_nil in H as [_ H]. eauto.
- apply app_eq_nil in H as [H _]. eauto.
- apply app_eq_nil in H as [_ H]. eauto.
- apply app_eq_nil in H as [_ H]. eauto.
Qed.

Lemma unsafe_in_binds (f : Formula) around v b :
Binds f around v b -> ~ Conjoined v b ->
forall env, In v (unsafe_vars env f).
Proof.
induction 1 as [v b | v b | v b around x c HB IH | v b around x c HB IH
               | l r around x c HB IH | l r around x c HB IH
               | l r around x c HB IH | l r around x c HB IH
               | f around x c HB IH];
  intros Hn env; cbn [unsafe_vars]; rewrite in_app_iff.
- left. destruct (mem v (restricted_by b)) eqn:E;
    [apply mem_Conjoined in E; contradiction | now left].
- left. destruct (mem v (restricted_by b)) eqn:E;
    [apply mem_Conjoined in E; contradiction | now left].
- right. auto.
- right. auto.
- left. auto.
- right. auto.
- left. auto.
- right. auto.
- right. auto.
Qed.

Lemma stage_of_valid (ds : list Diagnostic) :
valid (stage_of ds) = true <-> ds = [].
Proof. destruct ds; cbn; split; congruence. Qed.

Lemma free_vars_Free (v : string) (f : Formula) :
In v (free_vars f) <-> Free v f.
Proof.
induction f as [x t | x a op o | l IHl r IHr | l IHl r IHr | g IHg
                | w b IHb | w b IHb]; cbn [free_vars].
- split.
  + intros [<- | []]. constructor.
  + intros H. inversion H; subst. now left.
- split.
  + intros [<- | H]; [constructor | ].
    destruct o as [c | y a2]; cbn in H; [contradiction | ].
    destruct H as [<- | []]. constructor.
  + intros H. inversion H; subst; [now left | right; now left].
- rewrite in_app_iff, IHl, IHr. split.
  + intros [H | H]; [now apply free_and_left | now apply free_and_right].
  + intros H. inversion H; subst; tauto.
- rewrite in_app_iff, IHl, IHr. split.
  + intros [H | H]; [now apply free_or_left | now apply free_or_right].
  + intros H. inversion H; subst; tauto.
- rewrite IHg. split.
  + intros H. now apply free_not.
  + intros H. now inversion H.
- rewrite filter_In, IHb, negb_true_iff, String.eqb_neq. split.
  + intros [H N]. now apply free_exists.
  + intros H. inversion H; subst. tauto.
- rewrite filter_In, IHb, negb_true_iff, String.eqb_neq. split.
  + intros [H N]. now apply free_forall.
  + intros H. inversion H; subst. tauto.
Qed.

(** The variables the checker looks up at the top of the body are the
    ones that are free in the query. *)
Lemma query_vars_Scoped (q : Query) (v : string) :
In v (query_vars q) <-> Scoped q v (body q) [].
Proof.
unfold query_vars. cbn [In]. rewrite in_app_iff, in_map_iff, free_vars_Free.
split.
- intros [<- | [((x & a) & <- & H) | H]].
  + constructor.
  + now apply (scoped_projected q x a).
  + now apply scoped_free.
- intros H.
  inversion H as [ | x a Hin | x Hf | around x b Hb E1 E2 E3]; subst.
  + now left.
  + right. left. now exists (v, a).
  + right. now right.
  + destruct around; discriminate.
Qed.

Lemma nodup_nil {A} (dec : forall x y : A, {x = y} + {x <> y}) (l : list A) :
nodup dec l = [] -> l = [].
Proof.
destruct l as [ | a l]; intros H; [reflexivity | ].
assert (I : In a (nodup dec (a :: l))) by (apply nodup_In; now left).
rewrite H in I. contradiction.
Qed.

Lemma range_errors_nil (q : Query) :
range_errors q = [] ->
(forall v, In v (query_vars q) -> Conjoined v (body q))
/\ unsafe_vars (restricted_by (body q)) (body q) = [].
Proof.
unfold range_errors. intros H. apply map_eq_nil in H.
apply nodup_nil in H. apply app_eq_nil in H as [H1 H2]. split; [|assumption].
intros v Hv. apply mem_Conjoined.
destruct (mem v (restricted_by (body q))) eqn:M; [reflexivity|].
assert (In v (filter (fun v => negb (mem v (restricted_by (body q))))
                (query_vars q))).
{ apply filter_In. now rewrite M. }
rewrite H1 in *. contradiction.
Qed.



End SafetyFacts.

Section OrchestratorFacts.
Import Text Trc Schema Sql Gauntlet Orchestrator.

Lemma Syntactic_Validator_passes (sql : string) r o :
Syntactic_Validator sql = (r, o) -> valid r = true -> exists ast, o = Some ast.
Proof.
unfold Syntactic_Validator.
destruct (parse sql) as [[sel | k p] | e].
- destruct (unsupported sel); intros E; inversion E; subst; cbn; [eauto | discriminate].
- intros E; inversion E; subst; eauto.
- intros E; inversion E; subst; cbn; discriminate.
Qed.

Section Machine.
Variable sql : string.
Variable g : SchemaGraph.

Lemma Step_step s s' : Step sql g s s' -> step sql g s = s'.
Proof.
intros H. destruct H as [r ast E V | r o E V | ast r1 r2 E V
                      | ast r1 r2 E V | ast r1 r2 r3 t E]; cbn [step].
- now rewrite E, V.
- rewrite E. destruct o; [now rewrite V | reflexivity].
- subst r2. now rewrite V.
- subst r2. now rewrite V.
- now rewrite E.
Qed.

Lemma step_Step s : report_of s = None -> Step sql g s (step sql g s).
Proof.
destruct s as [ | ast r1 | ast r1 r2 | r]; cbn [report_of step]; intros H.
- destruct (Syntactic_Validator sql) as [r o] eqn:E.
destruct (valid r) eqn:V.
+ destruct (Syntactic_Validator_passes _ _ _ E V) as [ast ->].
  now apply syntactic_passes.
+ destruct o; now apply (syntactic_fails _ _ _ _ E).
- destruct (valid (Semantic_Validator ast g)) eqn:V.
+ now apply semantic_passes.
+ now apply semantic_fails.
- destruct (Logical_Stage ast g) as [r3 t] eqn:E. now apply safety_runs.
- discriminate.
Qed.

Lemma Step_deterministic s a b : Step sql g s a -> Step sql g s b -> a = b.
Proof. intros Ha Hb. apply Step_step in Ha, Hb. congruence. Qed.

Lemma Done_is_final r s : ~ Step sql g (Done r) s.
Proof. intros H. inversion H. Qed.

Lemma done_in_three s : exists r, step sql g (step sql g (step sql g s)) = Done r.
Proof.
destruct s as [ | ast r1 | ast r1 r2 | r]; cbn [step].
- destruct (Syntactic_Validator sql) as [r [ast | ]]; [ | cbn; eauto].
destruct (valid r); [ | cbn; eauto]. cbn [step].
destruct (valid (Semantic_Validator ast g)); [ | cbn; eauto]. cbn [step].
destruct (Logical_Stage ast g). eauto.
- destruct (valid (Semantic_Validator ast g)); [ | cbn; eauto]. cbn [step].
destruct (Logical_Stage ast g). cbn. eauto.
- destruct (Logical_Stage ast g). cbn. eauto.
- eauto.
Qed.

Lemma Steps_report s r :
Steps sql g s (Done r) ->
report_of (step sql g (step sql g (step sql g s))) = Some r.
Proof.
intros H. remember (Done r) as d eqn:Ed.
induction H as [s | s s' s'' H1 H2 IH]; subst.
- reflexivity.
- specialize (IH eq_refl). apply Step_step in H1. subst s'.
destruct (done_in_three s) as [r' E]. rewrite E in *.
cbn [step] in IH. exact IH.
Qed.

Lemma Gauntlet_total : exists r, Gauntlet sql g = Some r.
Proof.
unfold Gauntlet. destruct (done_in_three Syntactic) as [r ->]. cbn. eauto.
Qed.

Lemma Steps_step_n s : Steps sql g s (step sql g s).
Proof.
destruct (report_of s) eqn:E.
- destruct s; try discriminate. cbn. constructor.
- econstructor; [now apply step_Step | constructor].
Qed.

Lemma Steps_trans a b c : Steps sql g a b -> Steps sql g b c -> Steps sql g a c.
Proof. induction 1; eauto using Steps. Qed.

Lemma Gauntlet_runs r : Gauntlet sql g = Some r -> Steps sql g Syntactic (Done r).
Proof.
unfold Gauntlet. intros H.
destruct (done_in_three Syntactic) as [r' E]. rewrite E in H.
inversion H; subst. rewrite <- E.
eapply Steps_trans; [apply Steps_step_n|].
eapply Steps_trans; apply Steps_step_n.
Qed.

Lemma runs_Gauntlet r : Steps sql g Syntactic (Done r) -> Gauntlet sql g = Some r.
Proof. apply Steps_report. Qed.


Lemma Step_ok s s' : Step sql g s s' -> state_ok s -> state_ok s'.
Proof.
intros H. destruct H as [r ast E V | r o E V | ast r1 r2 E V
                      | ast r1 r2 E V | ast r1 r2 r3 t E];
cbn [state_ok]; unfold report_ok, executed_stages;
cbn [reported_valid syntactic semantic logical overall_valid executed app forallb].
- auto.
- rewrite V. auto.
- auto.
- intros V1. rewrite V1, V. split; [congruence | reflexivity].
- intros [V1 V2]. rewrite V1, V2. split; [congruence|].
now rewrite andb_true_r.
Qed.

Lemma Steps_ok s s' : Steps sql g s s' -> state_ok s -> state_ok s'.
Proof. induction 1; eauto using Step_ok. Qed.

End Machine.

(** C2: in every report the orchestrator reaches, if the syntactic stage
  is not valid then the semantic and logical stages are skipped, and
  are not reported valid; and overall_valid is the conjunction of the
  stages that were executed. *)
Theorem stage_ordering_sound (sql : string) (g : SchemaGraph) (r : Report) :
Steps sql g Syntactic (Done r) ->
(reported_valid (syntactic r) = false ->
 semantic r = Skipped /\ logical r = Skipped
 /\ reported_valid (semantic r) = false /\ reported_valid (logical r) = false)
/\ overall_valid r = forallb valid (executed_stages r).
Proof.
intros H. apply Steps_ok in H; [ | exact I].
destruct H as [H1 H2]. split; [ | exact H2].
intros V. destruct (H1 V) as [-> ->]. auto.
Qed.

Lemma stage_ordering_sound_witness :
Steps Sample.truncated Sample.schema Syntactic (Done Sample.truncated_report)
/\ semantic Sample.truncated_report = Skipped
/\ logical Sample.truncated_report = Skipped
/\ overall_valid Sample.truncated_report
   = forallb valid (executed_stages Sample.truncated_report).
Proof.
assert (H : Steps Sample.truncated Sample.schema Syntactic
              (Done Sample.truncated_report))
  by (apply Gauntlet_runs; vm_compute; reflexivity).
destruct (stage_ordering_sound _ _ _ H) as [S O].
destruct (S eq_refl) as (S1 & S2 & _).
repeat split; assumption.
Defined.


Lemma Gauntlet_of_write (sql : string) (g : SchemaGraph)
(k : WriteKind) (tables : list TableRef) (p : nat) :
parse sql = Success (Write k tables p) ->
Gauntlet sql g
= Some (match table_errors g tables with
        | [] => write_report
        | unresolved => unresolved_write_report unresolved
        end).
Proof.
intros H. unfold Gauntlet. cbn [step].
unfold Syntactic_Validator. rewrite H. cbn [stage_of valid step Semantic_Validator].
destruct (table_errors g tables) as [ | e es]; reflexivity.
Qed.




End OrchestratorFacts.

(* ===================================================================== *)
(** * The report does not depend on how a key is listed                   *)
(* ===================================================================== *)

Section SnapshotFacts.
Import Text Trc Schema Sql Gauntlet Orchestrator.

Section KeyIsNotRead.

Lemma find_map_through {A B : Type} (h : A -> B) (p : B -> bool) (l : list A) :
find p (map h l) = option_map h (find (fun a => p (h a)) l).
Proof.
induction l as [| a l IH]; cbn; [reflexivity | ].
destruct (p (h a)); [reflexivity | exact IH].
Qed.

Lemma flat_map_through {A B C : Type} (h : A -> B) (f : B -> list C) (l : list A) :
flat_map f (map h l) = flat_map (fun a => f (h a)) l.
Proof.
induction l as [| a l IH]; cbn; [reflexivity | now rewrite IH].
Qed.

Lemma fold_left_through {A B C : Type} (h : A -> B) (f : C -> B -> C) (l : list A) (c : C) :
fold_left f (map h l) c = fold_left (fun acc a => f acc (h a)) l c.
Proof.
revert c. induction l as [| a l IH]; intros c; cbn; [reflexivity | apply IH].
Qed.

Lemma fold_left_pointwise {A C : Type} (f f' : C -> A -> C) (l : list A) (c : C) :
(forall acc a, f acc a = f' acc a) -> fold_left f l c = fold_left f' l c.
Proof.
intros E. revert c. induction l as [| a l IH]; intros c; cbn; [reflexivity | ].
now rewrite E, IH.
Qed.

Lemma existsb_pointwise {A : Type} (p p' : A -> bool) (l : list A) :
(forall a, p a = p' a) -> existsb p l = existsb p' l.
Proof.
intros E. induction l as [| a l IH]; cbn; [reflexivity | now rewrite E, IH].
Qed.

Lemma same_snapshot_without_key (g g' : SchemaGraph) :
same_snapshot g g' -> map without_key g = map without_key g'.
Proof.
induction 1 as [| t t' g g' (N & C & _ & F) _ IH]; cbn; [reflexivity | ].
rewrite IH. unfold without_key. now rewrite N, C, F.
Qed.

Variable g : SchemaGraph.

Lemma find_table_without_key (name : string) :
find_table (map without_key g) name = option_map without_key (find_table g name).
Proof. unfold find_table. now rewrite find_map_through. Qed.

Lemma table_errors_without_key (refs : list TableRef) :
table_errors (map without_key g) refs = table_errors g refs.
Proof.
unfold table_errors. apply flat_map_ext. intros r.
rewrite find_table_without_key. now destruct (find_table g (table r)).
Qed.

Lemma scope_of_without_key (refs : list TableRef) :
scope_of (map without_key g) refs = map binding_without_key (scope_of g refs).
Proof.
unfold scope_of. induction refs as [| r refs IH]; cbn; [reflexivity | ].
rewrite IH, find_table_without_key, map_app.
now destruct (find_table g (table r)).
Qed.

Lemma resolve_without_key (sc : Scope) (q : option string) (c : string) :
resolve (map binding_without_key sc) q c = resolve sc q c.
Proof.
unfold resolve. destruct q as [qual | ].
- rewrite find_map_through. cbn [binding_without_key fst].
  destruct (find (fun a => eq_ci (fst a) qual) sc) as [[b t] | ]; reflexivity.
- destruct (String.eqb c "*"); [reflexivity | ].
  set (pick := fun b : string * Table =>
                 match find_column (snd b) c with
                 | Some col => [(fst b, snd b, col)]
                 | None => []
                 end).
  assert (E : flat_map pick (map binding_without_key sc)
              = map (fun m => (fst (fst m), without_key (snd (fst m)), snd m))
                    (flat_map pick sc)).
  { induction sc as [| [b t] sc IH]; cbn; [reflexivity | ].
    rewrite IH, map_app. f_equal. unfold pick. cbn.
    unfold find_column. cbn. now destruct (find _ (columns t)). }
  rewrite E. destruct (flat_map pick sc) as [| [[b t] col] [| [[b' t'] col'] rest]];
    cbn; try reflexivity.
  do 4 f_equal. rewrite map_map. reflexivity.
Qed.

Lemma expr_errors_without_key (sc : Scope) (e : Expr) :
expr_errors (map binding_without_key sc) e = expr_errors sc e.
Proof.
induction e as [q c p | v p | fn arg IH p]; cbn; [ | reflexivity | exact IH].
now rewrite resolve_without_key.
Qed.

Lemma operand_type_without_key (sc : Scope) (e : Expr) :
operand_type (map binding_without_key sc) e = operand_type sc e.
Proof. destruct e; cbn; [ | reflexivity | reflexivity]. now rewrite resolve_without_key. Qed.

Lemma predicate_errors_without_key (sc : Scope) (p : Predicate) :
predicate_errors (map binding_without_key sc) p = predicate_errors sc p.
Proof.
induction p as [l op r | l IHl r IHr | l IHl r IHr | q IH]; cbn.
- now rewrite !expr_errors_without_key, !operand_type_without_key.
- now rewrite IHl, IHr.
- now rewrite IHl, IHr.
- exact IH.
Qed.

Lemma select_errors_without_key (sel : Select) :
select_errors (map without_key g) sel = select_errors g sel.
Proof.
unfold select_errors. cbv zeta.
rewrite table_errors_without_key, scope_of_without_key.
f_equal. f_equal; [apply flat_map_ext; intros e; apply expr_errors_without_key | ].
f_equal; [apply flat_map_ext; intros j; apply predicate_errors_without_key | ].
destruct (where_ sel); [apply predicate_errors_without_key | reflexivity].
Qed.

Lemma Semantic_Validator_without_key (ast : Statement) :
Semantic_Validator ast (map without_key g) = Semantic_Validator ast g.
Proof.
destruct ast; cbn; [now rewrite select_errors_without_key | now rewrite table_errors_without_key].
Qed.

Lemma bind_refs_without_key (refs : list TableRef) (ctx : Context) :
bind_refs (map without_key g) refs ctx
= (map bound_without_key (fst (bind_refs g refs ctx)), snd (bind_refs g refs ctx)).
Proof.
revert ctx. induction refs as [| r refs IH]; intros ctx; cbn; [reflexivity | ].
unfold then_, fresh, unit_. rewrite IH.
destruct (bind_refs g refs _) as [more c]. cbn [fst snd].
rewrite find_table_without_key. now destruct (find_table g (table r)).
Qed.

Variable bs : list Bound.

Lemma scope_of_bound_without_key :
scope_of_bound (map bound_without_key bs) = map binding_without_key (scope_of_bound bs).
Proof. unfold scope_of_bound. now rewrite !map_map. Qed.

Lemma var_of_without_key (binding : string) :
var_of (map bound_without_key bs) binding = var_of bs binding.
Proof.
unfold var_of. rewrite find_map_through. cbn [bound_without_key bound_name].
now destruct (find _ bs).
Qed.

Lemma resolve_bound_without_key (q : option string) (c : string) :
resolve (scope_of_bound (map bound_without_key bs)) q c = resolve (scope_of_bound bs) q c.
Proof. rewrite scope_of_bound_without_key. apply resolve_without_key. Qed.

Lemma translate_expr_without_key (e : Expr) :
translate_expr (map bound_without_key bs) e = translate_expr bs e.
Proof.
destruct e as [q c p | v p | fn arg p]; cbn; [ | reflexivity | reflexivity].
rewrite resolve_bound_without_key.
destruct (resolve (scope_of_bound bs) q c); [ | reflexivity | reflexivity].
now rewrite var_of_without_key.
Qed.

Lemma translate_predicate_without_key (p : Predicate) :
translate_predicate (map bound_without_key bs) p = translate_predicate bs p.
Proof.
induction p as [l op r | l IHl r IHr | l IHl r IHr | q IH]; cbn.
- now rewrite !translate_expr_without_key.
- now rewrite IHl, IHr.
- now rewrite IHl, IHr.
- now rewrite IH.
Qed.

Lemma expr_mentions_without_key (v : string) (e : Expr) :
expr_mentions (map bound_without_key bs) v e = expr_mentions bs v e.
Proof.
induction e as [q c p | w p | fn arg IH p]; cbn; [ | reflexivity | exact IH].
rewrite resolve_bound_without_key.
destruct (resolve (scope_of_bound bs) q c); [ | reflexivity | reflexivity].
now rewrite var_of_without_key.
Qed.

Lemma predicate_mentions_without_key (v : string) (p : Predicate) :
predicate_mentions (map bound_without_key bs) v p = predicate_mentions bs v p.
Proof.
induction p as [l op r | l IHl r IHr | l IHl r IHr | q IH]; cbn.
- now rewrite !expr_mentions_without_key.
- now rewrite IHl, IHr.
- now rewrite IHl, IHr.
- exact IH.
Qed.

Lemma used_elsewhere_without_key (sel : Select) (j : Join) (v : string) :
used_elsewhere (map bound_without_key bs) sel j v = used_elsewhere bs sel j v.
Proof.
unfold used_elsewhere. f_equal; [f_equal | ].
- apply existsb_pointwise. intros e. apply expr_mentions_without_key.
- destruct (where_ sel); [apply predicate_mentions_without_key | reflexivity].
- apply existsb_pointwise. intros j'. now rewrite predicate_mentions_without_key.
Qed.

Lemma join_var_without_key (j : Join) :
join_var (map bound_without_key bs) j = join_var bs j.
Proof. apply var_of_without_key. Qed.

Lemma optional_side_without_key (sel : Select) (j : Join) :
optional_side (map bound_without_key bs) sel j = optional_side bs sel j.
Proof.
unfold optional_side. now rewrite join_var_without_key, used_elsewhere_without_key.
Qed.

Lemma relation_atoms_without_key (sel : Select) :
relation_atoms (map bound_without_key bs) sel = relation_atoms bs sel.
Proof.
unfold relation_atoms. rewrite fold_left_through.
apply fold_left_pointwise. intros acc b.
cbn [bound_without_key row_var].
replace (existsb _ (joins sel))
  with (existsb (fun j => optional_side bs sel j && String.eqb (join_var bs j) (row_var b))
                (joins sel))
  by (apply existsb_pointwise; intros j;
      now rewrite optional_side_without_key, join_var_without_key).
reflexivity.
Qed.

Lemma translate_join_without_key (sel : Select) (j : Join) :
translate_join (map bound_without_key bs) sel j = translate_join bs sel j.
Proof.
unfold translate_join.
rewrite translate_predicate_without_key, optional_side_without_key, join_var_without_key.
rewrite find_map_through. cbn [bound_without_key row_var].
destruct (find _ bs); reflexivity.
Qed.

Lemma translate_joins_without_key (sel : Select) (js : list Join)
(acc : option Formula) (ctx : Context) :
translate_joins (map bound_without_key bs) sel js acc ctx = translate_joins bs sel js acc ctx.
Proof.
revert acc ctx. induction js as [| j js IH]; intros acc ctx; cbn; [reflexivity | ].
unfold then_. rewrite translate_join_without_key.
destruct (translate_join bs sel j ctx). apply IH.
Qed.

Lemma translate_projections_without_key (es : list Expr) :
translate_projections (map bound_without_key bs) es = translate_projections bs es.
Proof.
induction es as [| e es IH]; cbn; [reflexivity | ].
now rewrite translate_expr_without_key, IH.
Qed.

End KeyIsNotRead.

Lemma translate_select_without_key (g : SchemaGraph) (sel : Select) (ctx : Context) :
translate_select (map without_key g) sel ctx = translate_select g sel ctx.
Proof.
unfold translate_select, then_. rewrite bind_refs_without_key.
destruct (bind_refs g (table_refs sel) ctx) as [bs c1]. cbn [fst snd].
rewrite translate_projections_without_key.
destruct (translate_projections bs (projections sel) c1) as [ps c2].
rewrite relation_atoms_without_key, translate_joins_without_key.
destruct (translate_joins bs sel (joins sel) (relation_atoms bs sel) c2) as [js c3].
replace (match where_ sel with
         | Some p => translate_predicate (map bound_without_key bs) p
         | None => unit_ None
         end)
  with (match where_ sel with
        | Some p => translate_predicate bs p
        | None => unit_ None
        end)
  by (destruct (where_ sel); [now rewrite translate_predicate_without_key | reflexivity]).
destruct (match where_ sel with
          | Some p => translate_predicate bs p
          | None => unit_ None
          end c3) as [w c4].
now destruct bs.
Qed.

Lemma SQL_to_TRC_without_key (g : SchemaGraph) (sel : Select) :
SQL_to_TRC (map without_key g) sel = SQL_to_TRC g sel.
Proof. unfold SQL_to_TRC. now rewrite translate_select_without_key. Qed.

Lemma Logical_Stage_without_key (ast : Statement) (g : SchemaGraph) :
Logical_Stage ast (map without_key g) = Logical_Stage ast g.
Proof. destruct ast; cbn; [now rewrite SQL_to_TRC_without_key | reflexivity]. Qed.

Lemma step_without_key (sql : string) (g : SchemaGraph) (s : State) :
step sql (map without_key g) s = step sql g s.
Proof.
destruct s; cbn; [reflexivity | | | reflexivity].
- now rewrite Semantic_Validator_without_key.
- now rewrite Logical_Stage_without_key.
Qed.

Lemma Gauntlet_without_key (sql : string) (g : SchemaGraph) :
Gauntlet sql (map without_key g) = Gauntlet sql g.
Proof. unfold Gauntlet. now rewrite !step_without_key. Qed.

Lemma Gauntlet_same_snapshot (sql : string) (g g' : SchemaGraph) :
same_snapshot g g' -> Gauntlet sql g = Gauntlet sql g'.
Proof.
intros H. rewrite <- (Gauntlet_without_key sql g), <- (Gauntlet_without_key sql g').
now rewrite (same_snapshot_without_key g g' H).
Qed.



End SnapshotFacts.

Section ConsumerFacts.
Import Js Traced Trc Schema Sql Gauntlet Orchestrator OutputDisplayJsx Consumer.

Lemma stage_json_shape (s : StageReport) : stage_shape (stage_json s) = true.
Proof.
destruct s as [r | ]; [ | reflexivity]. cbn.
induction (errors r) as [ | d ds IH]; cbn; auto.
Qed.

Lemma report_json_shape (r : Report) : report_shape (report_json r) = true.
Proof.
unfold report_json, report_shape. cbn.
rewrite !stage_json_shape. destruct (trc r); reflexivity.
Qed.

Lemma bind_ok {A B} (l : list string) (a : A) (k : A -> Traced B) :
Traced.bind (MkTraced l (Ok a)) k = MkTraced (l ++ reads (k a)) (outcome (k a)).
Proof. reflexivity. Qed.

Lemma stage_json_valid (s : StageReport) :
get_opt (stage_json s) "valid" = Ok (JBool (passed (panel_of s))).
Proof. destruct s; reflexivity. Qed.

Lemma stage_json_errors (s : StageReport) :
get (stage_json s) "errors" = Ok (JArr (error_items (panel_of s)))
/\ get_opt (stage_json s) "errors" = Ok (JArr (error_items (panel_of s))).
Proof. destruct s; split; reflexivity. Qed.

Section Reads.
Variables (response vs : JsValue) (stage : string) (s : StageReport).
Hypothesis Hvs : get response "validation_status" = Ok vs.
Hypothesis Hst : get vs stage = Ok (stage_json s).

Lemma stage_valid_reads :
stage_valid response stage
= MkTraced ["validation_status"] (Ok (JBool (passed (panel_of s)))).
Proof.
unfold stage_valid, read, lift. rewrite Hvs, bind_ok. cbn [reads outcome].
rewrite Hst, bind_ok. cbn [reads outcome]. now rewrite stage_json_valid.
Qed.

Lemma stage_errors_length_reads :
stage_errors_length response stage
= MkTraced ["validation_status"]
  (Ok (JNum (Z.of_nat (List.length (error_items (panel_of s)))))).
Proof.
unfold stage_errors_length, read, lift. rewrite Hvs, bind_ok. cbn [reads outcome].
rewrite Hst, bind_ok. cbn [reads outcome].
rewrite (proj2 (stage_json_errors s)), bind_ok. reflexivity.
Qed.

Lemma stage_error_items_reads :
stage_error_items response stage
= MkTraced ["validation_status"] (Ok (error_items (panel_of s))).
Proof.
unfold stage_error_items, read, lift. rewrite Hvs, bind_ok. cbn [reads outcome].
rewrite Hst, bind_ok. cbn [reads outcome].
rewrite (proj1 (stage_json_errors s)), bind_ok. reflexivity.
Qed.

Lemma stage_panel_reads :
exists l, stage_panel response stage = MkTraced l (Ok (panel_of s))
        /\ Forall (eq "validation_status") l.
Proof.
unfold stage_panel.
rewrite stage_valid_reads, bind_ok, bind_ok.
rewrite stage_errors_length_reads, bind_ok.
destruct (panel_of s) as [p items] eqn:E. cbn [passed error_items] in *.
destruct items as [ | x xs].
- cbn. rewrite andb_diag. eexists. split; [reflexivity | repeat constructor].
- assert (G : gt_zero (JNum (Z.of_nat (List.length (x :: xs)))) = true).
{ cbn [gt_zero]. apply Z.ltb_lt. cbn [List.length]. lia. }
rewrite G, stage_error_items_reads, E, bind_ok. cbn.
rewrite andb_diag. eexists. split; [reflexivity | repeat constructor].
Qed.
End Reads.

Lemma report_json_stage (r : Report) :
get (report_json r) "syntactic" = Ok (stage_json (syntactic r))
/\ get (report_json r) "semantic" = Ok (stage_json (semantic r))
/\ get (report_json r) "logical" = Ok (stage_json (logical r))
/\ get (report_json r) "overall_valid" = Ok (JBool (Orchestrator.overall_valid r)).
Proof. repeat split; reflexivity. Qed.

Lemma Forall_app_intro {A} (P : A -> Prop) l1 l2 :
Forall P l1 -> Forall P l2 -> Forall P (l1 ++ l2).
Proof. intros. apply Forall_app. auto. Qed.

Lemma validation_tab_reads (response : JsValue) (r : Report) (formattedSql : JsValue) :
get response "validation_status" = Ok (report_json r) ->
outcome (tab_content TabValidation response formattedSql)
= Ok (ValidationPane (panel_of (syntactic r)) (panel_of (semantic r))
        (panel_of (logical r)) (Orchestrator.overall_valid r))
/\ Forall (eq "validation_status")
      (reads (tab_content TabValidation response formattedSql)).
Proof.
intros H. destruct (report_json_stage r) as (H1 & H2 & H3 & H4).
destruct (stage_panel_reads _ _ _ _ H H1) as (l1 & O1 & R1).
destruct (stage_panel_reads _ _ _ _ H H2) as (l2 & O2 & R2).
destruct (stage_panel_reads _ _ _ _ H H3) as (l3 & O3 & R3).
assert (OV : OutputDisplayJsx.overall_valid response
             = MkTraced ["validation_status"] (Ok (JBool (Orchestrator.overall_valid r)))).
{ unfold OutputDisplayJsx.overall_valid, read, lift. rewrite H, bind_ok. cbn [reads outcome].
  now rewrite H4. }
cbn [tab_content]. rewrite O1, O2, O3, OV, !bind_ok.
cbn [outcome reads ret truthy]. rewrite andb_diag.
split; [reflexivity|].
repeat apply Forall_app_intro; auto; repeat constructor.
Qed.

Lemma explanation_tab_reads (response te : JsValue) (formattedSql : JsValue) :
get response "trc_explanation" = Ok te -> is_nullish te = false ->
tab_content TabExplanation response formattedSql
= MkTraced ["trc_explanation"; "trc_explanation"; "trc_explanation"; "trc_explanation"]
    (Ok (ExplanationPane (field te "trc") (field te "description")
           (field te "query") (field te "sql"))).
Proof.
intros H N.
assert (F : forall k, trc_field response k
                      = MkTraced ["trc_explanation"] (Ok (field te k))).
{ intros k. unfold trc_field, read, lift. rewrite H, bind_ok. cbn [reads outcome].
  unfold field. destruct te; try discriminate; cbn;
    repeat match goal with |- context [if ?b then _ else _] => destruct b end;
    reflexivity. }
cbn [tab_content]. rewrite !F, !bind_ok. reflexivity.
Qed.

Lemma trc_present (sql : string) (g : SchemaGraph) (r : Report) :
Gauntlet sql g = Some r ->
(trc r = None <-> translation_ran sql g = false).
Proof.
unfold Gauntlet, translation_ran. cbn [step].
destruct (Syntactic_Validator sql) as [r1 [[sel | k ts p] | ]]; cbn [step report_of].
- destruct (valid r1); cbn [step report_of andb].
  + destruct (valid (Semantic_Validator (SelectStmt sel) g)); cbn [step report_of].
    * cbn. intros E; inversion E; subst; cbn. split; discriminate.
    * intros E; inversion E; subst; cbn. tauto.
  + intros E; inversion E; subst; cbn. tauto.
- destruct (valid r1); cbn [step report_of andb].
  + destruct (valid (Semantic_Validator (Write k ts p) g)); cbn [step report_of].
    * cbn. intros E; inversion E; subst; cbn. tauto.
    * intros E; inversion E; subst; cbn. tauto.
  + intros E; inversion E; subst; cbn. tauto.
- intros E; inversion E; subst; cbn. tauto.
Qed.

Lemma plain_explanation_tab (response te : JsValue) :
get response "trc_explanation" = Ok te ->
OutputDisplayPlain.tab_content OutputDisplayPlain.TabExplanation response
= MkTraced ["trc_explanation"] (Ok (OutputDisplayPlain.ExplanationPane te)).
Proof.
intros H. unfold OutputDisplayPlain.tab_content, read. now rewrite H, bind_ok.
Qed.

Lemma plain_validation_tab (response vs er : JsValue) (items : list JsValue) :
get response "validation_status" = Ok vs ->
get response "errors" = Ok er ->
er = JArr items \/ (is_nullish er = true /\ items = []) ->
outcome (OutputDisplayPlain.tab_content OutputDisplayPlain.TabValidation response)
= Ok (OutputDisplayPlain.ValidationPane vs items)
/\ Forall (fun k => k = "validation_status" \/ k = "errors")
     (reads (OutputDisplayPlain.tab_content OutputDisplayPlain.TabValidation response)).
Proof.
intros Hv He Hs. unfold OutputDisplayPlain.tab_content, read.
rewrite Hv, !He. cbn [Traced.bind outcome reads ret lift app].
destruct Hs as [-> | [N ->]].
- destruct items as [ | x xs].
  + cbn. split; [reflexivity | repeat (apply Forall_cons; [auto | ]); apply Forall_nil].
  + assert (G : gt_zero (JNum (Z.of_nat (List.length (x :: xs)))) = true).
    { cbn [gt_zero]. apply Z.ltb_lt. cbn [List.length]. lia. }
    cbn [get_opt is_nullish get String.eqb Ascii.eqb Bool.eqb].
    cbn [Traced.bind outcome reads ret lift app]. rewrite G.
    cbn [Traced.bind outcome reads ret lift app map_items].
    split; [reflexivity | repeat (apply Forall_cons; [auto | ]); apply Forall_nil].
- destruct er; try discriminate; cbn;
    (split; [reflexivity | repeat (apply Forall_cons; [auto | ]); apply Forall_nil]).
Qed.

(** C1 (amended): every Gauntlet report has exactly the shape
  overall_valid, syntactic, semantic, logical (each valid and errors)
  and trc (formula_text and natural_language, or null), with trc null
  exactly when translation did not run.  The result view reads the
  three stages and overall_valid under these names one level down, in
  response.validation_status, and reads the explanation from
  response.trc_explanation under trc, description, query and sql.  The
  earlier revision of the view shows response.validation_status whole,
  takes the list of errors from response.errors and shows
  response.trc_explanation whole. *)
Theorem consumer_reads_validation_status
(sql : string) (g : SchemaGraph) (r : Report)
(response te formattedSql : JsValue) :
Gauntlet sql g = Some r ->
get response "validation_status" = Ok (report_json r) ->
get response "trc_explanation" = Ok te -> is_nullish te = false ->
report_shape (report_json r) = true
/\ (trc r = None <-> translation_ran sql g = false)
/\ outcome (tab_content TabValidation response formattedSql)
   = Ok (ValidationPane (panel_of (syntactic r)) (panel_of (semantic r))
           (panel_of (logical r)) (Orchestrator.overall_valid r))
/\ Forall (eq "validation_status")
      (reads (tab_content TabValidation response formattedSql))
/\ tab_content TabExplanation response formattedSql
   = MkTraced ["trc_explanation"; "trc_explanation"; "trc_explanation"; "trc_explanation"]
       (Ok (ExplanationPane (field te "trc") (field te "description")
              (field te "query") (field te "sql")))
/\ (forall er items,
      get response "errors" = Ok er ->
      er = JArr items \/ (is_nullish er = true /\ items = []) ->
      outcome (OutputDisplayPlain.tab_content OutputDisplayPlain.TabValidation response)
      = Ok (OutputDisplayPlain.ValidationPane (report_json r) items)
      /\ Forall (fun k => k = "validation_status" \/ k = "errors")
           (reads (OutputDisplayPlain.tab_content
                     OutputDisplayPlain.TabValidation response)))
/\ OutputDisplayPlain.tab_content OutputDisplayPlain.TabExplanation response
   = MkTraced ["trc_explanation"] (Ok (OutputDisplayPlain.ExplanationPane te)).
Proof.
intros HG Hv Ht Hn.
destruct (validation_tab_reads response r formattedSql Hv) as [O R].
repeat split; auto using report_json_shape, explanation_tab_reads,
  plain_explanation_tab.
- now apply (trc_present sql g r).
- now apply (trc_present sql g r).
- now apply (plain_validation_tab response (report_json r) er items).
- now apply (plain_validation_tab response (report_json r) er items).
Qed.

Lemma consumer_reads_validation_status_witness :
Gauntlet Sample.older_than_30 Sample.schema = Some Sample.older_than_30_report
/\ get Sample.response "validation_status"
   = Ok (report_json Sample.older_than_30_report)
/\ outcome (tab_content TabValidation Sample.response JUndefined)
   = Ok (ValidationPane (MkStagePanel true []) (MkStagePanel true [])
           (MkStagePanel true []) true).
Proof.
assert (H : Gauntlet Sample.older_than_30 Sample.schema
            = Some Sample.older_than_30_report) by (vm_compute; reflexivity).
split; [exact H | split; [reflexivity | ]].
exact (proj1 (proj2 (proj2
         (consumer_reads_validation_status
            Sample.older_than_30 Sample.schema Sample.older_than_30_report
            Sample.response (field Sample.response "trc_explanation") JUndefined
            H eq_refl eq_refl eq_refl)))).
Defined.

(** C1 as stated fails: handed a report of exactly the prescribed shape
  as its response, the result view throws on the validation tab and on
  the explanation tab; with the report placed under validation_status
  and its trc under trc_explanation, the explanation tab shows nothing
  of formula_text or natural_language. *)
Lemma consumer_misreads_report :
Gauntlet Sample.older_than_30 Sample.schema
= Some Sample.older_than_30_report
/\ report_shape (report_json Sample.older_than_30_report) = true
/\ outcome (OutputDisplay Sample.echo
              (JObj [("response", report_json Sample.older_than_30_report)]) TabValidation)
   = Threw (cannot_read JUndefined "syntactic")
/\ outcome (OutputDisplay Sample.echo
              (JObj [("response", report_json Sample.older_than_30_report)]) TabExplanation)
   = Threw (cannot_read JUndefined "trc")
/\ outcome (OutputDisplay Sample.echo
              (JObj [("response",
                      JObj [("validation_status", report_json Sample.older_than_30_report);
                            ("trc_explanation", trc_json (trc Sample.older_than_30_report))])])
              TabExplanation)
   = Ok (Results JUndefined
           (ExplanationPane JUndefined JUndefined JUndefined JUndefined)
           (JObj [("database_id", JUndefined)])).
Proof. repeat split; vm_compute; reflexivity. Qed.

End ConsumerFacts.

(* ===================================================================== *)
(** * The rest of the frontend                                            *)
(* ===================================================================== *)

Section BlankText.
Import Js QueryInput.

Lemma trimStart_nil (q : JsString) :
  trimStart q = [] <-> forallb is_white_space q = true.
Proof.
  induction q as [ | c q IH]; cbn; [tauto | ].
  destruct (is_white_space c); cbn; [exact IH | split; discriminate].
Qed.

Lemma forallb_trimStart (q : JsString) :
  forallb is_white_space (trimStart q) = forallb is_white_space q.
Proof.
  induction q as [ | c q IH]; cbn; [reflexivity | ].
  destruct (is_white_space c) eqn:E; cbn; [exact IH | now rewrite E].
Qed.

Lemma forallb_reverse {A} (p : A -> bool) (l : list A) :
  forallb p (rev l) = forallb p l.
Proof.
  induction l as [ | a l IH]; cbn; [reflexivity | ].
  rewrite forallb_app, IH. cbn. rewrite andb_true_r. apply andb_comm.
Qed.

(** The guard of both handlers and both buttons: the trimmed text is
    empty exactly when the text is whitespace only. *)
Lemma blank_iff (q : JsString) :
  truthy_string (trim q) = false <-> forallb is_white_space q = true.
Proof.
  unfold trim, trimEnd. split.
  - intros H.
    assert (E : rev (trimStart (rev (trimStart q))) = [])
      by (destruct (rev (trimStart (rev (trimStart q)))); [reflexivity | discriminate]).
    apply (f_equal (@rev N)) in E. rewrite rev_involutive in E. cbn in E.
    apply trimStart_nil in E. rewrite forallb_reverse, forallb_trimStart in E. exact E.
  - intros H. apply trimStart_nil in H. rewrite H. reflexivity.
Qed.

Lemma not_blank_iff (q : JsString) :
  truthy_string (trim q) = true <-> forallb is_white_space q = false.
Proof.
  pose proof (blank_iff q) as B.
  destruct (truthy_string (trim q)), (forallb is_white_space q);
    intuition congruence.
Qed.

End BlankText.

Section SchemaUploadFacts.
Import Js QueryInput SchemaUpload.

Lemma endsWith_spec (suffix s : string) :
  endsWith suffix s = true <-> exists stem, s = stem +++ suffix.
Proof.
  induction s as [ | c s IH]; cbn [endsWith].
  - rewrite orb_false_r. split.
    + intros H. apply String.eqb_eq in H. subst. now exists EmptyString.
    + intros [stem H]. destruct stem; cbn in H; [ | discriminate].
      subst. reflexivity.
  - rewrite orb_true_iff, IH. split.
    + intros [H | [stem H]].
      * apply String.eqb_eq in H. rewrite <- H. now exists EmptyString.
      * exists (String c stem). cbn. now rewrite H.
    + intros [stem H]. destruct stem as [ | d stem]; cbn in H.
      * left. rewrite <- H. apply String.eqb_refl.
      * right. inversion H. now exists stem.
Qed.

(** X1: handleDrop always clears the drag highlight and touches no
    other state; it starts reading a file exactly when a first file was
    dropped whose type is text/plain or whose name ends in .sql, and
    then it is that first file that is read into the schema text. *)
Theorem handleDrop_reads_sql_or_plain_text (files : list File) (s : State) :
  fst (handleDrop files s)
  = MkState false (schemaText s) (lowerBoundSchema s) (upperBoundSchema s)
  /\ (forall r, snd (handleDrop files s) = Some r <->
        exists file rest,
          files = file :: rest /\ r = (SchemaText, file)
          /\ (type file = "text/plain" \/ exists stem, name file = stem +++ ".sql")).
Proof.
  split.
  - unfold handleDrop. destruct files as [ | file rest]; [reflexivity | ].
    destruct (_ || _); reflexivity.
  - intros r. unfold handleDrop. destruct files as [ | file rest].
    + cbn. split; [discriminate | intros (f & l & H & _); discriminate].
    + destruct (String.eqb (type file) "text/plain" || endsWith ".sql" (name file))
        eqn:A; cbn [snd].
      * apply orb_true_iff in A. rewrite String.eqb_eq, endsWith_spec in A.
        split.
        -- intros H. inversion H; subst. exists file, rest. auto.
        -- intros (f & l & H & -> & _). inversion H; subst. reflexivity.
      * apply orb_false_iff in A as [A1 A2].
        split; [discriminate | ].
        intros (f & l & H & _ & [T | E]); inversion H; subst.
        -- rewrite T in A1. discriminate.
        -- apply endsWith_spec in E. congruence.
Qed.

(** X3: handleSubmit does nothing at all for a schema text that is
    empty or whitespace only; otherwise it issues exactly one POST to
    the submit-schema URL carrying the three texts as held, navigates
    to /query exactly when the response is ok and its body decodes,
    and never ends by throwing. *)
Theorem handleSubmit_requests_once_and_navigates_on_success
  (s : State)
  (fetch : string -> JsString -> JsString -> JsString -> Result Response) :
  let trace := fst (handleSubmit s fetch) in
  (forallb is_white_space (schemaText s) = true -> trace = [])
  /\ (forallb is_white_space (schemaText s) = false ->
      filter is_request trace
      = [Fetch submit_schema_url "POST"
           (schemaText s) (lowerBoundSchema s) (upperBoundSchema s)]
      /\ (filter is_navigation trace = [Navigate "/query"] <->
          exists response data,
            fetch submit_schema_url (schemaText s) (lowerBoundSchema s)
              (upperBoundSchema s) = Ok response
            /\ ok response = true /\ json response = Ok data)
      /\ (filter is_navigation trace = [] <->
          ~ exists response data,
              fetch submit_schema_url (schemaText s) (lowerBoundSchema s)
                (upperBoundSchema s) = Ok response
              /\ ok response = true /\ json response = Ok data))
  /\ snd (handleSubmit s fetch) = Normal tt.
Proof.
  cbn zeta. unfold handleSubmit.
  destruct (truthy_string (trim (schemaText s))) eqn:T.
  - apply not_blank_iff in T. rewrite T.
    split; [discriminate | ].
    destruct (fetch submit_schema_url (schemaText s) (lowerBoundSchema s)
                (upperBoundSchema s)) as [[o j] | e]; cbn;
      [destruct o; cbn; [destruct j as [data | e]; cbn | ] | ].
    all: split; [intros _; split; [reflexivity | split; split] | reflexivity].
    all: try discriminate; try reflexivity.
    all: try (intros (r & d & H & O & J); inversion H; subst; discriminate).
    all: try (intros _ (r & d & H & O & J); inversion H; subst; discriminate).
    + intros _. now exists (MkResponse true (Ok data)), data.
    + intros H. exfalso. apply H. now exists (MkResponse true (Ok data)), data.
  - apply blank_iff in T. rewrite T.
    split; [reflexivity | split; [discriminate | reflexivity]].
Qed.

End SchemaUploadFacts.

Section QueryInputMore.
Import Js QueryInput QueryInputView.

(** X4: with a query that is not blank and a database id, the handler
    sets isGenerating, logs, and issues exactly one POST to the
    generate-sql URL carrying the database id and the query as typed
    (untrimmed); isGenerating is reset as the last effect. *)
Theorem handleGenerateSQL_sends_query_as_typed
  (query : JsString) (databaseId : JsValue)
  (fetch : string -> JsValue -> JsString -> Result Response) :
  forallb is_white_space query = false ->
  truthy databaseId = true ->
  exists rest,
    fst (handleGenerateSQL query databaseId fetch)
    = [SetIsGenerating true; ConsoleLog databaseId query;
       Fetch generate_sql_url "POST" databaseId query]
      ++ rest ++ [SetIsGenerating false]
    /\ existsb is_request rest = false.
Proof.
  intros W D. apply not_blank_iff in W.
  unfold handleGenerateSQL. rewrite W, D. cbn [negb].
  destruct (fetch generate_sql_url databaseId query) as [[o j] | e]; cbn.
  - destruct o; cbn.
    + destruct j as [data | e]; cbn.
      * now exists [Navigate "/results" data databaseId].
      * now exists [ConsoleError "Error generating SQL:"].
    + now exists [ConsoleError "Failed to generate SQL"].
  - now exists [ConsoleError "Error generating SQL:"].
Qed.

Lemma handleGenerateSQL_sends_query_as_typed_witness :
  exists rest,
    fst (handleGenerateSQL [32; 97; 32]%N (JStr "db1") Sample.answering)
    = [SetIsGenerating true; ConsoleLog (JStr "db1") [32; 97; 32]%N;
       Fetch generate_sql_url "POST" (JStr "db1") [32; 97; 32]%N]
      ++ rest ++ [SetIsGenerating false]
    /\ existsb is_request rest = false.
Proof.
  apply (handleGenerateSQL_sends_query_as_typed
           [32; 97; 32]%N (JStr "db1") Sample.answering); reflexivity.
Defined.

(** X5: with a query that is not blank and a database id, the handler
    navigates exactly when the response is ok and its body decodes,
    and then to /results with that body and the same database id; it
    writes to console.error exactly when it does not navigate. *)
Theorem handleGenerateSQL_navigates_iff_answered
  (query : JsString) (databaseId : JsValue)
  (fetch : string -> JsValue -> JsString -> Result Response) :
  forallb is_white_space query = false ->
  truthy databaseId = true ->
  let trace := fst (handleGenerateSQL query databaseId fetch) in
  (forall path data id,
     In (Navigate path data id) trace <->
     path = "/results" /\ id = databaseId
     /\ exists response,
          fetch generate_sql_url databaseId query = Ok response
          /\ ok response = true /\ json response = Ok data)
  /\ ((exists message, In (ConsoleError message) trace)
      <-> existsb is_navigation trace = false).
Proof.
  intros W D. apply not_blank_iff in W.
  cbn zeta. unfold handleGenerateSQL. rewrite W, D. cbn [negb].
  destruct (fetch generate_sql_url databaseId query) as [[o j] | e]; cbn;
    [destruct o; cbn; [destruct j as [data | e]; cbn | ] | ].
  all: split; [intros path d id; split | split].
  all: try (intros (-> & -> & r & H & O & J); inversion H; subst; cbn in *;
            try discriminate).
  all: try (intros H;
            repeat (destruct H as [H | H]; try discriminate); try contradiction).
  all: try reflexivity; try discriminate.
  all: try (intros _; eexists; cbn; eauto 6; fail).
  - inversion H; subst. repeat split.
    now exists (MkResponse true (Ok d)).
  - inversion J; subst. auto.
  - destruct H as [m H].
    repeat (destruct H as [H | H]; try discriminate); contradiction.
  - eexists. do 3 right. left. reflexivity.
  - eexists. do 3 right. left. reflexivity.
  - eexists. do 3 right. left. reflexivity.
Qed.

Lemma handleGenerateSQL_navigates_iff_answered_witness :
  exists message,
    In (ConsoleError message)
       (fst (handleGenerateSQL [97]%N (JStr "db1")
               (fun _ _ _ => Threw (JError "TypeError" "Failed to fetch")))).
Proof.
  apply (proj2 (handleGenerateSQL_navigates_iff_answered [97]%N (JStr "db1")
                  (fun _ _ _ => Threw (JError "TypeError" "Failed to fetch"))
                  eq_refl eq_refl)).
  reflexivity.
Defined.

(** X6: the generate button is enabled exactly when the query is not
    blank and no generation is running; the handler has no effect at
    all exactly when the query is blank; and with a query that is not
    blank but no database id its only effects are the alert, between
    setting and resetting isGenerating. *)
Theorem generate_button_matches_handler
  (query : JsString) (isGenerating : bool) (databaseId : JsValue)
  (fetch : string -> JsValue -> JsString -> Result Response) :
  let trace := fst (handleGenerateSQL query databaseId fetch) in
  (generate_disabled query isGenerating = false
   <-> forallb is_white_space query = false /\ isGenerating = false)
  /\ (forallb is_white_space query = true <-> trace = [])
  /\ (forallb is_white_space query = false -> truthy databaseId = false ->
      trace = [SetIsGenerating true;
               Alert "No Database ID found. Please upload a schema first.";
               SetIsGenerating false]).
Proof.
  cbn zeta. unfold generate_disabled, handleGenerateSQL.
  destruct (truthy_string (trim query)) eqn:T; cbn [negb orb].
  - apply not_blank_iff in T. rewrite T. split; [ | split].
    + destruct isGenerating; intuition congruence.
    + split; [discriminate | ].
      unfold seq at 1. cbn [emit].
      match goal with
      | |- context [try_catch_finally ?b ?h ?f] =>
          destruct (try_catch_finally b h f) as [t c]
      end.
      discriminate.
    + intros _ D. rewrite D. reflexivity.
  - apply blank_iff in T. rewrite T. split; [ | split].
    + split; [discriminate | intros [H _]; discriminate].
    + split; reflexivity.
    + discriminate.
Qed.

Lemma get_opt_state_field (st : JsValue) (k : string) :
  get_opt st k = Ok (App.state_field st k).
Proof.
  unfold App.state_field, get_opt.
  destruct (is_nullish st) eqn:N; [reflexivity | ].
  destruct (get_non_nullish st k N) as [v E]. rewrite E. reflexivity.
Qed.

Lemma get_state_field (st : JsValue) (k : string) :
  is_nullish st = false -> get st k = Ok (App.state_field st k).
Proof.
  intros N. rewrite <- get_opt_state_field. unfold get_opt. now rewrite N.
Qed.

Lemma truthy_not_nullish (v : JsValue) : truthy v = true -> is_nullish v = false.
Proof. destruct v; cbn; congruence. Qed.

Lemma state_field_truthy_not_nullish (st : JsValue) (k : string) :
  truthy (App.state_field st k) = true -> is_nullish st = false.
Proof. destruct st; cbn; congruence. Qed.

Lemma useEffect_value (state : JsValue) :
  useEffect state
  = Ok (if truthy (App.state_field state "database_id")
        then SetDatabaseId (App.state_field state "database_id")
        else Warn).
Proof.
  unfold useEffect. rewrite get_opt_state_field. cbn [Js.bind].
  destruct (truthy (App.state_field state "database_id")) eqn:T;
    [ | reflexivity].
  rewrite (get_state_field _ _ (state_field_truthy_not_nullish _ _ T)).
  reflexivity.
Qed.

(** X7: the effect on location.state never throws; it adopts
    location.state.database_id exactly when that value is truthy, and
    the database id is falsy afterwards exactly when it was falsy
    before and the navigation state carries no truthy one (so 0 and
    the empty string count as missing). *)
Theorem useEffect_adopts_truthy_database_id (state : JsValue) :
  (exists effect, useEffect state = Ok effect)
  /\ (forall id,
        useEffect state = Ok (SetDatabaseId id)
        <-> get_opt state "database_id" = Ok id /\ truthy id = true)
  /\ (forall before,
        truthy (databaseId_after (useEffect state) before) = false
        <-> truthy (App.state_field state "database_id") = false
            /\ truthy before = false).
Proof.
  rewrite useEffect_value, get_opt_state_field.
  destruct (truthy (App.state_field state "database_id")) eqn:T.
  - split; [eauto | split].
    + intros id. split.
      * intros H. inversion H; subst. auto.
      * intros [H _]. inversion H; subst. reflexivity.
    + intros before. cbn [databaseId_after]. rewrite T.
      split; [discriminate | intros [H _]; discriminate].
  - split; [eauto | split].
    + intros id. split; [discriminate | ].
      intros [H I]. inversion H; subst. congruence.
    + intros before. cbn [databaseId_after]. tauto.
Qed.

End QueryInputMore.

Section OutputDisplayMore.
Import Js Traced OutputDisplayJsx.

Lemma bind_lift_ok {A B} (a : A) (k : A -> Traced B) :
  Traced.bind (lift (Ok a)) k = k a.
Proof. unfold Traced.bind, lift. cbn. destruct (k a); reflexivity. Qed.

Lemma bind_threw {A B} (l : list string) (e : JsValue) (k : A -> Traced B) :
  Traced.bind (MkTraced l (Threw e)) k = MkTraced l (Threw e).
Proof. reflexivity. Qed.

Lemma bind_ret_ok {A B} (a : A) (k : A -> Traced B) :
  Traced.bind (ret a) k = k a.
Proof. apply bind_lift_ok. Qed.

(** The component once [location.state] holds a response. *)
Lemma OutputDisplay_with_response
  (format : JsValue -> Result JsValue) (state data : JsValue) (tab : Tab) :
  get_opt state "response" = Ok data -> truthy data = true ->
  exists databaseId,
    get_opt state "database_id" = Ok databaseId
    /\ OutputDisplay format state tab
       = (sq <~ read data "sql_query" ;;
          formattedSql <~
            (if truthy sq
             then sq' <~ read data "sql_query" ;; lift (format sq')
             else ret (JStr EmptyString)) ;;
          original_query <~ read data "original_query" ;;
          content <~ tab_content tab data formattedSql ;;
          ret (Results original_query content
                 (JObj [("database_id", databaseId)]))).
Proof.
  intros E T. exists (App.state_field state "database_id").
  split; [apply get_opt_state_field | ].
  unfold OutputDisplay. rewrite E, bind_lift_ok.
  rewrite get_opt_state_field, bind_lift_ok, T. reflexivity.
Qed.

(** X9: when sql-formatter throws on a truthy sql_query the component
    throws the same value on every tab, having read sql_query twice
    and nothing else. *)
Theorem formatter_failure_breaks_every_tab
  (format : JsValue -> Result JsValue) (state data sq e : JsValue) (tab : Tab) :
  get_opt state "response" = Ok data -> truthy data = true ->
  get data "sql_query" = Ok sq -> truthy sq = true ->
  format sq = Threw e ->
  OutputDisplay format state tab = MkTraced ["sql_query"; "sql_query"] (Threw e).
Proof.
  intros E T S TS F.
  destruct (OutputDisplay_with_response format state data tab E T) as (d & _ & ->).
  unfold read, lift. rewrite S, bind_ok. cbn [reads outcome]. rewrite TS.
  rewrite bind_ok. cbn [reads outcome]. rewrite F. reflexivity.
Qed.

Lemma formatter_failure_breaks_every_tab_witness :
  OutputDisplay (fun _ => Threw (JError "Error" "Parse error"))
    (QueryInputView.results_state Sample.response (JStr "db1")) TabValidation
  = MkTraced ["sql_query"; "sql_query"] (Threw (JError "Error" "Parse error")).
Proof.
  apply (formatter_failure_breaks_every_tab
           (fun _ => Threw (JError "Error" "Parse error"))
           (QueryInputView.results_state Sample.response (JStr "db1"))
           Sample.response (JStr Sample.older_than_30));
    reflexivity.
Defined.

(** X10: on the SQL tab the component reads only sql_query and
    original_query of the response: a falsy sql_query is shown as the
    empty string without calling the formatter, a truthy one as what
    the formatter returns. *)
Theorem sql_tab_reads_only_the_query
  (format : JsValue -> Result JsValue) (state data sq oq : JsValue) :
  get_opt state "response" = Ok data -> truthy data = true ->
  get data "sql_query" = Ok sq -> get data "original_query" = Ok oq ->
  exists databaseId,
    get_opt state "database_id" = Ok databaseId
    /\ (truthy sq = false ->
        OutputDisplay format state TabSql
        = MkTraced ["sql_query"; "original_query"]
            (Ok (Results oq (SqlPane (JStr EmptyString))
                   (JObj [("database_id", databaseId)]))))
    /\ (forall formatted,
          truthy sq = true -> format sq = Ok formatted ->
          OutputDisplay format state TabSql
          = MkTraced ["sql_query"; "sql_query"; "original_query"]
              (Ok (Results oq (SqlPane formatted)
                     (JObj [("database_id", databaseId)])))).
Proof.
  intros E T S O.
  destruct (OutputDisplay_with_response format state data TabSql E T)
    as (d & D & ->).
  exists d. split; [exact D | ].
  unfold read, lift. rewrite S, O, bind_ok. cbn [reads outcome].
  split.
  - intros ->. reflexivity.
  - intros formatted -> F. rewrite bind_ok. cbn [reads outcome]. rewrite F.
    reflexivity.
Qed.

Lemma sql_tab_reads_only_the_query_witness :
  exists databaseId,
    get_opt (JObj [("response", JObj [("sql_query", JStr "SELECT 1")])])
      "database_id" = Ok databaseId
    /\ OutputDisplay Sample.echo
         (JObj [("response", JObj [("sql_query", JStr "SELECT 1")])]) TabSql
       = MkTraced ["sql_query"; "sql_query"; "original_query"]
           (Ok (Results JUndefined (SqlPane (JStr "SELECT 1"))
                  (JObj [("database_id", databaseId)]))).
Proof.
  destruct (sql_tab_reads_only_the_query Sample.echo
              (JObj [("response", JObj [("sql_query", JStr "SELECT 1")])])
              (JObj [("sql_query", JStr "SELECT 1")]) (JStr "SELECT 1") JUndefined
              eq_refl eq_refl eq_refl eq_refl) as (d & D & _ & H).
  exists d. split; [exact D | ]. apply H; reflexivity.
Defined.

(** X11: the explanation tab throws a TypeError on reading 'trc' when
    trc_explanation is null or undefined, and the validation tab one
    on reading 'syntactic' when validation_status is, each after the
    one read of the response. *)
Theorem tabs_throw_without_their_data (data missing formattedSql : JsValue) :
  is_nullish missing = true ->
  (get data "trc_explanation" = Ok missing ->
   tab_content TabExplanation data formattedSql
   = MkTraced ["trc_explanation"] (Threw (cannot_read missing "trc")))
  /\ (get data "validation_status" = Ok missing ->
      tab_content TabValidation data formattedSql
      = MkTraced ["validation_status"] (Threw (cannot_read missing "syntactic"))).
Proof.
  intros N. split; intros H; cbn [tab_content].
  - unfold trc_field at 1. unfold read, lift. rewrite H, bind_ok.
    cbn [reads outcome].
    destruct missing; try discriminate; reflexivity.
  - unfold stage_panel at 1. unfold stage_valid at 1. unfold read, lift.
    rewrite H, bind_ok. cbn [reads outcome].
    destruct missing; try discriminate; reflexivity.
Qed.

Lemma tabs_throw_without_their_data_witness :
  tab_content TabValidation (JObj [("sql_query", JStr "SELECT 1")]) (JStr "SELECT 1")
  = MkTraced ["validation_status"]
      (Threw (JError "TypeError"
                "Cannot read properties of undefined (reading 'syntactic')")).
Proof.
  exact (proj2 (tabs_throw_without_their_data
                  (JObj [("sql_query", JStr "SELECT 1")]) JUndefined
                  (JStr "SELECT 1") eq_refl) eq_refl).
Defined.

(** A stage that is not in [validation_status]. *)
Lemma stage_panel_absent (data vs st : JsValue) (stage : string) :
  get data "validation_status" = Ok vs ->
  get vs stage = Ok st -> is_nullish st = true ->
  outcome (stage_panel data stage) = Ok (MkStagePanel false []).
Proof.
  intros H S N.
  assert (V : stage_valid data stage = MkTraced ["validation_status"] (Ok JUndefined)).
  { unfold stage_valid, read, lift. rewrite H, bind_ok. cbn [reads outcome].
    rewrite S, bind_ok. cbn [reads outcome]. unfold get_opt. now rewrite N. }
  assert (L : stage_errors_length data stage
              = MkTraced ["validation_status"] (Ok JUndefined)).
  { unfold stage_errors_length, read, lift. rewrite H, bind_ok. cbn [reads outcome].
    rewrite S, bind_ok. cbn [reads outcome]. unfold get_opt. now rewrite N. }
  unfold stage_panel. rewrite V, !bind_ok, L, bind_ok. reflexivity.
Qed.

(** X12: a validation_status that is present but holds none of the
    three stages gives three failed cards without error items, and the
    overall status follows overall_valid; nothing throws. *)
Theorem missing_stages_show_as_failed
  (data vs s1 s2 s3 ov formattedSql : JsValue) :
  get data "validation_status" = Ok vs ->
  get vs "syntactic" = Ok s1 -> is_nullish s1 = true ->
  get vs "semantic" = Ok s2 -> is_nullish s2 = true ->
  get vs "logical" = Ok s3 -> is_nullish s3 = true ->
  get vs "overall_valid" = Ok ov ->
  outcome (tab_content TabValidation data formattedSql)
  = Ok (ValidationPane (MkStagePanel false []) (MkStagePanel false [])
          (MkStagePanel false []) (truthy ov)).
Proof.
  intros H H1 N1 H2 N2 H3 N3 HO.
  pose proof (stage_panel_absent _ _ _ _ H H1 N1) as P1.
  pose proof (stage_panel_absent _ _ _ _ H H2 N2) as P2.
  pose proof (stage_panel_absent _ _ _ _ H H3 N3) as P3.
  assert (OV : OutputDisplayJsx.overall_valid data
               = MkTraced ["validation_status"] (Ok ov)).
  { unfold OutputDisplayJsx.overall_valid, read, lift. rewrite H, bind_ok.
    cbn [reads outcome]. now rewrite HO. }
  cbn [tab_content].
  destruct (stage_panel data "syntactic") as [l1 o1]. cbn in P1. subst o1.
  destruct (stage_panel data "semantic") as [l2 o2]. cbn in P2. subst o2.
  destruct (stage_panel data "logical") as [l3 o3]. cbn in P3. subst o3.
  rewrite !bind_ok, OV, !bind_ok. cbn [outcome ret]. now rewrite andb_diag.
Qed.

Lemma missing_stages_show_as_failed_witness :
  outcome (tab_content TabValidation
             (JObj [("validation_status", JObj [("overall_valid", JBool true)])])
             (JStr EmptyString))
  = Ok (ValidationPane (MkStagePanel false []) (MkStagePanel false [])
          (MkStagePanel false []) true).
Proof.
  exact (missing_stages_show_as_failed
           (JObj [("validation_status", JObj [("overall_valid", JBool true)])])
           (JObj [("overall_valid", JBool true)])
           JUndefined JUndefined JUndefined (JBool true) (JStr EmptyString)
           eq_refl eq_refl eq_refl eq_refl eq_refl eq_refl eq_refl eq_refl).
Defined.

(** X13: when the errors of the syntactic stage have a positive length
    but are not an array (a string, say), evaluating the validation tab
    throws a TypeError. *)
Theorem errors_that_are_no_array_throw
  (data vs st v er len formattedSql : JsValue) :
  get data "validation_status" = Ok vs ->
  get vs "syntactic" = Ok st ->
  get_opt st "valid" = Ok v ->
  get_opt st "errors" = Ok er ->
  get_opt er "length" = Ok len -> gt_zero len = true ->
  is_array er = false ->
  exists message,
    outcome (tab_content TabValidation data formattedSql)
    = Threw (JError "TypeError" message).
Proof.
  intros H S V E L G A.
  exists "responseData.validation_status.syntactic.errors.map is not a function".
  assert (Nst : is_nullish st = false).
  { destruct st; try reflexivity; cbn in E; inversion E; subst;
      cbn in L; inversion L; subst; discriminate. }
  assert (Ner : is_nullish er = false).
  { destruct er; try reflexivity; cbn in L; inversion L; subst; discriminate. }
  assert (E' : get st "errors" = Ok er).
  { unfold get_opt in E. now rewrite Nst in E. }
  assert (SV : stage_valid data "syntactic" = MkTraced ["validation_status"] (Ok v)).
  { unfold stage_valid, read, lift. rewrite H, bind_ok. cbn [reads outcome].
    rewrite S, bind_ok. cbn [reads outcome]. now rewrite V. }
  assert (SL : stage_errors_length data "syntactic"
               = MkTraced ["validation_status"] (Ok len)).
  { unfold stage_errors_length, read, lift. rewrite H, bind_ok. cbn [reads outcome].
    rewrite S, bind_ok. cbn [reads outcome]. rewrite E, bind_ok.
    cbn [reads outcome]. now rewrite L. }
  assert (SI : stage_error_items data "syntactic"
               = MkTraced ["validation_status"]
                   (Threw (JError "TypeError"
                      "responseData.validation_status.syntactic.errors.map is not a function"))).
  { unfold stage_error_items, read, lift. rewrite H, bind_ok. cbn [reads outcome].
    rewrite S, bind_ok. cbn [reads outcome]. rewrite E', bind_ok.
    cbn [reads outcome].
    destruct er; try discriminate; reflexivity. }
  cbn [tab_content]. unfold stage_panel at 1.
  rewrite SV, !bind_ok, SL, bind_ok, G, SI. reflexivity.
Qed.

Lemma errors_that_are_no_array_throw_witness :
  exists message,
    outcome (tab_content TabValidation
               (JObj [("validation_status",
                       JObj [("syntactic",
                              JObj [("valid", JBool false);
                                    ("errors", JStr "unexpected token")])])])
               (JStr EmptyString))
    = Threw (JError "TypeError" message).
Proof.
  apply (errors_that_are_no_array_throw
           (JObj [("validation_status",
                   JObj [("syntactic",
                          JObj [("valid", JBool false);
                                ("errors", JStr "unexpected token")])])])
           (JObj [("syntactic",
                   JObj [("valid", JBool false);
                         ("errors", JStr "unexpected token")])])
           (JObj [("valid", JBool false); ("errors", JStr "unexpected token")])
           (JBool false) (JStr "unexpected token") (JNum 16) (JStr EmptyString));
    reflexivity.
Defined.

(** X14: when trc_explanation is a string, the shape the README
    documents, the explanation tab of the latest revision shows four
    empty slots: each of trc, description, query and sql reads as
    undefined. *)
Theorem text_explanation_renders_blank (data : JsValue) (text : string)
  (formattedSql : JsValue) :
  get data "trc_explanation" = Ok (JStr text) ->
  outcome (tab_content TabExplanation data formattedSql)
  = Ok (ExplanationPane JUndefined JUndefined JUndefined JUndefined).
Proof.
  intros H.
  assert (F : forall k, String.eqb k "length" = false ->
                        trc_field data k = MkTraced ["trc_explanation"] (Ok JUndefined)).
  { intros k K. unfold trc_field, read, lift. rewrite H, bind_ok.
    cbn [reads outcome get]. now rewrite K. }
  cbn [tab_content]. rewrite !F by reflexivity. reflexivity.
Qed.

Lemma text_explanation_renders_blank_witness :
  outcome (tab_content TabExplanation
             (JObj [("trc_explanation", JStr "{ u | u in users }")])
             (JStr EmptyString))
  = Ok (ExplanationPane JUndefined JUndefined JUndefined JUndefined).
Proof.
  exact (text_explanation_renders_blank
           (JObj [("trc_explanation", JStr "{ u | u in users }")])
           "{ u | u in users }" (JStr EmptyString) eq_refl).
Defined.

(** X15: evaluating the earlier revision of the component throws only
    on the validation tab, only a TypeError, and only when the response
    carries errors that are neither null or undefined nor an array. *)
Theorem plain_revision_throws_only_on_errors
  (state : JsValue) (tab : OutputDisplayPlain.Tab) (e : JsValue) :
  outcome (OutputDisplayPlain.OutputDisplay state tab) = Threw e ->
  tab = OutputDisplayPlain.TabValidation
  /\ (exists message, e = JError "TypeError" message)
  /\ exists data er,
       get_opt state "response" = Ok data /\ get data "errors" = Ok er
       /\ is_nullish er = false /\ is_array er = false.
Proof.
  unfold OutputDisplayPlain.OutputDisplay.
  rewrite get_opt_state_field, bind_lift_ok.
  destruct (truthy (App.state_field state "response")) eqn:T; cbn [negb];
    [ | discriminate].
  generalize dependent (App.state_field state "response"). intros data T.
  pose proof (truthy_not_nullish _ T) as N.
  destruct (get_non_nullish data "original_query" N) as [oq Hoq].
  destruct (get_non_nullish data "sql_query" N) as [sq Hsq].
  destruct (get_non_nullish data "trc_explanation" N) as [te Hte].
  destruct (get_non_nullish data "validation_status" N) as [vs Hvs].
  destruct (get_non_nullish data "errors" N) as [er Her].
  pose proof (get_opt_state_field er "length") as Hlen.
  destruct tab; unfold OutputDisplayPlain.tab_content, read;
    rewrite ?Hoq, ?Hsq, ?Hte, ?Hvs, ?Her;
    cbn [Traced.bind outcome reads ret lift]; try discriminate.
  rewrite Hlen. cbn [Traced.bind outcome reads ret lift].
  destruct (gt_zero (App.state_field er "length")) eqn:G;
    cbn [Traced.bind outcome reads ret lift]; [ | discriminate].
  destruct (map_items "responseData.errors" er) as [items | x] eqn:M;
    cbn [Traced.bind outcome reads ret lift]; [discriminate | ].
  intros X. inversion X; subst x. split; [reflexivity | ].
  assert (A : is_nullish er = false /\ is_array er = false
              /\ e = JError "TypeError" "responseData.errors.map is not a function").
  { destruct er; cbn in M, G; try discriminate; inversion M; auto. }
  destruct A as (A1 & A2 & ->). split; [eauto | ].
  exists data, er. auto.
Qed.

Lemma plain_revision_throws_only_on_errors_witness :
  exists data er,
    get_opt (JObj [("response", JObj [("errors", JStr "timeout")])]) "response"
    = Ok data
    /\ get data "errors" = Ok er
    /\ is_nullish er = false /\ is_array er = false.
Proof.
  exact (proj2 (proj2 (plain_revision_throws_only_on_errors
                         (JObj [("response", JObj [("errors", JStr "timeout")])])
                         OutputDisplayPlain.TabValidation
                         (JError "TypeError"
                            "responseData.errors.map is not a function")
                         eq_refl))).
Defined.

End OutputDisplayMore.

Section ApiMore.
Import Js Api.

(** X16: when the POST is rejected with an error object, submitSchema
    and generateSQL throw an Error whose message is their prefix
    followed by the message of the reason; the name of the reason is
    not kept. *)
Theorem apiService_rethrows_message_only
  (post : string -> JsValue -> Result JsValue) (payload : JsValue)
  (name message : string) :
  (post "/submit-schema" payload = Threw (JError name message) ->
   submitSchema post payload
   = Threw (JError "Error" ("Failed to submit schema: " +++ message)))
  /\ (post "/generate-sql" payload = Threw (JError name message) ->
      generateSQL post payload
      = Threw (JError "Error" ("Failed to generate SQL: " +++ message))).
Proof.
  unfold submitSchema, generateSQL. split; intros ->; reflexivity.
Qed.

(** X17: a rejection with null or undefined escapes as the TypeError
    of the catch block, without the prefix; a null or undefined
    response is reported with the prefix; a rejection with a string
    gives the detail undefined; a response object without data is
    returned as undefined. *)
Theorem apiService_outside_axios_contract
  (post : string -> JsValue -> Result JsValue) (payload : JsValue) :
  (forall reason,
     post "/generate-sql" payload = Threw reason -> is_nullish reason = true ->
     generateSQL post payload = Threw (cannot_read reason "message"))
  /\ (forall response,
        post "/generate-sql" payload = Ok response -> is_nullish response = true ->
        generateSQL post payload
        = Threw (new_Error ("Failed to generate SQL: "
                              +++ "Cannot read properties of "
                              +++ nullish_name response
                              +++ " (reading 'data')")))
  /\ (forall reason,
        post "/submit-schema" payload = Threw reason -> is_nullish reason = true ->
        submitSchema post payload = Threw (cannot_read reason "message"))
  /\ (forall response,
        post "/submit-schema" payload = Ok response -> is_nullish response = true ->
        submitSchema post payload
        = Threw (new_Error ("Failed to submit schema: "
                              +++ "Cannot read properties of "
                              +++ nullish_name response
                              +++ " (reading 'data')")))
  /\ (forall text,
        post "/generate-sql" payload = Threw (JStr text) ->
        generateSQL post payload
        = Threw (new_Error "Failed to generate SQL: undefined"))
  /\ (forall fields,
        post "/generate-sql" payload = Ok (JObj fields) ->
        generateSQL post payload = Ok (lookup "data" fields)).
Proof.
  unfold submitSchema, generateSQL.
  repeat split.
  - intros reason -> N. destruct reason; try discriminate; reflexivity.
  - intros response -> N. destruct response; try discriminate; reflexivity.
  - intros reason -> N. destruct reason; try discriminate; reflexivity.
  - intros response -> N. destruct response; try discriminate; reflexivity.
  - intros text ->. cbn [Js.bind try_catch get].
    destruct (String.eqb "message" "length") eqn:E; [discriminate | reflexivity].
  - intros fields ->. reflexivity.
Qed.

End ApiMore.

Section UploadAndSubmit.
Import Js QueryInput SchemaUpload App.

Lemma handleSubmit_sends (s : State)
  (fetch : string -> JsString -> JsString -> JsString -> Result Response) :
  truthy_string (trim (schemaText s)) = true ->
  filter is_request (fst (handleSubmit s fetch))
  = [Fetch submit_schema_url "POST"
       (schemaText s) (lowerBoundSchema s) (upperBoundSchema s)].
Proof.
  intros T. unfold handleSubmit. rewrite T.
  destruct (fetch submit_schema_url (schemaText s) (lowerBoundSchema s)
              (upperBoundSchema s)) as [[o j] | e]; cbn;
    [destruct o; cbn; [destruct j as [data | e]; cbn | ] | ]; reflexivity.
Qed.

(** X2: the texts read from the files chosen with the three file
    inputs, whatever their names and types, are what handleSubmit
    posts, unchanged and untrimmed, and a schema text that is not blank
    enables the submit button. *)
Theorem uploaded_files_are_sent_unchanged
  (s : State) (schema lower upper : File) (more1 more2 more3 : list File)
  (t l u : JsString)
  (fetch : string -> JsString -> JsString -> JsString -> Result Response) :
  text schema = Some t -> text lower = Some l -> text upper = Some u ->
  forallb is_white_space t = false ->
  let s1 := after_reading (handleFileInput (schema :: more1) s) in
  let s2 := after_reading (handleLowerBoundUpload (lower :: more2) s1) in
  let s3 := after_reading (handleUpperBoundUpload (upper :: more3) s2) in
  submit_disabled s3 = false
  /\ filter is_request (fst (handleSubmit s3 fetch))
     = [Fetch submit_schema_url "POST" t l u].
Proof.
  intros Ht Hl Hu W. cbn zeta.
  unfold after_reading, handleFileInput, handleLowerBoundUpload,
    handleUpperBoundUpload, onload.
  cbn [fst snd]. rewrite Ht, Hl, Hu.
  apply not_blank_iff in W.
  split.
  - unfold submit_disabled. cbn [schemaText setSchemaText setLowerBoundSchema
                                  setUpperBoundSchema].
    now rewrite W.
  - rewrite handleSubmit_sends by exact W. reflexivity.
Qed.

Lemma uploaded_files_are_sent_unchanged_witness :
  filter is_request
    (fst (handleSubmit
            (after_reading
               (handleUpperBoundUpload [MkFile "upper.sql" EmptyString (Some [85]%N)]
                  (after_reading
                     (handleLowerBoundUpload [MkFile "lower.sql" EmptyString (Some [76]%N)]
                        (after_reading
                           (handleFileInput
                              [MkFile "schema.txt" "text/plain" (Some [32; 83]%N)]
                              initial))))))
            (fun _ _ _ _ => Threw (JError "TypeError" "Failed to fetch"))))
  = [Fetch submit_schema_url "POST" [32; 83]%N [76]%N [85]%N].
Proof.
  exact (proj2 (uploaded_files_are_sent_unchanged initial
                  (MkFile "schema.txt" "text/plain" (Some [32; 83]%N))
                  (MkFile "lower.sql" EmptyString (Some [76]%N))
                  (MkFile "upper.sql" EmptyString (Some [85]%N))
                  [] [] [] [32; 83]%N [76]%N [85]%N
                  (fun _ _ _ _ => Threw (JError "TypeError" "Failed to fetch"))
                  eq_refl eq_refl eq_refl eq_refl)).
Defined.

End UploadAndSubmit.

Section AppFacts.
Import Js Traced QueryInput QueryInputView App.

Lemma bind_outcome_ok {A B} (m : Traced A) (k : A -> Traced B) (b : B) :
  outcome (Traced.bind m k) = Ok b ->
  exists a, outcome m = Ok a /\ outcome (k a) = Ok b.
Proof.
  unfold Traced.bind. destruct (outcome m) as [a | e]; cbn; [eauto | discriminate].
Qed.

(** What the handler does without a database id. *)
Lemma handleGenerateSQL_without_id (query : JsString) (databaseId : JsValue)
  (fetch : string -> JsValue -> JsString -> Result Response) :
  truthy_string (trim query) = true -> truthy databaseId = false ->
  fst (handleGenerateSQL query databaseId fetch)
  = [SetIsGenerating true;
     Alert "No Database ID found. Please upload a schema first.";
     SetIsGenerating false].
Proof.
  intros T D. unfold handleGenerateSQL. rewrite T, D. reflexivity.
Qed.

(** Where the handler navigates to. *)
Lemma generate_navigation (query : JsString) (databaseId : JsValue)
  (fetch : string -> JsValue -> JsString -> Result Response) (loc : Location) :
  navigation_of_generate (fst (handleGenerateSQL query databaseId fetch)) = Some loc ->
  truthy databaseId = true
  /\ exists data, loc = MkLocation "/results" (results_state data databaseId).
Proof.
  unfold handleGenerateSQL.
  destruct (truthy_string (trim query)); cbn [negb]; [ | discriminate].
  destruct (truthy databaseId); cbn [negb]; [ | discriminate].
  destruct (fetch generate_sql_url databaseId query) as [[o j] | e]; cbn;
    [destruct o; cbn; [destruct j as [data | e]; cbn | ] | ]; try discriminate.
  intros H. inversion H. eauto.
Qed.

Lemma submit_navigation (s : SchemaUpload.State)
  (fetch : string -> JsString -> JsString -> JsString -> Result Response)
  (loc : Location) :
  navigation_of_submit (fst (SchemaUpload.handleSubmit s fetch)) = Some loc ->
  loc = MkLocation "/query" JNull.
Proof.
  unfold SchemaUpload.handleSubmit.
  destruct (truthy_string (trim (SchemaUpload.schemaText s))); [ | discriminate].
  destruct (fetch SchemaUpload.submit_schema_url (SchemaUpload.schemaText s)
              (SchemaUpload.lowerBoundSchema s) (SchemaUpload.upperBoundSchema s))
    as [[o j] | e]; cbn;
    [destruct o; cbn; [destruct j as [data | e]; cbn | ] | ]; try discriminate.
  intros H. now inversion H.
Qed.

Lemma mount_query_page (st : JsValue) :
  mount (MkLocation "/query" st)
  = QueryInputPage [] false
      (if truthy (state_field st "database_id")
       then state_field st "database_id" else JNull).
Proof.
  unfold mount, mount_by, as_written. cbn [pathname state element routes String.eqb
    Ascii.eqb Bool.eqb]. cbn [state]. rewrite useEffect_value.
  destruct (truthy (state_field st "database_id")); reflexivity.
Qed.

Lemma OutputDisplay_button_state
  (format : JsValue -> Result JsValue) (st : JsValue)
  (tab : OutputDisplayJsx.Tab) (v : OutputDisplayJsx.View) :
  outcome (OutputDisplayJsx.OutputDisplay format st tab) = Ok v ->
  go_to_query v = new_query st.
Proof.
  unfold OutputDisplayJsx.OutputDisplay.
  rewrite !get_opt_state_field, !bind_lift_ok.
  destruct (truthy (state_field st "response")); cbn [negb].
  - intros H.
    apply bind_outcome_ok in H as (sq & _ & H).
    apply bind_outcome_ok in H as (f & _ & H).
    apply bind_outcome_ok in H as (oq & _ & H).
    apply bind_outcome_ok in H as (c & _ & H).
    inversion H; subst. reflexivity.
  - intros H. inversion H; subst. reflexivity.
Qed.

(** X8: when handleGenerateSQL navigates to the results page, the
    button of that page that leads back to the query page carries the
    database id along, and the query page mounted there holds the same
    database id again; the button of the earlier revision navigates
    without state, which leaves the query page without one. *)
Theorem database_id_survives_results_page
  (query : JsString) (databaseId : JsValue)
  (fetch : string -> JsValue -> JsString -> Result Response)
  (loc : Location) (format : JsValue -> Result JsValue)
  (tab : OutputDisplayJsx.Tab) (v : OutputDisplayJsx.View) :
  navigation_of_generate (fst (handleGenerateSQL query databaseId fetch)) = Some loc ->
  outcome (OutputDisplayJsx.OutputDisplay format (state loc) tab) = Ok v ->
  mount (go_to_query v) = QueryInputPage [] false databaseId
  /\ mount new_query_plain = QueryInputPage [] false JNull.
Proof.
  intros G R. split; [ | reflexivity].
  apply generate_navigation in G as (T & data & ->).
  rewrite (OutputDisplay_button_state _ _ _ _ R).
  unfold new_query. rewrite mount_query_page.
  cbn [state results_state state_field get_opt is_nullish get lookup String.eqb
       Ascii.eqb Bool.eqb]. cbn.
  now rewrite T.
Qed.

Lemma database_id_survives_results_page_witness :
  mount (go_to_query
           (OutputDisplayJsx.Results (JStr "employees older than 30")
              (OutputDisplayJsx.SqlPane (JStr Sample.older_than_30))
              (JObj [("database_id", JStr "db1")])))
  = QueryInputPage [] false (JStr "db1").
Proof.
  exact (proj1 (database_id_survives_results_page [97]%N (JStr "db1")
                  Sample.answering
                  (MkLocation "/results" (results_state Sample.response (JStr "db1")))
                  Sample.echo OutputDisplayJsx.TabSql _ eq_refl eq_refl)).
Defined.

(** ** The pages together *)

Lemma without_data_null (path : string) : without_data (MkLocation path JNull).
Proof. split; reflexivity. Qed.

Lemma without_data_new_query (st : JsValue) :
  truthy (state_field st "database_id") = false ->
  without_data (new_query st).
Proof. intros H. split; [exact H | reflexivity]. Qed.

Lemma mount_without_data (router : Router) (loc : Location) :
  without_data loc -> page_without_database_id (mount_by router loc).
Proof.
  intros [D _]. unfold mount_by.
  destruct (router (pathname loc)) as [[ | | ] | ]; cbn; auto.
  rewrite useEffect_value, D. reflexivity.
Qed.

Lemma visit_no_data (router : Router) (loc : Location) (b : Browser) :
  without_data loc -> no_data b -> no_data (visit_by router loc b).
Proof.
  intros L (C & H & _). repeat split; cbn; try apply L.
  - constructor; assumption.
  - now apply mount_without_data.
Qed.

Lemma stay_no_data (p : Page) (b : Browser) :
  page_without_database_id p -> no_data b -> no_data (stay p b).
Proof. intros P (C & H & _). repeat split; cbn; auto; apply C. Qed.

Lemma no_generate_request_from_upload (t : list SchemaUpload.Event) :
  existsb is_generate_request (map FromSchemaUpload t) = false.
Proof. induction t; cbn; auto. Qed.

Lemma step_no_data (router : Router) (a : Action) (b : Browser) :
  no_data b ->
  no_data (fst (step_by router a b))
  /\ existsb is_generate_request (snd (step_by router a b)) = false.
Proof.
  intros I. pose proof I as (C & H & P).
  unfold step_by.
  destruct a; destruct (page b) as [s | q g id | shown | ] eqn:Pg;
    cbn [fst snd existsb];
    try (split; [ | reflexivity]);
    try exact I;
    try (apply stay_no_data; [exact Logic.I | exact I]);
    try (apply visit_no_data; [apply without_data_null | exact I]).
  all: try (apply stay_no_data; [apply mount_without_data; exact C | exact I]).
  all: try (destruct (nth_error (history b) n) as [loc | ] eqn:N; cbn [fst snd];
            (split; [ | reflexivity]);
            [apply visit_no_data;
             [exact (proj1 (Forall_forall _ _) H loc (nth_error_In _ _ N)) | exact I]
            | exact I]).
  - (* Submit *)
    destruct (SchemaUpload.submit_disabled s); cbn [fst snd]; [now split | ].
    split; [ | apply no_generate_request_from_upload].
    destruct (navigation_of_submit _) as [loc | ] eqn:N; [ | exact I].
    apply submit_navigation in N as ->.
    apply visit_no_data; [apply without_data_null | exact I].
  - (* TypeQuery *)
    apply stay_no_data; [exact P | exact I].
  - (* ClickExample *)
    destruct (nth_error exampleQueries i); cbn [fst snd]; split; auto.
    apply stay_no_data; [exact P | exact I].
  - (* Generate *)
    cbn in P.
    unfold generate_disabled.
    destruct (truthy_string (trim q)) eqn:T; cbn [negb orb]; [ | now split].
    destruct g; cbn [fst snd]; [now split | ].
    rewrite (handleGenerateSQL_without_id q id fetch T P).
    split; [ | reflexivity].
    cbn [navigation_of_generate find is_navigation].
    apply stay_no_data; [exact P | exact I].
  - (* BackToUpload, results *)
    destruct (shows_results (current b)); cbn [fst snd]; split; auto.
    apply visit_no_data; [apply without_data_null | exact I].
  - (* SelectTab *)
    destruct (shows_results (current b)); cbn [fst snd]; split; auto.
    apply stay_no_data; [exact Logic.I | exact I].
  - (* NewQuery *)
    apply visit_no_data; [ | exact I].
    apply without_data_new_query. apply C.
Qed.

Lemma run_no_data (router : Router) (actions : list Action) (b : Browser) :
  no_data b ->
  no_data (fst (run_by router actions b))
  /\ existsb is_generate_request (snd (run_by router actions b)) = false.
Proof.
  revert b. induction actions as [ | a rest IH]; intros b I; cbn [run_by].
  - now split.
  - destruct (step_no_data router a b I) as [I' O'].
    destruct (step_by router a b) as [b' out]. cbn [fst snd] in *.
    destruct (IH b' I') as [I'' O''].
    destruct (run_by router rest b') as [b'' out']. cbn [fst snd] in *.
    split; [exact I'' | ].
    rewrite existsb_app, O', O''. reflexivity.
Qed.

Lemma fresh_no_data (router : Router) (path : string) :
  no_data (fresh_by router path).
Proof.
  repeat split; cbn; auto.
  apply mount_without_data. apply without_data_null.
Qed.

(** X19: in a tab opened on any path, whichever element the router
    finds for a pathname, after any sequence of user actions and
    whatever the network answers, the query page holds no database id,
    no request to the generate-sql URL has been issued and the results
    page has nothing but its fallback to show: nothing ever places a
    database id into the navigation state. *)
Theorem no_session_reaches_the_generator
  (router : Router) (path : string) (actions : list Action)
  (format : JsValue -> Result JsValue) (tab : OutputDisplayJsx.Tab) :
  let b := fst (run_by router actions (fresh_by router path)) in
  existsb is_generate_request (snd (run_by router actions (fresh_by router path)))
  = false
  /\ page_without_database_id (page b)
  /\ (exists st,
        OutputDisplayJsx.OutputDisplay format (state (current b)) tab
        = MkTraced [] (Ok (OutputDisplayJsx.NoResults st))).
Proof.
  cbn zeta.
  destruct (run_no_data router actions (fresh_by router path)
              (fresh_no_data router path))
    as [((D & R) & _ & P) O].
  split; [exact O | split; [exact P | ]].
  unfold OutputDisplayJsx.OutputDisplay.
  rewrite !get_opt_state_field, !bind_lift_ok, R. cbn [negb].
  eexists. reflexivity.
Qed.

(** ** Routes *)

Lemma visit_within_routes (loc : Location) (b : Browser) :
  is_route (pathname loc) = true -> within_routes b -> within_routes (visit loc b).
Proof. intros L W. constructor; assumption. Qed.

(** X18: every navigation that a handler or a button performs leads to
    a declared route: only a URL opened from outside can leave the
    routes. *)
Theorem navigation_stays_within_routes (a : Action) (b : Browser) :
  is_open a = false -> within_routes b -> within_routes (fst (step a b)).
Proof.
  intros A W. unfold step, step_by. fold visit.
  destruct a; try discriminate;
    destruct (page b) as [s | q g id | shown | ] eqn:Pg;
    cbn [fst snd]; try exact W;
    try (apply visit_within_routes; [reflexivity | exact W]).
  all: try (destruct (nth_error (history b) n) as [loc | ] eqn:N; cbn [fst snd];
            [ | exact W];
            apply visit_within_routes; [ | exact W];
            apply nth_error_In in N;
            exact (proj1 (Forall_forall _ _) W loc (or_intror N))).
  - destruct (SchemaUpload.submit_disabled s); cbn [fst snd]; [exact W | ].
    destruct (navigation_of_submit _) as [loc | ] eqn:N; [ | exact W].
    apply submit_navigation in N as ->.
    apply visit_within_routes; [reflexivity | exact W].
  - destruct (nth_error exampleQueries i); exact W.
  - destruct (generate_disabled q g); cbn [fst snd]; [exact W | ].
    destruct (navigation_of_generate _) as [loc | ] eqn:N; [ | exact W].
    apply generate_navigation in N as (_ & data & ->).
    apply visit_within_routes; [reflexivity | exact W].
  - destruct (shows_results (current b)); cbn [fst snd]; [ | exact W].
    apply visit_within_routes; [reflexivity | exact W].
  - destruct (shows_results (current b)); exact W.
Qed.

Lemma navigation_stays_within_routes_witness :
  within_routes (fst (step NewQuery (fresh "/results"))).
Proof.
  apply (navigation_stays_within_routes NewQuery (fresh "/results")).
  - reflexivity.
  - repeat constructor.
Defined.

End AppFacts.
